(** * Response validation for the Syracuse 2024 lacrosse statistics

    A shallow embedding of [Testing_and_Validation.py]: the text
    extractors built on [re.findall], the rubric scorer, the per-question
    policies of [SyracuseDataValidator.validate_response] and the
    per-category statistics of [ResultsAnalyzer.generate_summary_report].

    Modelling conventions.
    - A Python [str] is a [string] of 7-bit characters; [\d], [\w], [\s]
      and [str.lower] are given on that range.
    - A Python [int] is a [Z]; [int] of a decimal text raises
      [ValueError] past the 4300 digits that CPython allows by default.
    - The cells of a frame are int64 values, and the sum of a column
      wraps around as pandas' does. The integers that an f-string prints
      (cells, sums and the counts of [team_stats] and [ground_truth]) are
      such values, which [str] prints whatever they are.
    - [sort_values] uses numpy's quicksort, which keeps no order among
      rows of equal goals and differs between builds: it is a member of
      the class [SortValues], of which only the result's being the rows
      of the frame by goals, the most first, is known.
    - A Python [float] is a binary64 value of [SpecFloat] ([prec = 53],
      [emax = 1024]); arithmetic is the correctly rounded IEEE arithmetic
      of that module.
    - An exception is a value of [exn]; a call that may raise returns a
      [result].
    - [datetime.now().isoformat()] is an argument [now] of the calls that
      read the clock.
    - An f-string that goes into [notes] or [expected_answer] is kept as a
      constructor that holds the interpolated values; the text of the
      summary report is kept as the values of its sections. *)

From Stdlib Require Import ZArith List Bool Ascii String Lia PeanoNat.
From Stdlib Require Import Numbers.DecimalString.
From Stdlib Require Numbers.DecimalPos.
From Stdlib Require Import Sorting.Permutation Sorting.Sorted.
From Stdlib Require Import Floats.SpecFloat.
Import ListNotations.

Open Scope string_scope.
Open Scope list_scope.

(** ** Python values *)

Module Py.

(** *** Exceptions *)

Inductive exn : Type :=
| OverflowError
| ValueError
| ZeroDivisionError
| AttributeError.

Inductive result (A : Type) : Type :=
| Ok (a : A)
| Raise (e : exn).
Arguments Ok {A} a.
Arguments Raise {A} e.

Definition bind {A B : Type} (m : result A) (f : A -> result B) : result B :=
  match m with
  | Ok a => f a
  | Raise e => Raise e
  end.

(** *** Characters *)

Definition code (c : ascii) : nat := nat_of_ascii c.

Definition between (lo hi : nat) (c : ascii) : bool :=
  (lo <=? code c)%nat && (code c <=? hi)%nat.

(** [\d] *)
Definition is_digit (c : ascii) : bool := between 48 57 c.

Definition is_upper (c : ascii) : bool := between 65 90 c.
Definition is_lower (c : ascii) : bool := between 97 122 c.

(** [\w]: letters, digits and the underscore *)
Definition is_word (c : ascii) : bool :=
  is_digit c || is_upper c || is_lower c || (code c =? 95)%nat.

(** [\s] and [str.isspace]: tab to carriage return, the four separators
    28 to 31, and the space *)
Definition is_space (c : ascii) : bool :=
  between 9 13 c || between 28 31 c || (code c =? 32)%nat.

Definition is_percent (c : ascii) : bool := (code c =? 37)%nat.
Definition is_dot (c : ascii) : bool := (code c =? 46)%nat.

Definition lower_char (c : ascii) : ascii :=
  if is_upper c then ascii_of_nat (code c + 32) else c.

(** *** Strings *)

(** [s.lower()] *)
Fixpoint lower (s : string) : string :=
  match s with
  | EmptyString => EmptyString
  | String c s' => String (lower_char c) (lower s')
  end.

(** [s.startswith(p)] *)
Fixpoint startswith (p s : string) : bool :=
  match p, s with
  | EmptyString, _ => true
  | String _ _, EmptyString => false
  | String a p', String b s' => Ascii.eqb a b && startswith p' s'
  end.

(** [needle in hay] *)
Fixpoint str_in (needle hay : string) : bool :=
  startswith needle hay ||
  match hay with
  | EmptyString => false
  | String _ hay' => str_in needle hay'
  end.

(** [s[:n]] *)
Fixpoint take (n : nat) (s : string) : string :=
  match n, s with
  | S n', String c s' => String c (take n' s')
  | _, _ => EmptyString
  end.

Fixpoint all_chars (p : ascii -> bool) (s : string) : bool :=
  match s with
  | EmptyString => true
  | String c s' => p c && all_chars p s'
  end.

Fixpoint any_char (p : ascii -> bool) (s : string) : bool :=
  match s with
  | EmptyString => false
  | String c s' => p c || any_char p s'
  end.

(** The character before the end of [s], [prev] when [s] is empty. *)
Fixpoint last_char (prev : option ascii) (s : string) : option ascii :=
  match s with
  | EmptyString => prev
  | String c s' => last_char (Some c) s'
  end.

Fixpoint lstrip_by (p : ascii -> bool) (s : string) : string :=
  match s with
  | EmptyString => EmptyString
  | String c s' => if p c then lstrip_by p s' else s
  end.

(** [s.rstrip(chars)]: the characters of [s] up to the last one outside
    the stripped class *)
Fixpoint rstrip_by (p : ascii -> bool) (s : string) : string :=
  match s with
  | EmptyString => EmptyString
  | String c s' =>
      match rstrip_by p s' with
      | EmptyString => if p c then EmptyString else String c EmptyString
      | r => String c r
      end
  end.

(** [s.strip()] *)
Definition strip (s : string) : string := lstrip_by is_space (rstrip_by is_space s).

(** *** Regular expressions

    The fragment of [re] the program uses: a character class, the word
    boundary [\b], concatenation, a greedy optional group [(?:r)?] and
    the greedy repetitions [c*] and [c+] of a class. Matching is the
    backtracking search of [re] with its priorities: a repetition takes
    as many characters as it can and gives them back one at a time, an
    optional group is tried before it is skipped. *)

Inductive regex : Type :=
| Cls (p : ascii -> bool)
| WordB
| Cat (r1 r2 : regex)
| Opt (r : regex)
| Star (p : ascii -> bool).

Definition Plus (p : ascii -> bool) : regex := Cat (Cls p) (Star p).

(** A position in the subject: the number of characters the match has
    consumed, the character before the position and the rest of the
    subject. The continuation of a match returns its end. *)
Definition cont : Type := nat -> option ascii -> string -> option nat.

Definition word_opt (c : option ascii) : bool :=
  match c with
  | Some c => is_word c
  | None => false
  end.

Definition head (s : string) : option ascii :=
  match s with
  | EmptyString => None
  | String c _ => Some c
  end.

(** [\b] holds where exactly one side is a word character. *)
Definition at_boundary (prev : option ascii) (s : string) : bool :=
  xorb (word_opt prev) (word_opt (head s)).

Fixpoint star_k (p : ascii -> bool) (k : cont) (n : nat) (prev : option ascii)
    (s : string) : option nat :=
  match s with
  | String c s' =>
      if p c then
        match star_k p k (S n) (Some c) s' with
        | Some e => Some e
        | None => k n prev s
        end
      else k n prev s
  | EmptyString => k n prev s
  end.

Fixpoint match_k (r : regex) (k : cont) (n : nat) (prev : option ascii)
    (s : string) : option nat :=
  match r with
  | Cls p =>
      match s with
      | String c s' => if p c then k (S n) (Some c) s' else None
      | EmptyString => None
      end
  | WordB => if at_boundary prev s then k n prev s else None
  | Cat r1 r2 => match_k r1 (match_k r2 k) n prev s
  | Opt r1 =>
      match match_k r1 k n prev s with
      | Some e => Some e
      | None => k n prev s
      end
  | Star p => star_k p k n prev s
  end.

(** The length of the match of [r] that starts here, if there is one. *)
Definition match_at (r : regex) (prev : option ascii) (s : string) : option nat :=
  match_k r (fun n _ _ => Some n) 0 prev s.

(** [re.findall(r, s)] for a pattern without groups that matches no empty
    string, as the patterns of the program: the matches from left to
    right, the search resuming where the last match ended. [skip] counts
    the characters of the last match still to pass. *)
Fixpoint scan (r : regex) (prev : option ascii) (s : string) (skip : nat)
    : list string :=
  match s with
  | EmptyString => []
  | String c s' =>
      match skip with
      | S n => scan r (Some c) s' n
      | O =>
          match match_at r prev s with
          | Some n => take n s :: scan r (Some c) s' (n - 1)
          | None => scan r (Some c) s' 0
          end
      end
  end.

Definition findall (r : regex) (s : string) : list string := scan r None s 0.

(** [re.search(r'\d', s)] as a truth value *)
Definition search_digit (s : string) : bool := any_char is_digit s.

(** *** Integers *)

Definition digit_val (c : ascii) : Z := Z.of_nat (code c - 48).

Fixpoint int_acc (acc : Z) (s : string) : Z :=
  match s with
  | EmptyString => acc
  | String c s' => int_acc (10 * acc + digit_val c) s'
  end.

(** The number that a run of digits writes. *)
Definition digits_value (s : string) : Z := int_acc 0 s.

(** The digits that CPython lets a decimal text given to [int] have:
    [sys.int_info.default_max_str_digits]. *)
Definition max_str_digits : nat := 4300.

(** [int(s)] for a run of digits [s]: [ValueError] where [s] has more
    digits than the limit, zeros at its start counted. *)
Definition int_of (s : string) : result Z :=
  if (max_str_digits <? String.length s)%nat then Raise ValueError
  else Ok (digits_value s).

(** [[f(x) for x in l]] where [f] may raise: the first exception leaves
    the comprehension. *)
Fixpoint traverse {A B : Type} (f : A -> result B) (l : list A) : result (list B) :=
  match l with
  | [] => Ok []
  | x :: l' =>
      bind (f x) (fun y => bind (traverse f l') (fun ys => Ok (y :: ys)))
  end.

(** [str(i)], also the [{i}] of an f-string *)
Definition string_of_Z (i : Z) : string := NilEmpty.string_of_int (Z.to_int i).

(** *** Floats *)

Definition float : Type := spec_float.

Definition prec : Z := 53.
Definition emax : Z := 1024.

(** The binary64 value nearest to [n / 10^k] (ties to even), [n >= 0]:
    the quotient is taken with the digits the format asks for and rounded
    once. *)
Definition float_of_decimal (n : Z) (k : nat) : float :=
  let '(q, e, l) := SFdiv_core_binary prec emax n 0 (10 ^ Z.of_nat k) 0 in
  binary_round_aux prec emax false q e l.

(** [float(i)] for an [int] that a float can hold *)
Definition float_of_Z (i : Z) : float := binary_normalize prec emax i 0 false.

(** The digits before and after the first dot of [s]. *)
Fixpoint split_dot (s : string) : string * option string :=
  match s with
  | EmptyString => (EmptyString, None)
  | String c s' =>
      if is_dot c then (EmptyString, Some s')
      else let '(a, b) := split_dot s' in (String c a, b)
  end.

(** [float(s)] for [s] of the form digits or digits.digits *)
Definition float_of (s : string) : float :=
  match split_dot s with
  | (a, None) => float_of_decimal (digits_value a) 0
  | (a, Some b) => float_of_decimal (digits_value (a ++ b)) (String.length b)
  end.

Definition fsub : float -> float -> float := SFsub prec emax.
Definition fdiv : float -> float -> float := SFdiv prec emax.
Definition fmul : float -> float -> float := SFmul prec emax.
Definition fabs : float -> float := SFabs.
Definition fle : float -> float -> bool := SFleb.

(** The integer nearest to [m / d], ties to even, for [d > 0]. *)
Definition div_half_even (m d : Z) : Z :=
  let q := (m / d)%Z in
  let r := (m mod d)%Z in
  match (2 * r ?= d)%Z with
  | Lt => q
  | Gt => (q + 1)%Z
  | Eq => if Z.even q then q else (q + 1)%Z
  end.

(** The integer nearest to [m * 2^e * 10^k], ties to even. *)
Definition scaled_half_even (m e : Z) (k : nat) : Z :=
  let m10 := (m * 10 ^ Z.of_nat k)%Z in
  if (0 <=? e)%Z then (m10 * 2 ^ e)%Z else div_half_even m10 (2 ^ (- e)).

Definition cond_opp (s : bool) (z : Z) : Z := if s then (- z)%Z else z.

(** [round(x)]: an [int], the nearest one, ties to even; an infinity or a
    NaN has none. *)
Definition round (x : float) : result Z :=
  match x with
  | S754_zero _ => Ok 0%Z
  | S754_finite s m e => Ok (cond_opp s (scaled_half_even (Zpos m) e 0))
  | S754_infinity _ => Raise OverflowError
  | S754_nan => Raise ValueError
  end.

(** [round(x, 1)]: the float nearest to the decimal with one digit after
    the point that is nearest to [x]. *)
Definition round1 (x : float) : float :=
  match x with
  | S754_finite s m e =>
      let r := float_of_decimal (scaled_half_even (Zpos m) e 1) 1 in
      if s then SFopp r else r
  | _ => x
  end.

(** [a / b] for two ints: the float nearest to the quotient; a zero
    divisor raises, and so does a quotient beyond the floats. *)
Definition truediv (a b : Z) : result float :=
  if (b =? 0)%Z then Raise ZeroDivisionError
  else
    let '(q, e, l) := SFdiv_core_binary prec emax (Z.abs a) 0 (Z.abs b) 0 in
    match binary_round_aux prec emax (xorb (a <? 0)%Z (b <? 0)%Z) q e l with
    | S754_infinity _ => Raise OverflowError
    | x => Ok x
    end.

(** [any(f(v) for v in l)] where [f] may raise: the generator stops at the
    first true value and an exception of [f] leaves the loop. *)
Fixpoint any_raising {A : Type} (f : A -> result bool) (l : list A) : result bool :=
  match l with
  | [] => Ok false
  | v :: l' =>
      match f v with
      | Raise e => Raise e
      | Ok true => Ok true
      | Ok false => any_raising f l'
      end
  end.

End Py.

Import Py.

(** ** The data set *)

Module Data.

(** One row of the frame of [create_syracuse_2024_dataset]. *)
Record Row : Type := {
  Player : string;
  Jersey : Z;
  Goals : Z;
  Assists : Z;
  Points : Z;
  Shots : Z;
  Games_Played : Z
}.

Definition DataFrame : Type := list Row.

Record TeamStats : Type := {
  ts_season_record : string;
  ts_total_games : Z;
  ts_home_record : string;
  ts_away_record : string;
  ts_neutral_record : string;
  ts_conference_record : string;
  ts_non_conference_record : string;
  ts_total_team_goals : Z;
  ts_total_team_assists : Z;
  ts_team_shots : Z
}.

Definition col_Player : list string :=
  [ "Meaghan Tyrrell"; "Olivia Adamson"; "Emma Ward"; "Sam Swart";
    "Payton Rowley"; "Maddy Baxter"; "Savannah Sweitzer"; "Emma Madnick";
    "Jody Cerullo"; "Grace Britton"; "Kendall Rose"; "Kaci Benoit";
    "Sloane Clark"; "Katie Goodale"; "Mackenzie Rich"; "Victoria Reid";
    "Ryann Banks"; "Hallie Simpkins"; "McKenzie Oleen"; "Ruby Hnatkowiak";
    "Sydney Pirreca"; "Carlie Desimone"; "Ally Quirk"; "Tate Paulson";
    "Ryan Johnson"; "Georgia Sexton-Stone"; "Gwenna Gento"; "Ezra Lahan";
    "Ella Bree"; "Talia Waders"; "Jenna Marino"; "Ana Horvit";
    "Delaney Swartout"; "Daniella Guyette" ].

Definition col_Jersey : list Z :=
  [ 22; 22; 23; 2; 19; 22; 21; 22;
    17; 19; 7; 22; 9; 31; 10; 7;
    4; 22; 21; 22; 6; 9; 5; 1;
    6; 7; 7; 7; 6; 5; 3; 7;
    22; 7 ]%Z.

Definition col_Goals : list Z :=
  [ 70; 58; 44; 29; 23; 30; 24; 14;
    11; 6; 8; 1; 1; 0; 0; 0;
    0; 0; 0; 0; 0; 0; 0; 0;
    0; 0; 0; 0; 0; 0; 0; 0;
    0; 0 ]%Z.

Definition col_Assists : list Z :=
  [ 32; 25; 37; 18; 15; 6; 9; 13;
    3; 4; 1; 0; 0; 1; 1; 0;
    1; 1; 0; 0; 0; 0; 0; 0;
    0; 0; 0; 0; 0; 0; 0; 0;
    0; 0 ]%Z.

Definition col_Points : list Z :=
  [ 102; 83; 81; 47; 38; 36; 33; 27;
    14; 10; 9; 1; 1; 1; 1; 0;
    1; 1; 0; 0; 0; 0; 0; 0;
    0; 0; 0; 0; 0; 0; 0; 0;
    0; 0 ]%Z.

Definition col_Shots : list Z :=
  [ 115; 109; 90; 53; 55; 64; 54; 42;
    29; 17; 11; 3; 1; 2; 1; 2;
    1; 0; 4; 2; 1; 1; 0; 0;
    0; 0; 0; 0; 0; 0; 0; 0;
    0; 0 ]%Z.

Definition col_Games_Played : list Z :=
  [ 21; 12; 10; 19; 15; 14; 8; 15;
    10; 3; 3; 21; 1; 43; 19; 19;
    0; 26; 3; 1; 10; 0; 0; 1;
    0; 0; 0; 1; 1; 0; 0; 0;
    4; 0 ]%Z.

(** [pd.DataFrame(columns)]: the rows of seven columns of one length. *)
Fixpoint frame (p : list string) (j g a pt s gp : list Z) : DataFrame :=
  match p, j, g, a, pt, s, gp with
  | p0 :: p', j0 :: j', g0 :: g', a0 :: a', pt0 :: pt', s0 :: s', gp0 :: gp' =>
      {| Player := p0; Jersey := j0; Goals := g0; Assists := a0;
         Points := pt0; Shots := s0; Games_Played := gp0 |}
      :: frame p' j' g' a' pt' s' gp'
  | _, _, _, _, _, _, _ => []
  end.

(** The int64 that an integer becomes when the arithmetic of int64 wraps
    around: the one of [-2^63 .. 2^63 - 1] that differs from it by a
    multiple of [2^64]. *)
Definition wrap64 (z : Z) : Z := ((z + 2 ^ 63) mod 2 ^ 64 - 2 ^ 63)%Z.

(** [int(df[col].sum())]: the sum of an int64 column, which wraps around. *)
Definition col_sum (f : Row -> Z) (df : DataFrame) : Z :=
  wrap64 (fold_left (fun acc r => (acc + f r)%Z) df 0%Z).

Definition create_syracuse_2024_dataset : DataFrame * TeamStats :=
  let df := frame col_Player col_Jersey col_Goals col_Assists col_Points
                  col_Shots col_Games_Played in
  let total_goals := col_sum Goals df in
  let total_assists := col_sum Assists df in
  (df,
   {| ts_season_record := "16-6";
      ts_total_games := 22;
      ts_home_record := "9-2";
      ts_away_record := "5-2";
      ts_neutral_record := "2-2";
      ts_conference_record := "9-1";
      ts_non_conference_record := "7-5";
      ts_total_team_goals := total_goals;
      ts_total_team_assists := total_assists;
      ts_team_shots := col_sum Shots df |}).

End Data.

Import Data.

(** ** The validator *)

Module Validator.

(** An entry of [ground_truth['top3_shooting']]. *)
Record Shooting : Type := {
  player : string;
  shooting_pct : float
}.

(** The entries of [ground_truth] that [validate_response] and the rubric
    read. *)
Record GroundTruth : Type := {
  total_games : Z;
  season_record : string;
  wins : Z;
  losses : Z;
  top_scorer : string;
  top_scorer_goals : Z;
  top_assist : string;
  top_assist_count : Z;
  total_goals : Z;
  top3_shooting : list Shooting;
  count_ge_10_goals : Z
}.

Record Self : Type := {
  df : DataFrame;
  team_stats : TeamStats;
  ground_truth : GroundTruth
}.

(** [df[col].idxmax()]: the first row that holds the maximum. *)
Fixpoint idxmax_from (f : Row -> Z) (best : Row) (l : list Row) : Row :=
  match l with
  | [] => best
  | r :: l' => if (f best <? f r)%Z then idxmax_from f r l' else idxmax_from f best l'
  end.

(** An empty column has no maximum: pandas raises [ValueError]. *)
Definition idxmax (f : Row -> Z) (df : DataFrame) : result Row :=
  match df with
  | [] => Raise ValueError
  | r :: l => Ok (idxmax_from f r l)
  end.

(** The rows in the order of their goals, the most first. *)
Definition goals_desc (a b : Row) : Prop := (Goals b <= Goals a)%Z.

(** [df.sort_values('Goals', ascending=False)]. pandas sorts with numpy's
    quicksort, which keeps no order among rows of equal goals and is not
    the same in every build of numpy; what holds of each of them is taken:
    the result is the rows of the frame in the order of their goals, the
    most first. *)
Class SortValues : Type := {
  sort_values_Goals_desc : DataFrame -> DataFrame;
  sort_values_perm : forall df, Permutation (sort_values_Goals_desc df) df;
  sort_values_sorted : forall df, StronglySorted goals_desc (sort_values_Goals_desc df)
}.

(** A stable sort by goals, the most first: rows of equal goals keep the
    order of the frame, as [nlargest] keeps them. *)
Fixpoint insert_desc (r : Row) (sorted : list Row) : list Row :=
  match sorted with
  | [] => [r]
  | x :: xs => if (Goals r <? Goals x)%Z then x :: insert_desc r xs else r :: x :: xs
  end.

Definition stable_sort_Goals_desc (df : DataFrame) : DataFrame :=
  fold_right insert_desc [] df.

(** [np.where(Shots > 0, (Goals / Shots) * 100.0, 0.0)] for one row *)
Definition Shooting_Pct_calc (r : Row) : float :=
  if (0 <? Shots r)%Z
  then fmul (fdiv (float_of_Z (Goals r)) (float_of_Z (Shots r))) (float_of_decimal 1000 1)
  else float_of_decimal 0 1.

Definition _calculate_ground_truth `{SortValues} (df : DataFrame) (ts : TeamStats)
    : result GroundTruth :=
  bind (idxmax Goals df) (fun scorer =>
  bind (idxmax Assists df) (fun assister =>
  let top3 := firstn 3 (sort_values_Goals_desc df) in
  Ok {| total_games := ts_total_games ts;
        season_record := ts_season_record ts;
        wins := 16;
        losses := 6;
        top_scorer := Player scorer;
        top_scorer_goals := Goals scorer;
        top_assist := Player assister;
        top_assist_count := Assists assister;
        total_goals := col_sum Goals df;
        top3_shooting :=
          map (fun row => {| player := Player row;
                             shooting_pct := round1 (Shooting_Pct_calc row) |}) top3;
        count_ge_10_goals :=
          Z.of_nat (List.length (filter (fun r => (10 <=? Goals r)%Z) df)) |})).

(** [SyracuseDataValidator()]; the copy of the frame it saves to a file
    and the line it prints are left out. *)
Definition __init__ `{SortValues} : result Self :=
  let '(df, ts) := create_syracuse_2024_dataset in
  bind (_calculate_ground_truth df ts) (fun gt =>
  Ok {| df := df; team_stats := ts; ground_truth := gt |}).

(** [\b\d+(?:\.\d+)?\b] *)
Definition re_number : regex :=
  Cat WordB (Cat (Plus is_digit) (Cat (Opt (Cat (Cls is_dot) (Plus is_digit))) WordB)).

(** [\b\d+(?:\.\d+)?\s*%] *)
Definition re_percent : regex :=
  Cat WordB (Cat (Plus is_digit) (Cat (Opt (Cat (Cls is_dot) (Plus is_digit)))
    (Cat (Star is_space) (Cls is_percent)))).

(** [\b\d+\b] *)
Definition re_integer : regex := Cat WordB (Cat (Plus is_digit) WordB).

Definition _extract_numbers_and_percents (text : string) : list float * list float :=
  let nums := findall re_number text in
  let pcts := findall re_percent text in
  let pct_vals := map (fun p => float_of (strip (rstrip_by is_percent p))) pcts in
  let vals := map float_of nums in
  (vals, pct_vals).

Definition _extract_numbers_legacy (text : string) : result (list Z) :=
  let numbers := findall re_integer text in
  traverse int_of numbers.

Record Scores : Type := {
  specificity : Z;
  actionability : Z;
  plausibility : Z
}.

Definition action_terms : list string :=
  [ "focus"; "improve"; "increase"; "reduce"; "practice"; "drill"; "scheme";
    "set play"; "assign"; "rotate"; "substitute"; "optimize"; "work on";
    "emphasize"; "target"; "adjust"; "press"; "zone"; "man-to-man"; "transition" ].

(** [sum(1 for n in l if n in text)] *)
Definition count_in (l : list string) (text : string) : Z :=
  fold_left (fun acc n => if str_in n text then (acc + 1)%Z else acc) l 0%Z.

Definition _score_strategic_response (self : Self) (text : string) : Scores :=
  let text_l := lower text in
  let names :=
    map lower
        (filter (fun n => negb (String.eqb (strip n) "")) (map Player (df self))) in
  let mentions := count_in names text_l in
  let contains_numbers := search_digit text_l in
  let specificity :=
    (1 + Z.min 4 (mentions / 2) + (if contains_numbers then 1 else 0))%Z in
  let specificity := Z.min 5 specificity in
  let actionability := (1 + count_in action_terms text_l)%Z in
  let actionability := Z.max 1 (Z.min 5 actionability) in
  let top_scorer := lower (top_scorer (ground_truth self)) in
  let plausible :=
    if (str_in "top scorer" text_l || str_in "leading scorer" text_l)
       && negb (str_in top_scorer text_l)
    then false else true in
  let plausibility := if plausible then 5%Z else 2%Z in
  {| specificity := specificity;
     actionability := actionability;
     plausibility := plausibility |}.

(** The value of [result['expected_answer']]. *)
Inductive expected : Type :=
| ExpNone
| ExpStr (s : string)
| ExpInt (z : Z)
| ExpPlayerCount (who : string) (count : Z) (what : string)
| ExpTop3 (l : list Shooting).

(** An entry of [result['notes']], with the values its f-string holds. *)
Inductive note : Type :=
| NoteExpected (expected : string)
| NoteExpectedFoundNumbers (expected : Z) (found : list Z)
| NoteGoalCount
| NoteExpectedFound (expected : Z) (found : list Z)
| NoteMatched (hits : Z) (tol : float)
| NoteExpectedFoundVals (expected : Z) (found : list float)
| NoteScores (scores : Scores).

Record Result : Type := {
  question_type : string;
  timestamp : string;
  accuracy : bool;
  error_type : option string;
  notes : list note;
  expected_answer : expected;
  llm_answer : string
}.

Definition set_accuracy (b : bool) (r : Result) : Result :=
  {| question_type := question_type r; timestamp := timestamp r;
     accuracy := b; error_type := error_type r; notes := notes r;
     expected_answer := expected_answer r; llm_answer := llm_answer r |}.

Definition set_error_type (e : string) (r : Result) : Result :=
  {| question_type := question_type r; timestamp := timestamp r;
     accuracy := accuracy r; error_type := Some e; notes := notes r;
     expected_answer := expected_answer r; llm_answer := llm_answer r |}.

Definition append_note (n : note) (r : Result) : Result :=
  {| question_type := question_type r; timestamp := timestamp r;
     accuracy := accuracy r; error_type := error_type r; notes := notes r ++ [n];
     expected_answer := expected_answer r; llm_answer := llm_answer r |}.

Definition set_expected_answer (e : expected) (r : Result) : Result :=
  {| question_type := question_type r; timestamp := timestamp r;
     accuracy := accuracy r; error_type := error_type r; notes := notes r;
     expected_answer := e; llm_answer := llm_answer r |}.

Definition set_timestamp (t : string) (r : Result) : Result :=
  {| question_type := question_type r; timestamp := t;
     accuracy := accuracy r; error_type := error_type r; notes := notes r;
     expected_answer := expected_answer r; llm_answer := llm_answer r |}.

(** [x in l] for a list of ints *)
Definition int_in (x : Z) (l : list Z) : bool := existsb (Z.eqb x) l.

(** The truth value of a list. *)
Definition truthy {A : Type} (l : list A) : bool :=
  match l with
  | [] => false
  | _ :: _ => true
  end.

(** The literal [0.5] *)
Definition tol : float := float_of_decimal 5 1.

(** [abs(float(x) - float(pct)) <= tol] *)
Definition within_tol (pct x : float) : bool := fle (fabs (fsub x pct)) tol.

(** The loop over [expected] of the [shooting_analysis] branch. *)
Definition shooting_hits (expected : list (string * float)) (response_lower : string)
    (candidates : list float) : Z :=
  fold_left
    (fun hits '(name, pct) =>
       if str_in name response_lower then
         if existsb (within_tol pct) candidates then (hits + 1)%Z else hits
       else hits)
    expected 0%Z.

Definition validate_response (self : Self) (now : string)
    (llm_response question_type : string) : result Result :=
  let gt := ground_truth self in
  let result :=
    {| question_type := question_type;
       timestamp := now;
       accuracy := false;
       error_type := None;
       notes := [];
       expected_answer := ExpNone;
       llm_answer :=
         if (100 <? String.length llm_response)%nat
         then take 100 llm_response ++ "..."
         else llm_response |} in
  bind (_extract_numbers_legacy llm_response) (fun legacy_ints =>
  let response_lower := lower llm_response in
  if String.eqb question_type "season_record" then
    let expected := season_record gt in
    let result := set_expected_answer (ExpStr expected) result in
    if str_in expected llm_response
       || str_in (string_of_Z (wins gt) ++ "-" ++ string_of_Z (losses gt)) llm_response
    then Ok (set_accuracy true result)
    else Ok (append_note (NoteExpected expected)
               (set_error_type "incorrect_record" result))
  else if String.eqb question_type "total_games" then
    let expected := total_games gt in
    let result := set_expected_answer (ExpInt expected) result in
    if truthy legacy_ints && int_in expected legacy_ints
    then Ok (set_accuracy true result)
    else Ok (append_note (NoteExpectedFoundNumbers expected legacy_ints)
               (set_error_type "incorrect_calculation" result))
  else if String.eqb question_type "top_scorer" then
    let expected_player := top_scorer gt in
    let expected_goals := top_scorer_goals gt in
    let result :=
      set_expected_answer (ExpPlayerCount expected_player expected_goals "goals") result in
    if str_in (lower expected_player) response_lower then
      let result := set_accuracy true result in
      if int_in expected_goals legacy_ints
      then Ok (append_note NoteGoalCount result)
      else Ok result
    else Ok (append_note (NoteExpected expected_player)
               (set_error_type "incorrect_player" result))
  else if String.eqb question_type "team_goals" then
    let expected := total_goals gt in
    let result := set_expected_answer (ExpInt expected) result in
    if truthy legacy_ints && int_in expected legacy_ints
    then Ok (set_accuracy true result)
    else Ok (append_note (NoteExpectedFound expected legacy_ints)
               (set_error_type "incorrect_calculation" result))
  else if String.eqb question_type "top_assists" then
    let expected_player := top_assist gt in
    let expected_count := top_assist_count gt in
    let result :=
      set_expected_answer (ExpPlayerCount expected_player expected_count "assists") result in
    if str_in (lower expected_player) response_lower
    then Ok (set_accuracy true result)
    else Ok (append_note (NoteExpected expected_player)
               (set_error_type "incorrect_player" result))
  else if String.eqb question_type "shooting_analysis" then
    let expected :=
      map (fun d => (lower (player d), shooting_pct d)) (top3_shooting gt) in
    let result := set_expected_answer (ExpTop3 (top3_shooting gt)) result in
    let '(vals, pcts) := _extract_numbers_and_percents llm_response in
    let candidates := pcts ++ vals in
    let hits := shooting_hits expected response_lower candidates in
    let result := set_accuracy (2 <=? hits)%Z result in
    if negb (accuracy result)
    then Ok (append_note (NoteMatched hits tol)
               (set_error_type "incorrect_shooting_analysis" result))
    else Ok result
  else if String.eqb question_type "offensive_balance" then
    let count_ge_10 := count_ge_10_goals gt in
    let result := set_expected_answer (ExpInt count_ge_10) result in
    let '(vals, _) := _extract_numbers_and_percents llm_response in
    bind (any_raising (fun v => bind (round v) (fun i => Ok (i =? count_ge_10)%Z)) vals)
      (fun ok =>
         let result := set_accuracy ok result in
         if negb ok
         then Ok (append_note (NoteExpectedFoundVals count_ge_10 vals)
                    (set_error_type "incorrect_offensive_depth" result))
         else Ok result)
  else if String.eqb question_type "strategic_analysis" then
    let scores := _score_strategic_response self llm_response in
    let result :=
      set_expected_answer
        (ExpStr "Rubric-based (Specificity, Actionability, Plausibility >= 3)") result in
    let result := append_note (NoteScores scores) result in
    let result :=
      set_accuracy ((3 <=? specificity scores)%Z && (3 <=? actionability scores)%Z
                    && (3 <=? plausibility scores)%Z) result in
    if negb (accuracy result)
    then Ok (set_error_type "insufficient_rubric_scores" result)
    else Ok result
  else Ok result).

End Validator.

Import Validator.

(** ** The analyzer *)

Module Analyzer.

(** An entry of [ResultsAnalyzer.results]. *)
Record TestRecord : Type := {
  tr_timestamp : string;
  prompt_type : string;
  question : string;
  llm_response : string;
  validation : Result
}.

(** [add_result]: [self.results.append(...)] *)
Definition add_result (results : list TestRecord) (now : string)
    (prompt_type question llm_response : string) (validation_result : Result)
    : list TestRecord :=
  results ++ [ {| tr_timestamp := now; prompt_type := prompt_type;
                  question := question; llm_response := llm_response;
                  validation := validation_result |} ].

Record Stats : Type := {
  total : Z;
  accurate : Z
}.

(** A [dict], its keys in the order they were first set. *)
Definition dict (K V : Type) : Type := list (K * V).

Section Dict.
Context {K V : Type}.
Variable eqb : K -> K -> bool.

(** [k in d] *)
Fixpoint dict_mem (k : K) (d : dict K V) : bool :=
  match d with
  | [] => false
  | (k', _) :: d' => eqb k k' || dict_mem k d'
  end.

(** [d.get(k, default)] *)
Fixpoint dict_get (k : K) (default : V) (d : dict K V) : V :=
  match d with
  | [] => default
  | (k', v) :: d' => if eqb k k' then v else dict_get k default d'
  end.

(** [d[k] = v]: a present key keeps its place, a new key goes last. *)
Fixpoint dict_set (k : K) (v : V) (d : dict K V) : dict K V :=
  match d with
  | [] => [(k, v)]
  | (k', v') :: d' => if eqb k k' then (k', v) :: d' else (k', v') :: dict_set k v d'
  end.
End Dict.

Definition incr_total (st : Stats) : Stats :=
  {| total := total st + 1; accurate := accurate st |}.

Definition incr_accurate (st : Stats) : Stats :=
  {| total := total st; accurate := accurate st + 1 |}.

Definition no_stats : Stats := {| total := 0; accurate := 0 |}.

(** One turn of the loop that fills [type_stats]. *)
Definition type_stats_step (type_stats : dict string Stats) (result : TestRecord)
    : dict string Stats :=
  let ptype := prompt_type result in
  let type_stats :=
    if negb (dict_mem String.eqb ptype type_stats)
    then dict_set String.eqb ptype no_stats type_stats
    else type_stats in
  let type_stats :=
    dict_set String.eqb ptype
      (incr_total (dict_get String.eqb ptype no_stats type_stats)) type_stats in
  if accuracy (validation result)
  then dict_set String.eqb ptype
         (incr_accurate (dict_get String.eqb ptype no_stats type_stats)) type_stats
  else type_stats.

Definition type_stats_of (results : list TestRecord) : dict string Stats :=
  fold_left type_stats_step results [].

(** [(accurate / total) * 100 if total else 0.0] *)
Definition success_rate (stats : Stats) : result float :=
  if negb (total stats =? 0)%Z
  then bind (truediv (accurate stats) (total stats))
            (fun q => Ok (fmul q (float_of_Z 100)))
  else Ok (float_of_decimal 0 1).

(** A line of "Success Rates by Question Type". *)
Record RateLine : Type := {
  rl_ptype : string;
  rl_rate : float;
  rl_accurate : Z;
  rl_total : Z
}.

Fixpoint rate_lines (type_stats : dict string Stats) : result (list RateLine) :=
  match type_stats with
  | [] => Ok []
  | (ptype, stats) :: rest =>
      bind (success_rate stats) (fun rate =>
      bind (rate_lines rest) (fun lines =>
      Ok ({| rl_ptype := ptype; rl_rate := rate;
             rl_accurate := accurate stats; rl_total := total stats |} :: lines)))
  end.

Definition option_string_eqb (a b : option string) : bool :=
  match a, b with
  | None, None => true
  | Some x, Some y => String.eqb x y
  | _, _ => false
  end.

(** The table [error_types] of the failures, keyed by the value of
    [error_type]. *)
Definition error_types_of (inaccurate_results : list TestRecord)
    : dict (option string) Z :=
  fold_left
    (fun error_types result =>
       let error_type := error_type (validation result) in
       dict_set option_string_eqb error_type
         (dict_get option_string_eqb error_type 0%Z error_types + 1)%Z error_types)
    inaccurate_results [].

(** The lines of "Common Errors": [error.replace(...)] needs a string. *)
Fixpoint error_lines (error_types : dict (option string) Z)
    : result (list (string * Z)) :=
  match error_types with
  | [] => Ok []
  | (None, _) :: _ => Raise AttributeError
  | (Some error, count) :: rest =>
      bind (error_lines rest) (fun lines => Ok ((error, count) :: lines))
  end.

(** What [generate_summary_report] puts into its text, section by
    section; the wording and the date are left out. *)
Inductive Report : Type :=
| NoResults
| Summary (total_tests : Z) (rates : list RateLine)
    (successful_patterns : list string) (common_errors : list (string * Z)).

Definition generate_summary_report (results : list TestRecord) : result Report :=
  if negb (truthy results) then Ok NoResults
  else
    let type_stats := type_stats_of results in
    bind (rate_lines type_stats) (fun rates =>
    let accurate_results := filter (fun r => accuracy (validation r)) results in
    let inaccurate_results := filter (fun r => negb (accuracy (validation r))) results in
    let successes := map question (firstn 3 accurate_results) in
    bind (if truthy inaccurate_results
          then error_lines (error_types_of inaccurate_results)
          else Ok []) (fun errors =>
    Ok (Summary (Z.of_nat (List.length results)) rates successes errors))).

End Analyzer.

Import Analyzer.

(** ** The specification's vocabulary *)

Module Spec.

(** The ground truth of the 2024 data set, as [print_ground_truth] shows
    it. *)
Definition syracuse_ground_truth : GroundTruth :=
  {| total_games := 22;
     season_record := "16-6";
     wins := 16;
     losses := 6;
     top_scorer := "Meaghan Tyrrell";
     top_scorer_goals := 70;
     top_assist := "Emma Ward";
     top_assist_count := 37;
     total_goals := 319;
     top3_shooting :=
       [ {| player := "Meaghan Tyrrell"; shooting_pct := float_of "60.9" |};
         {| player := "Olivia Adamson"; shooting_pct := float_of "53.2" |};
         {| player := "Emma Ward"; shooting_pct := float_of "48.9" |} ];
     count_ge_10_goals := 9 |}.

Definition syracuse : Self :=
  {| df := fst create_syracuse_2024_dataset;
     team_stats := snd create_syracuse_2024_dataset;
     ground_truth := syracuse_ground_truth |}.

(** The eight tags of a question type. *)
Definition question_types : list string :=
  [ "season_record"; "total_games"; "top_scorer"; "team_goals"; "top_assists";
    "shooting_analysis"; "offensive_balance"; "strategic_analysis" ].

(** A run of digits, one at least. *)
Definition digits (s : string) : bool :=
  negb (String.eqb s "") && all_chars is_digit s.

(** The part of a decimal from its point on, if it has one: a decimal is
    [a ++ fraction b] for the digits [a] before the point and the digits
    [b] after it. *)
Definition fraction (b : option string) : string :=
  match b with
  | None => ""
  | Some b => "." ++ b
  end.

Definition fraction_ok (b : option string) : bool :=
  match b with
  | None => true
  | Some b => digits b
  end.

(** The strings a pattern matches, without the order of the search:
    [matches r prev x rest] when [r] matches [x] with [prev] before it and
    [rest] after it. *)
Inductive matches : regex -> option ascii -> string -> string -> Prop :=
| matches_cls (p : ascii -> bool) (prev : option ascii) (c : ascii) (rest : string) :
    p c = true -> matches (Cls p) prev (String c "") rest
| matches_wordb (prev : option ascii) (rest : string) :
    at_boundary prev rest = true -> matches WordB prev "" rest
| matches_cat (r1 r2 : regex) (prev : option ascii) (x y rest : string) :
    matches r1 prev x (y ++ rest) -> matches r2 (last_char prev x) y rest ->
    matches (Cat r1 r2) prev (x ++ y) rest
| matches_opt (r : regex) (prev : option ascii) (x rest : string) :
    matches r prev x rest -> matches (Opt r) prev x rest
| matches_skip (r : regex) (prev : option ascii) (rest : string) :
    matches (Opt r) prev "" rest
| matches_star (p : ascii -> bool) (prev : option ascii) (x rest : string) :
    all_chars p x = true -> matches (Star p) prev x rest.

(** A text of the form digits or digits.digits. *)
Definition decimal (t : string) : Prop :=
  exists a b, t = (a ++ fraction b)%string /\ digits a = true /\ fraction_ok b = true.

(** A pattern that can only start at a digit. *)
Definition needs_digit (r : regex) : Prop :=
  forall prev c s, is_digit c = false -> match_at r prev (String c s) = None.

(** [k in l] for a list of strings *)
Definition mem (k : string) (l : list string) : bool := existsb (String.eqb k) l.

(** A token ends at a character that is no word character, or at an end
    of the text. *)
Definition no_word_before (pre : string) : bool := negb (word_opt (last_char None pre)).
Definition no_word_after (post : string) : bool := negb (word_opt (head post)).

(** A hit of [shooting_analysis]: the name is in the response, whatever
    the case, and a candidate is within the tolerance of the percentage. *)
Definition is_hit (text : string) (candidates : list float) (d : Shooting) : bool :=
  str_in (lower (player d)) (lower text)
  && existsb (within_tol (shooting_pct d)) candidates.

Definition hits (gt : GroundTruth) (text : string) : Z :=
  let '(vals, pcts) := _extract_numbers_and_percents text in
  Z.of_nat (List.length (filter (is_hit text (pcts ++ vals)) (top3_shooting gt))).

(** The known names: the names of the roster that are not blank. *)
Definition known_names (self : Self) : list string :=
  filter (fun n => negb (String.eqb (strip n) "")) (map Player (df self)).

(** [s[n:]] *)
Fixpoint drop (n : nat) (s : string) : string :=
  match n, s with
  | S n', String _ s' => drop n' s'
  | _, _ => s
  end.

(** [needle] stands in [hay] as a whole token: an occurrence with a word
    boundary at both its ends. *)
Fixpoint token_in_from (prev : option ascii) (needle hay : string) : bool :=
  (startswith needle hay
   && at_boundary prev hay
   && at_boundary (last_char prev needle) (drop (String.length needle) hay))
  || match hay with
     | EmptyString => false
     | String c hay' => token_in_from (Some c) needle hay'
     end.

Definition token_in (needle hay : string) : bool := token_in_from None needle hay.

Definition mentions_by (found : string -> string -> bool) (names : list string)
    (text : string) : Z :=
  Z.of_nat (List.length (filter (fun n => found (lower n) (lower text)) names)).

(** The specificity axis as a formula of the number of names found. *)
Definition specificity_of (mentions : Z) (text : string) : Z :=
  Z.min 5 (1 + Z.min 4 (mentions / 2) + (if any_char is_digit text then 1 else 0)).

(** The specificity axis with whole-token matches of the distinct names. *)
Definition specificity_whole_token (self : Self) (text : string) : Z :=
  specificity_of
    (mentions_by token_in (nodup string_dec (known_names self)) text) text.

(** The specificity axis with substring matches. *)
Definition specificity_substring (self : Self) (text : string) : Z :=
  specificity_of (mentions_by str_in (known_names self) text) text.

(** The keys of a list in the order of their first occurrence. *)
Fixpoint first_seen (seen : list string) (l : list string) : list string :=
  match l with
  | [] => []
  | k :: l' =>
      if existsb (String.eqb k) seen then first_seen seen l'
      else k :: first_seen (k :: seen) l'
  end.

(** The number of records of a category that satisfy [p]. *)
Definition count_records (p : TestRecord -> bool) (ptype : string)
    (results : list TestRecord) : Z :=
  Z.of_nat (List.length
    (filter (fun r => String.eqb (prompt_type r) ptype && p r) results)).

(** The statistics of a category counted over the records. *)
Definition stats_of (l : list TestRecord) (k : string) : Stats :=
  {| total := count_records (fun _ => true) k l;
     accurate := count_records (fun r => accuracy (validation r)) k l |}.


(** Three records of two categories, as [add_result] builds them from the
    results of [validate_response]. *)
Definition example_result (qt answer : string) : Result :=
  match validate_response syracuse "2024-05-01T10:00:00" answer qt with
  | Ok r => r
  | Raise _ =>
      {| question_type := qt; timestamp := ""; accuracy := false;
         error_type := None; notes := []; expected_answer := ExpNone;
         llm_answer := answer |}
  end.

Definition example_records : list TestRecord :=
  let answers :=
    [ ("top_scorer", "Meaghan Tyrrell led with 70 goals");
      ("season_record", "They finished 16-6");
      ("top_scorer", "Olivia Adamson led the team with 58 goals") ] in
  fold_left
    (fun results '(qt, answer) =>
       add_result results "2024-05-01T10:00:01" qt qt answer (example_result qt answer))
    answers [].

(** The records of a result, the timestamp apart. *)
Definition erase_timestamp (r : result Result) : result Result :=
  match r with
  | Ok r => Ok (set_timestamp "" r)
  | Raise e => Raise e
  end.

(** A float that is a number, not an infinity or a NaN. *)
Definition finite (x : float) : bool :=
  match x with
  | S754_zero _ | S754_finite _ _ _ => true
  | S754_infinity _ | S754_nan => false
  end.

(** [int(round(v)) == count] *)
Definition rounds_to (count : Z) (v : float) : bool :=
  match round v with
  | Ok i => (i =? count)%Z
  | Raise _ => false
  end.

(** A one followed by 309 zeros: a decimal beyond the largest float. *)
Definition huge : string :=
  String "1" (String.concat "" (repeat "0" 309)).

(** A run of 4301 digits: one more than [int] reads. *)
Definition long_digits : string := String.concat "" (repeat "1" 4301).

(** No run of digits of the text has more digits than [int] reads. *)
Definition short_ints (text : string) : bool :=
  forallb (fun t => (String.length t <=? max_str_digits)%nat) (findall re_integer text).

(** The integers of the runs of digits of a text: what the legacy
    extractor returns when it returns. *)
Definition legacy_values (text : string) : list Z :=
  map digits_value (findall re_integer text).

(** Each row of [top] has more goals than every row after it in
    [top ++ rest]. *)
Fixpoint leads (top rest : list Row) : bool :=
  match top with
  | [] => true
  | a :: t => forallb (fun b => (Goals b <? Goals a)%Z) (t ++ rest) && leads t rest
  end.

End Spec.

Import Spec.

(** ** The rest of the program *)

Module Rest.

(** The column [Shooting_Pct] that [create_syracuse_2024_dataset] derives,
    for one row: [np.where(Shots > 0, (Goals / Shots) * 100, 0.0)]. *)
Definition Shooting_Pct (r : Row) : float :=
  if (0 <? Shots r)%Z
  then fmul (fdiv (float_of_Z (Goals r)) (float_of_Z (Shots r))) (float_of_Z 100)
  else float_of_decimal 0 1.

(** [idxmax] of a column of floats that holds no NaN: the first row that
    holds the maximum. *)
Fixpoint fidxmax_from (f : Row -> float) (best : Row) (l : list Row) : Row :=
  match l with
  | [] => best
  | r :: l' =>
      if SFltb (f best) (f r) then fidxmax_from f r l' else fidxmax_from f best l'
  end.

(** The entries of [ground_truth] that [print_ground_truth] shows and the
    policies do not read; [best_shooter] and [best_shooting_pct] are set
    only when a row qualifies. *)
Record MoreTruth : Type := {
  top_points : string;
  top_points_count : Z;
  total_assists : Z;
  total_points : Z;
  best_shooter : option (string * float);
  active_scorers : Z
}.

Definition _calculate_ground_truth_rest (df : DataFrame) : result MoreTruth :=
  bind (idxmax Points df) (fun pointer =>
  let qualified_shooters := filter (fun r => (10 <=? Shots r)%Z) df in
  let best :=
    match qualified_shooters with
    | [] => None
    | r :: l =>
        let row := fidxmax_from Shooting_Pct r l in
        Some (Player row, Shooting_Pct row)
    end in
  Ok {| top_points := Player pointer;
        top_points_count := Points pointer;
        total_assists := col_sum Assists df;
        total_points := col_sum Points df;
        best_shooter := best;
        active_scorers :=
          Z.of_nat (List.length (filter (fun r => (5 <=? Goals r)%Z) df)) |}).

(** The line feed. *)
Definition nl : string := String (ascii_of_nat 10) "".

(** [f"{x:.1f}"]: the decimal with one digit after the point nearest to
    [x], ties to even. *)
Definition format_1f (x : float) : string :=
  match x with
  | S754_zero s => ((if s then "-" else "") ++ "0.0")%string
  | S754_infinity s => ((if s then "-" else "") ++ "inf")%string
  | S754_nan => "nan"
  | S754_finite s m e =>
      let n := scaled_half_even (Zpos m) e 1 in
      ((if s then "-" else "")
       ++ string_of_Z (n / 10) ++ "." ++ string_of_Z (n mod 10))%string
  end.

(** The line of one player in the context. [iterrows] hands the cells of
    a row over as Python ints, whose quotient is taken here as the
    quotient of their floats: the two are one for cells that a float
    holds exactly, the frames of [exact_frame] below. *)
Definition player_line (player : Row) : string :=
  let shooting_pct :=
    if (0 <? Shots player)%Z
    then fmul (fdiv (float_of_Z (Goals player)) (float_of_Z (Shots player)))
              (float_of_decimal 1000 1)
    else float_of_decimal 0 1 in
  ("- " ++ Player player ++ ": " ++ string_of_Z (Goals player) ++ "G, "
   ++ string_of_Z (Assists player) ++ "A, " ++ string_of_Z (Points player) ++ "Pts, "
   ++ string_of_Z (Shots player) ++ " shots (" ++ format_1f shooting_pct ++ "%)" ++ nl)%string.

(** What the context holds before the lines of the players. *)
Definition context_head (ts : TeamStats) : string :=
  (nl ++ "Syracuse Women's Lacrosse 2024 Season Statistics:" ++ nl
   ++ nl
   ++ "TEAM RECORD: " ++ ts_season_record ts ++ " ("
   ++ string_of_Z (ts_total_games ts) ++ " games)" ++ nl
   ++ "- Home: " ++ ts_home_record ts ++ nl
   ++ "- Away: " ++ ts_away_record ts ++ "  " ++ nl
   ++ "- Conference: " ++ ts_conference_record ts ++ nl
   ++ nl
   ++ "TOP PERFORMERS:" ++ nl)%string.

(** [df.nlargest(10, 'Goals')]: the ten rows with the most goals, rows of
    equal goals in the order of the frame ([keep='first']). For a frame
    of ten rows or fewer pandas takes another way and returns
    [sort_values(ascending=False).head(10)], in which rows of equal goals
    have the order that [sort_values] gives them. *)
Definition nlargest_10_Goals `{SortValues} (df : DataFrame) : DataFrame :=
  if (List.length df <=? 10)%nat
  then firstn 10 (sort_values_Goals_desc df)
  else firstn 10 (stable_sort_Goals_desc df).

Definition get_testing_context `{SortValues} (self : Self) : string :=
  let context := context_head (team_stats self) in
  let top_scorers := nlargest_10_Goals (df self) in
  let context :=
    fold_left
      (fun context player =>
         if (0 <? Goals player)%Z then (context ++ player_line player)%string
         else context)
      top_scorers context in
  let team_goals := col_sum Goals (df self) in
  let team_assists := col_sum Assists (df self) in
  (context ++ nl ++ "TEAM TOTALS: " ++ string_of_Z team_goals ++ " Goals, "
   ++ string_of_Z team_assists ++ " Assists")%string.

(** A test prompt. *)
Record Prompt : Type := {
  p_type : string;
  p_question_type : string;
  p_prompt : string
}.

Definition generate_syracuse_test_prompts `{SortValues} (validator : Self)
    : list Prompt :=
  let context := get_testing_context validator in
  [ {| p_type := "basic"; p_question_type := "season_record";
       p_prompt :=
         (context ++ nl ++ nl
          ++ "Question: What was Syracuse Women's Lacrosse team record for the 2024 season?")%string |};
    {| p_type := "basic"; p_question_type := "total_games";
       p_prompt :=
         (context ++ nl ++ nl
          ++ "Question: How many total games did Syracuse play in the 2024 season?")%string |};
    {| p_type := "basic"; p_question_type := "top_scorer";
       p_prompt :=
         (context ++ nl ++ nl
          ++ "Question: Who was Syracuse's leading goal scorer in 2024 and how many goals did they score?")%string |};
    {| p_type := "basic"; p_question_type := "team_goals";
       p_prompt :=
         (context ++ nl ++ nl
          ++ "Question: How many total goals did the Syracuse team score in 2024?")%string |};
    {| p_type := "basic"; p_question_type := "top_assists";
       p_prompt :=
         (context ++ nl ++ nl
          ++ "Question: Who led Syracuse in assists in 2024?")%string |};
    {| p_type := "intermediate"; p_question_type := "shooting_analysis";
       p_prompt :=
         (context ++ nl ++ nl
          ++ "Question: Calculate the shooting percentage for Syracuse's top 3 goal scorers. Who was most efficient?")%string |};
    {| p_type := "intermediate"; p_question_type := "offensive_balance";
       p_prompt :=
         (context ++ nl ++ nl
          ++ "Question: Analyze Syracuse's offensive balance. How many players scored at least 10 goals? What does this suggest about their offensive depth?")%string |};
    {| p_type := "complex"; p_question_type := "strategic_analysis";
       p_prompt :=
         (context ++ nl ++ nl
          ++ "As a coach analyzing Syracuse's 2024 season (16-6 record), answer:" ++ nl
          ++ "1. What were the team's main offensive strengths?" ++ nl
          ++ "2. If you wanted to improve to 18-4 next season, what specific areas would you focus on?" ++ nl
          ++ "3. Which player had the biggest impact beyond just goals scored?")%string |} ].

(** [validate_llm_response] without what it prints: the two lines read
    from the terminal are stripped, the response is validated and the
    result is added under the question type as category and as question. *)
Definition validate_llm_response (validator : Self) (analyzer : list TestRecord)
    (now_validate now_add : string) (input_type input_response : string)
    : result (list TestRecord) :=
  let question_type := strip input_type in
  let llm_response := strip input_response in
  bind (validate_response validator now_validate llm_response question_type)
    (fun result =>
       Ok (add_result analyzer now_add question_type question_type llm_response result)).

End Rest.

Import Rest.

(** ** More vocabulary *)

Module Facts.

(** The error kind of a question type. *)
Definition error_kind_of (qt : string) : string :=
  if String.eqb qt "season_record" then "incorrect_record"
  else if String.eqb qt "total_games" then "incorrect_calculation"
  else if String.eqb qt "top_scorer" then "incorrect_player"
  else if String.eqb qt "team_goals" then "incorrect_calculation"
  else if String.eqb qt "top_assists" then "incorrect_player"
  else if String.eqb qt "shooting_analysis" then "incorrect_shooting_analysis"
  else if String.eqb qt "offensive_balance" then "incorrect_offensive_depth"
  else "insufficient_rubric_scores".

(** A float that is zero, a positive number or the positive infinity. *)
Definition unsigned_float (x : float) : bool :=
  match x with
  | S754_zero false | S754_finite false _ _ | S754_infinity false => true
  | _ => false
  end.


Definition plausible (self : Self) (text : string) : bool :=
  negb (str_in "top scorer" (lower text) || str_in "leading scorer" (lower text))
  || str_in (lower (top_scorer (ground_truth self))) (lower text).


(** The sum of a field over the values of a [dict]. *)
Definition sum_by {K V : Type} (f : V -> Z) (d : dict K V) : Z :=
  fold_right (fun kv acc => (f (snd kv) + acc)%Z) 0%Z d.

(** A failure without an error kind. *)
Definition unexplained (r : TestRecord) : bool :=
  negb (accuracy (validation r))
  && match error_type (validation r) with None => true | Some _ => false end.

(** The failures among the records, the number of them with a given
    error kind, and the sum of a list of counts. *)
Definition failures (results : list TestRecord) : list TestRecord :=
  filter (fun r => negb (accuracy (validation r))) results.

Definition successes_of (results : list TestRecord) : list TestRecord :=
  filter (fun r => accuracy (validation r)) results.

Definition failures_of_kind (e : option string) (results : list TestRecord) : Z :=
  Z.of_nat (List.length
    (filter (fun r => option_string_eqb (error_type (validation r)) e)
            (failures results))).

Definition sumZ (l : list Z) : Z := fold_right Z.add 0%Z l.

(** A pattern whose classes do not tell a letter from its lower case. *)
Fixpoint case_blind (r : regex) : Prop :=
  match r with
  | Cls p => forall c, p (lower_char c) = p c
  | WordB => True
  | Cat r1 r2 => case_blind r1 /\ case_blind r2
  | Opt r1 => case_blind r1
  | Star p => forall c, p (lower_char c) = p c
  end.

(** A result without its copy of the response. *)
Definition erase_answer (r : result Result) : result Result :=
  match r with
  | Ok r =>
      Ok {| question_type := question_type r; timestamp := timestamp r;
            accuracy := accuracy r; error_type := error_type r; notes := notes r;
            expected_answer := expected_answer r; llm_answer := "" |}
  | Raise e => Raise e
  end.


(** The entry of [top3_shooting] for a row. *)
Definition shooting_of (row : Row) : Shooting :=
  {| player := Player row; shooting_pct := round1 (Shooting_Pct_calc row) |}.

(** The lines of a list of players in the context. *)
Definition player_lines (l : list Row) : string :=
  fold_right (fun p acc => (player_line p ++ acc)%string) EmptyString l.




(** The entries of the ground truth of the 2024 data set that are only
    shown. *)
Definition syracuse_more : MoreTruth :=
  match _calculate_ground_truth_rest (df syracuse) with
  | Ok more => more
  | Raise _ =>
      {| top_points := ""; top_points_count := 0; total_assists := 0;
         total_points := 0; best_shooter := None; active_scorers := 0 |}
  end.

(** An int64; a frame of int64 cells; and a frame of cells that a float
    holds exactly, for which the quotient of two Python ints and the
    quotient of their floats are one. *)
Definition int64 (z : Z) : Prop := (- 2 ^ 63 <= z < 2 ^ 63)%Z.

Definition cells (p : Z -> Prop) (df : DataFrame) : Prop :=
  Forall (fun r => p (Jersey r) /\ p (Goals r) /\ p (Assists r) /\ p (Points r)
                   /\ p (Shots r) /\ p (Games_Played r)) df.

Definition int64_frame (df : DataFrame) : Prop := cells int64 df.

Definition exact_frame (df : DataFrame) : Prop :=
  cells (fun z => (- 2 ^ 53 < z < 2 ^ 53)%Z) df.


End Facts.

Import Facts.

(** ** Proof steps *)

(** The branch of a question type given by its text. *)
Ltac dispatch :=
  repeat match goal with
         | |- context [String.eqb ?a ?b] =>
             let v := eval vm_compute in (String.eqb a b) in
             match v with
             | true => change (String.eqb a b) with true
             | false => change (String.eqb a b) with false
             end
         end;
  cbv iota.

Ltac settle :=
  cbn [bind accuracy error_type expected_answer question_type timestamp llm_answer
       set_accuracy set_expected_answer append_note set_error_type negb].

Ltac branches :=
  repeat (settle;
          match goal with
          | |- context [if negb ?b then _ else _] => destruct b
          | |- context [if ?b then _ else _] => destruct b
          end);
  settle.

(** * Properties *)

(** ** Characters *)

Lemma digit_is_word (c : ascii) : is_digit c = true -> is_word c = true.
Proof. unfold is_word. intros ->. reflexivity. Qed.

Lemma digit_classes (c : ascii) :
  is_digit c = true -> is_space c = false /\ is_percent c = false /\ is_dot c = false.
Proof.
  destruct c as [[] [] [] [] [] [] [] []]; vm_compute; intros H;
    try discriminate H; repeat split.
Qed.

Lemma space_not_word (c : ascii) : is_space c = true -> is_word c = false.
Proof.
  destruct c as [[] [] [] [] [] [] [] []]; vm_compute; intros H;
    try discriminate H; reflexivity.
Qed.

Lemma not_word_not_digit (c : ascii) : is_word c = false -> is_digit c = false.
Proof.
  intros H. destruct (is_digit c) eqn:E; [|reflexivity].
  rewrite (digit_is_word c E) in H. discriminate H.
Qed.

(** ** Strings *)

Lemma append_assoc (x y z : string) : ((x ++ y) ++ z = x ++ (y ++ z))%string.
Proof. induction x as [|c x IH]; [reflexivity|]. cbn. rewrite IH. reflexivity. Qed.

Lemma length_append (x y : string) :
  String.length (x ++ y) = (String.length x + String.length y)%nat.
Proof. induction x as [|c x IH]; [reflexivity|]. cbn. rewrite IH. reflexivity. Qed.

Lemma take_append (x y : string) : take (String.length x) (x ++ y) = x.
Proof. induction x as [|c x IH]; [destruct y; reflexivity|]. cbn. rewrite IH. reflexivity. Qed.

Lemma last_char_append (prev : option ascii) (x y : string) :
  last_char prev (x ++ y) = last_char (last_char prev x) y.
Proof. revert prev. induction x as [|c x IH]; intros prev; [reflexivity|]. apply IH. Qed.

Lemma digits_inv (a : string) :
  digits a = true ->
  exists c a', a = String c a' /\ is_digit c = true /\ all_chars is_digit a' = true.
Proof.
  unfold digits. destruct a as [|c a']; [intros H; discriminate H|].
  cbn. intros H. apply andb_true_iff in H. exists c, a'. tauto.
Qed.

Lemma digits_last (a : string) (prev : option ascii) :
  digits a = true ->
  exists c, last_char prev a = Some c /\ is_digit c = true.
Proof.
  intros H. destruct (digits_inv a H) as [c [a' [-> [Hc Ha]]]]. clear H.
  cbn. revert c Hc. induction a' as [|d a' IH]; intros c Hc.
  - exists c. split; [reflexivity|exact Hc].
  - cbn in Ha. apply andb_true_iff in Ha. destruct Ha as [Hd Ha].
    cbn. apply IH; assumption.
Qed.

(** ** Floats *)

Lemma digits2_size (p : positive) : digits2_pos p = Pos.size p.
Proof. induction p as [p IH|p IH|]; cbn; rewrite ?IH; reflexivity. Qed.

Lemma Zdigits2_nonneg (m : Z) : (0 <= Zdigits2 m)%Z.
Proof. destruct m; cbn; lia. Qed.

(** A mantissa below [2^k] has [k] digits at most. *)
Lemma Zdigits2_le (m k : Z) :
  (0 <= k)%Z -> (0 <= m < 2 ^ k)%Z -> (Zdigits2 m <= k)%Z.
Proof.
  intros Hk [H0 Hm]. destruct m as [|p|p]; [cbn; lia| |lia].
  cbn [Zdigits2]. rewrite digits2_size.
  pose proof (Pos.size_le p) as Hs.
  apply Pos2Z.pos_le_pos in Hs. rewrite Pos2Z.inj_pow in Hs.
  change (Z.pos p~0) with (2 * Z.pos p)%Z in Hs.
  assert (Hlt : (2 ^ Z.pos (Pos.size p) < 2 ^ (k + 1))%Z).
  { rewrite Z.pow_add_r, Z.pow_1_r by lia. lia. }
  apply Z.pow_lt_mono_r_iff in Hlt; lia.
Qed.

Lemma Zdigits2_gt (m : Z) : (0 <= m)%Z -> (m < 2 ^ Zdigits2 m)%Z.
Proof.
  intros H. destruct m as [|p|p]; [cbn; lia| |lia].
  cbn [Zdigits2]. rewrite digits2_size.
  pose proof (Pos.size_gt p) as Hs.
  apply Pos2Z.pos_lt_pos in Hs. rewrite Pos2Z.inj_pow in Hs. exact Hs.
Qed.

Lemma Zdigits2_succ (m : Z) : (0 <= m)%Z -> (Zdigits2 (m + 1) <= Zdigits2 m + 1)%Z.
Proof.
  intros H. pose proof (Zdigits2_gt m H) as Hm. pose proof (Zdigits2_nonneg m) as Hd.
  apply Zdigits2_le; [lia|]. rewrite Z.pow_add_r, Z.pow_1_r by lia. lia.
Qed.

(** One shift to the right halves the mantissa. *)
Lemma shr_1_digits (mrs : shr_record) :
  (0 <= shr_m mrs)%Z ->
  (0 <= shr_m (shr_1 mrs))%Z /\
  (Zdigits2 (shr_m (shr_1 mrs)) <= Z.max 0 (Zdigits2 (shr_m mrs) - 1))%Z.
Proof.
  destruct mrs as [m r s]. cbn [shr_m]. intros H.
  destruct m as [|[p|p|]|p]; cbn [shr_1 shr_m Zdigits2 digits2_pos];
    rewrite ?Pos2Z.inj_succ; lia.
Qed.

Lemma iter_shr_1_digits (p : positive) :
  forall mrs : shr_record,
    (0 <= shr_m mrs)%Z ->
    (0 <= shr_m (iter_pos shr_1 p mrs))%Z /\
    (Zdigits2 (shr_m (iter_pos shr_1 p mrs))
     <= Z.max 0 (Zdigits2 (shr_m mrs) - Z.pos p))%Z.
Proof.
  induction p as [p IH|p IH|]; intros mrs H; cbn [iter_pos].
  - destruct (shr_1_digits mrs H) as [H1 D1].
    destruct (IH _ H1) as [H2 D2]. destruct (IH _ H2) as [H3 D3].
    split; [exact H3|]. lia.
  - destruct (IH _ H) as [H2 D2]. destruct (IH _ H2) as [H3 D3].
    split; [exact H3|]. lia.
  - apply shr_1_digits, H.
Qed.

Lemma shr_record_of_loc_m (m : Z) (l : location) : shr_m (shr_record_of_loc m l) = m.
Proof. destruct l as [|[]]; reflexivity. Qed.

Lemma round_nearest_even_bounds (m : Z) (l : location) :
  (0 <= m)%Z ->
  (0 <= round_nearest_even m l)%Z /\
  (Zdigits2 (round_nearest_even m l) <= Zdigits2 m + 1)%Z.
Proof.
  intros H. pose proof (Zdigits2_succ m H) as Hs.
  destruct l as [|[]]; cbn [round_nearest_even]; try destruct (Z.even m); lia.
Qed.

(** The mantissa and the exponent after the shift that [fexp] asks for. *)
Lemma shr_fexp_bounds (m e : Z) (l : location) :
  (0 <= m)%Z ->
  let '(mrs, e') := shr_fexp prec emax m e l in
  (0 <= shr_m mrs)%Z /\ (e <= e')%Z /\
  (e' = e \/ e' = fexp prec emax (Zdigits2 m + e))%Z /\
  (Zdigits2 (shr_m mrs) + e' <= Z.max e' (Zdigits2 m + e))%Z.
Proof.
  intros H. unfold shr_fexp, shr.
  destruct (fexp prec emax (Zdigits2 m + e) - e)%Z as [|p|p] eqn:E.
  - rewrite shr_record_of_loc_m. lia.
  - destruct (iter_shr_1_digits p (shr_record_of_loc m l)) as [H1 D1].
    { rewrite shr_record_of_loc_m. exact H. }
    rewrite shr_record_of_loc_m in D1. lia.
  - rewrite shr_record_of_loc_m. lia.
Qed.

(** A mantissa and an exponent that stand for a number below 2 round to a
    float, not to an infinity. *)
Lemma binary_round_aux_small (sx : bool) (m e : Z) (l : location) :
  (0 <= m)%Z -> (e <= 0)%Z -> (Zdigits2 m + e <= 1)%Z ->
  finite (binary_round_aux prec emax sx m e l) = true.
Proof.
  intros Hm He Hd. unfold binary_round_aux.
  pose proof (shr_fexp_bounds m e l Hm) as B1.
  destruct (shr_fexp prec emax m e l) as [mrs1 e1].
  destruct B1 as [H1 [Le1 [E1 D1]]].
  destruct (round_nearest_even_bounds (shr_m mrs1) (loc_of_shr_record mrs1) H1)
    as [H2 D2].
  pose proof (shr_fexp_bounds (round_nearest_even (shr_m mrs1) (loc_of_shr_record mrs1))
                e1 loc_Exact H2) as B2.
  destruct (shr_fexp prec emax _ e1 loc_Exact) as [mrs2 e2].
  destruct B2 as [H3 [Le2 [E2 D3]]].
  assert (He2 : (e2 <= emax - prec)%Z).
  { unfold fexp, SpecFloat.emin, prec, emax in *. lia. }
  destruct (shr_m mrs2) as [|p|p]; [reflexivity| |lia].
  apply Z.leb_le in He2. rewrite He2. reflexivity.
Qed.

(** The quotient of two counts, the first the smaller, is a float. *)
Lemma truediv_ok (a b : Z) :
  (0 <= a <= b)%Z -> (0 < b)%Z -> exists q, truediv a b = Ok q.
Proof.
  intros Ha Hb. unfold truediv.
  assert (Eb : (b =? 0)%Z = false) by (apply Z.eqb_neq; lia). rewrite Eb.
  rewrite !Z.abs_eq by lia.
  unfold SFdiv_core_binary.
  set (e' := Z.min (fexp prec emax (Zdigits2 a + 0 - (Zdigits2 b + 0))) (0 - 0)).
  assert (He' : (e' <= 0)%Z) by (unfold e'; lia).
  set (m' := match (0 - 0 - e')%Z with
             | Z0 => a
             | Z.pos _ => Z.shiftl a (0 - 0 - e')
             | Z.neg _ => 0%Z
             end).
  assert (Hm' : (0 <= m' <= b * 2 ^ (- e'))%Z).
  { unfold m'. destruct (0 - 0 - e')%Z as [|p|p] eqn:E.
    - replace (- e')%Z with 0%Z by lia. cbn. lia.
    - rewrite Z.shiftl_mul_pow2 by lia.
      replace (- e')%Z with (Z.pos p) by lia.
      assert (0 < 2 ^ Z.pos p)%Z by (apply Z.pow_pos_nonneg; lia). nia.
    - lia. }
  destruct (Z.div_eucl m' b) as [q r] eqn:E.
  assert (Hq : q = (m' / b)%Z) by (unfold Z.div; rewrite E; reflexivity).
  assert (Hq0 : (0 <= q <= 2 ^ (- e'))%Z).
  { subst q. split; [apply Z.div_pos; lia|].
    apply Z.div_le_upper_bound; lia. }
  assert (Hd : (Zdigits2 q + e' <= 1)%Z).
  { assert (Zdigits2 q <= - e' + 1)%Z; [|lia].
    apply Zdigits2_le; [lia|]. rewrite Z.pow_add_r, Z.pow_1_r by lia.
    assert (0 < 2 ^ (- e'))%Z by (apply Z.pow_pos_nonneg; lia). lia. }
  pose proof (binary_round_aux_small (xorb (a <? 0)%Z (b <? 0)%Z) q e'
                (new_location b r) (proj1 Hq0) He' Hd) as F.
  destruct (binary_round_aux prec emax _ q e' (new_location b r)) as [s|s| |s m e];
    try discriminate F; eexists; reflexivity.
Qed.
(** ** The search of a pattern *)

(** A greedy repetition runs to the end of a stretch of its class when the
    rest of the pattern matches there. *)
Lemma star_k_greedy (p : ascii -> bool) (k : cont) (d rest : string) :
  forall (n : nat) (prev : option ascii) (e : nat),
    all_chars p d = true ->
    match head rest with Some c => p c = false | None => True end ->
    k (n + String.length d)%nat (last_char prev d) rest = Some e ->
    star_k p k n prev (d ++ rest) = Some e.
Proof.
  induction d as [|c d IH]; intros n prev e Hd Hr Hk.
  - cbn in Hk. rewrite Nat.add_0_r in Hk. cbn [append].
    destruct rest as [|c r]; cbn; [exact Hk|].
    cbn in Hr. rewrite Hr. exact Hk.
  - cbn in Hd. apply andb_true_iff in Hd. destruct Hd as [Hc Hd].
    cbn. rewrite Hc.
    rewrite (IH (S n) (Some c) e Hd Hr); [reflexivity|].
    cbn in Hk. rewrite Nat.add_succ_r in Hk. exact Hk.
Qed.

(** The search finds only what the pattern matches. *)
Lemma star_k_sound (p : ascii -> bool) (k : cont) (s : string) :
  forall (n : nat) (prev : option ascii) (e : nat),
    star_k p k n prev s = Some e ->
    exists x rest,
      s = (x ++ rest)%string /\ all_chars p x = true /\
      k (n + String.length x)%nat (last_char prev x) rest = Some e.
Proof.
  induction s as [|c s IH]; intros n prev e H.
  - exists EmptyString, EmptyString. cbn in H. cbn. rewrite Nat.add_0_r. tauto.
  - cbn in H. destruct (p c) eqn:Hc.
    + destruct (star_k p k (S n) (Some c) s) as [e'|] eqn:E.
      * injection H as <-. destruct (IH _ _ _ E) as [x [rest [-> [Hx Hk]]]].
        exists (String c x), rest. cbn. rewrite Hc, Hx, Nat.add_succ_r. tauto.
      * exists EmptyString, (String c s). cbn. rewrite Nat.add_0_r. tauto.
    + exists EmptyString, (String c s). cbn. rewrite Nat.add_0_r. tauto.
Qed.

Lemma match_k_sound (r : regex) :
  forall (k : cont) (n : nat) (prev : option ascii) (s : string) (e : nat),
    match_k r k n prev s = Some e ->
    exists x rest,
      s = (x ++ rest)%string /\ matches r prev x rest /\
      k (n + String.length x)%nat (last_char prev x) rest = Some e.
Proof.
  induction r as [p| |r1 IH1 r2 IH2|r IH|p]; intros k n prev s e H; cbn [match_k] in H.
  - destruct s as [|c s]; [discriminate H|].
    destruct (p c) eqn:Hc; [|discriminate H].
    exists (String c ""), s. cbn. rewrite Nat.add_1_r.
    split; [reflexivity|]. split; [constructor; exact Hc|exact H].
  - destruct (at_boundary prev s) eqn:Hb; [|discriminate H].
    exists EmptyString, s. cbn. rewrite Nat.add_0_r.
    split; [reflexivity|]. split; [constructor; exact Hb|exact H].
  - destruct (IH1 _ _ _ _ _ H) as [x [rest1 [-> [M1 H1]]]].
    destruct (IH2 _ _ _ _ _ H1) as [y [rest [-> [M2 H2]]]].
    exists (x ++ y)%string, rest.
    rewrite append_assoc, last_char_append, length_append, Nat.add_assoc.
    split; [reflexivity|]. split; [constructor; assumption|exact H2].
  - destruct (match_k r k n prev s) as [e'|] eqn:E.
    + injection H as <-. destruct (IH _ _ _ _ _ E) as [x [rest [-> [M Hk]]]].
      exists x, rest. split; [reflexivity|]. split; [apply matches_opt; exact M|exact Hk].
    + exists EmptyString, s. cbn. rewrite Nat.add_0_r.
      split; [reflexivity|]. split; [apply matches_skip|exact H].
  - destruct (star_k_sound p k s n prev e H) as [x [rest [-> [Hx Hk]]]].
    exists x, rest. split; [reflexivity|]. split; [constructor; exact Hx|exact Hk].
Qed.

Lemma match_at_sound (r : regex) (prev : option ascii) (s : string) (m : nat) :
  match_at r prev s = Some m ->
  exists x rest,
    s = (x ++ rest)%string /\ matches r prev x rest /\ take m s = x.
Proof.
  unfold match_at. intros H.
  destruct (match_k_sound r _ _ _ _ _ H) as [x [rest [-> [M Hk]]]].
  injection Hk as <-. exists x, rest. cbn. rewrite take_append. tauto.
Qed.

(** Every string [findall] returns is matched by the pattern. *)
Lemma scan_sound (r : regex) (s : string) :
  forall (prev : option ascii) (skip : nat),
    Forall (fun t => exists prev' rest, matches r prev' t rest) (scan r prev s skip).
Proof.
  induction s as [|c s IH]; intros prev skip; cbn [scan]; [constructor|].
  destruct skip as [|skip]; [|apply IH].
  destruct (match_at r prev (String c s)) as [m|] eqn:E; [|apply IH].
  constructor; [|apply IH].
  destruct (match_at_sound r prev _ m E) as [x [rest [_ [M ->]]]].
  exists prev, rest. exact M.
Qed.

Lemma matches_cls_inv (p : ascii -> bool) (prev : option ascii) (x rest : string) :
  matches (Cls p) prev x rest -> exists c, x = String c "" /\ p c = true.
Proof. intros M. inversion M; subst. eauto. Qed.

Lemma matches_wordb_inv (prev : option ascii) (x rest : string) :
  matches WordB prev x rest -> x = EmptyString.
Proof. intros M. inversion M; subst. reflexivity. Qed.

Lemma matches_cat_inv (r1 r2 : regex) (prev : option ascii) (x rest : string) :
  matches (Cat r1 r2) prev x rest ->
  exists x1 x2,
    x = (x1 ++ x2)%string /\ matches r1 prev x1 (x2 ++ rest) /\
    matches r2 (last_char prev x1) x2 rest.
Proof. intros M. inversion M; subst. eauto. Qed.

Lemma matches_opt_inv (r : regex) (prev : option ascii) (x rest : string) :
  matches (Opt r) prev x rest -> matches r prev x rest \/ x = EmptyString.
Proof. intros M. inversion M; subst; auto. Qed.

Lemma matches_star_inv (p : ascii -> bool) (prev : option ascii) (x rest : string) :
  matches (Star p) prev x rest -> all_chars p x = true.
Proof. intros M. inversion M; subst. assumption. Qed.

Lemma append_empty (t : string) : (t ++ "")%string = t.
Proof. induction t as [|c t IH]; [reflexivity|]. cbn. rewrite IH. reflexivity. Qed.

Lemma dot_char (c : ascii) : is_dot c = true -> c = "."%char.
Proof.
  destruct c as [[] [] [] [] [] [] [] []]; intros H; try discriminate H; reflexivity.
Qed.

Lemma percent_char (c : ascii) : is_percent c = true -> c = "%"%char.
Proof.
  destruct c as [[] [] [] [] [] [] [] []]; intros H; try discriminate H; reflexivity.
Qed.

Lemma matches_plus_digits (prev : option ascii) (x rest : string) :
  matches (Plus is_digit) prev x rest -> digits x = true.
Proof.
  unfold Plus. intros M.
  apply matches_cat_inv in M. destruct M as [x1 [x2 [-> [M1 M2]]]].
  apply matches_cls_inv in M1. destruct M1 as [c [-> Hc]].
  apply matches_star_inv in M2.
  unfold digits. cbn. rewrite Hc, M2. reflexivity.
Qed.

Lemma matches_fraction (prev : option ascii) (x rest : string) :
  matches (Opt (Cat (Cls is_dot) (Plus is_digit))) prev x rest ->
  exists b, x = fraction b /\ fraction_ok b = true.
Proof.
  intros M. apply matches_opt_inv in M. destruct M as [M| ->].
  - apply matches_cat_inv in M. destruct M as [x1 [x2 [-> [M1 M2]]]].
    apply matches_cls_inv in M1. destruct M1 as [c [-> Hc]].
    apply dot_char in Hc. subst c.
    apply matches_plus_digits in M2.
    exists (Some x2). split; [reflexivity|exact M2].
  - exists None. split; reflexivity.
Qed.

(** A match of the integer pattern is a run of digits. *)
Lemma matches_integer (prev : option ascii) (x rest : string) :
  matches re_integer prev x rest -> digits x = true.
Proof.
  unfold re_integer. intros M.
  apply matches_cat_inv in M. destruct M as [x1 [x2 [-> [M1 M2]]]].
  apply matches_wordb_inv in M1. subst x1.
  apply matches_cat_inv in M2. destruct M2 as [x3 [x4 [-> [M3 M4]]]].
  apply matches_wordb_inv in M4. subst x4.
  apply matches_plus_digits in M3.
  cbn [append]. rewrite append_empty. exact M3.
Qed.

(** A match of the number pattern has the form digits or digits.digits. *)
Lemma matches_number (prev : option ascii) (x rest : string) :
  matches re_number prev x rest -> decimal x.
Proof.
  unfold re_number. intros M.
  apply matches_cat_inv in M. destruct M as [x1 [x2 [-> [M1 M2]]]].
  apply matches_wordb_inv in M1. subst x1.
  apply matches_cat_inv in M2. destruct M2 as [a [x3 [-> [Ma M3]]]].
  apply matches_plus_digits in Ma.
  apply matches_cat_inv in M3. destruct M3 as [f [x4 [-> [Mf M4]]]].
  apply matches_wordb_inv in M4. subst x4.
  apply matches_fraction in Mf. destruct Mf as [b [-> Hb]].
  exists a, b. cbn [append]. rewrite append_empty. tauto.
Qed.

(** A match of the percentage pattern is such a number, spaces if any and
    the percent sign. *)
Lemma matches_percent (prev : option ascii) (x rest : string) :
  matches re_percent prev x rest ->
  exists a b w,
    x = ((a ++ fraction b) ++ w ++ "%")%string /\
    digits a = true /\ fraction_ok b = true /\ all_chars is_space w = true.
Proof.
  unfold re_percent. intros M.
  apply matches_cat_inv in M. destruct M as [x1 [x2 [-> [M1 M2]]]].
  apply matches_wordb_inv in M1. subst x1.
  apply matches_cat_inv in M2. destruct M2 as [a [x3 [-> [Ma M3]]]].
  apply matches_plus_digits in Ma.
  apply matches_cat_inv in M3. destruct M3 as [f [x4 [-> [Mf M4]]]].
  apply matches_fraction in Mf. destruct Mf as [b [-> Hb]].
  apply matches_cat_inv in M4. destruct M4 as [w [x5 [-> [Mw M5]]]].
  apply matches_star_inv in Mw.
  apply matches_cls_inv in M5. destruct M5 as [c [-> Hc]].
  apply percent_char in Hc. subst c.
  exists a, b, w. cbn [append]. rewrite append_assoc. tauto.
Qed.


(** *** Texts without digits *)

Lemma re_number_needs_digit : needs_digit re_number.
Proof.
  intros prev c s H. unfold match_at, re_number. cbn.
  destruct (at_boundary prev (String c s)); [rewrite H|]; reflexivity.
Qed.

Lemma re_percent_needs_digit : needs_digit re_percent.
Proof.
  intros prev c s H. unfold match_at, re_percent. cbn.
  destruct (at_boundary prev (String c s)); [rewrite H|]; reflexivity.
Qed.

Lemma re_integer_needs_digit : needs_digit re_integer.
Proof.
  intros prev c s H. unfold match_at, re_integer. cbn.
  destruct (at_boundary prev (String c s)); [rewrite H|]; reflexivity.
Qed.

Create HintDb patterns.

#[local] Hint Resolve re_number_needs_digit re_percent_needs_digit
  re_integer_needs_digit : patterns.

Lemma scan_no_digit (r : regex) :
  needs_digit r ->
  forall s prev, any_char is_digit s = false -> scan r prev s 0 = [].
Proof.
  intros Hr s. induction s as [|c s IH]; intros prev H; [reflexivity|].
  cbn in H. apply orb_false_iff in H. destruct H as [Hc Hs].
  cbn. rewrite (Hr prev c s Hc). apply IH, Hs.
Qed.

(** The search passes a stretch without digits and finds nothing in it. *)
Lemma scan_skip_no_digit (r : regex) :
  needs_digit r ->
  forall pre prev s, any_char is_digit pre = false ->
    scan r prev (pre ++ s) 0 = scan r (last_char prev pre) s 0.
Proof.
  intros Hr pre. induction pre as [|c pre IH]; intros prev s H; [reflexivity|].
  cbn in H. apply orb_false_iff in H. destruct H as [Hc Hs].
  cbn. rewrite (Hr prev c (pre ++ s)%string Hc). apply IH, Hs.
Qed.

Lemma extract_no_digit (text : string) :
  any_char is_digit text = false ->
  _extract_numbers_and_percents text = ([], []).
Proof.
  intros H. unfold _extract_numbers_and_percents, findall.
  rewrite !scan_no_digit by auto with patterns. reflexivity.
Qed.

Lemma legacy_no_digit (text : string) :
  any_char is_digit text = false -> _extract_numbers_legacy text = Ok [].
Proof.
  intros H. unfold _extract_numbers_legacy, findall.
  rewrite scan_no_digit by auto with patterns. reflexivity.
Qed.

(** ** Numbers and percentages *)

Lemma space_classes (c : ascii) :
  is_space c = true -> is_digit c = false /\ is_dot c = false /\ is_percent c = false.
Proof.
  destruct c as [[] [] [] [] [] [] [] []]; vm_compute; intros H;
    try discriminate H; repeat split.
Qed.

Lemma rstrip_by_cons (p : ascii -> bool) (c : ascii) (s : string) :
  rstrip_by p (String c s)
  = match rstrip_by p s with
    | EmptyString => if p c then EmptyString else String c EmptyString
    | r => String c r
    end.
Proof. reflexivity. Qed.

Lemma rstrip_by_all (p : ascii -> bool) (y : string) :
  all_chars p y = true -> rstrip_by p y = EmptyString.
Proof.
  induction y as [|c y IH]; intros H; [reflexivity|].
  cbn in H. apply andb_true_iff in H. destruct H as [Hc Hy].
  rewrite rstrip_by_cons, (IH Hy), Hc. reflexivity.
Qed.

Lemma rstrip_by_append (p : ascii -> bool) (x y : string) :
  all_chars p y = true -> rstrip_by p (x ++ y) = rstrip_by p x.
Proof.
  intros H. induction x as [|c x IH]; [apply rstrip_by_all, H|].
  cbn [append]. rewrite !rstrip_by_cons, IH. reflexivity.
Qed.

Lemma rstrip_by_keeps (p : ascii -> bool) (s : string) :
  forall (prev : option ascii) (c : ascii),
    s <> EmptyString -> last_char prev s = Some c -> p c = false ->
    rstrip_by p s = s.
Proof.
  induction s as [|c0 s IH]; intros prev c Hne Hl Hc; [contradiction|].
  destruct s as [|c1 s].
  - cbn in Hl. injection Hl as ->. cbn. rewrite Hc. reflexivity.
  - rewrite rstrip_by_cons, (IH (Some c0) c); [reflexivity|discriminate|exact Hl|exact Hc].
Qed.

Lemma last_char_all (q : ascii -> bool) (w : string) :
  forall (prev : option ascii) (c : ascii),
    all_chars q w = true -> last_char prev w = Some c ->
    q c = true \/ prev = Some c.
Proof.
  induction w as [|d w IH]; intros prev c Hq Hl; [right; exact Hl|].
  cbn in Hq. apply andb_true_iff in Hq. destruct Hq as [Hd Hw].
  cbn in Hl. destruct (IH (Some d) c Hw Hl) as [H|H]; [left; exact H|].
  injection H as ->. left. exact Hd.
Qed.

(** A token digits or digits.digits ends with a digit. *)
Lemma token_last (a : string) (b : option string) (prev : option ascii) :
  digits a = true -> fraction_ok b = true ->
  exists c, last_char prev (a ++ fraction b) = Some c /\ is_digit c = true.
Proof.
  intros Ha Hb. rewrite last_char_append. destruct b as [b|].
  - cbn [fraction append last_char]. apply digits_last, Hb.
  - cbn [fraction last_char]. apply digits_last, Ha.
Qed.

Lemma token_not_empty (a : string) (b : option string) :
  digits a = true -> (a ++ fraction b)%string <> EmptyString.
Proof.
  intros Ha. destruct (digits_inv a Ha) as [c [a' [-> _]]]. discriminate.
Qed.

(** The percentage token without its sign and its spaces is the number. *)
Lemma strip_percent_token (a : string) (b : option string) (w : string) :
  digits a = true -> fraction_ok b = true -> all_chars is_space w = true ->
  strip (rstrip_by is_percent ((a ++ fraction b) ++ w ++ "%"))
  = (a ++ fraction b)%string.
Proof.
  intros Ha Hb Hw.
  destruct (token_last a b None Ha Hb) as [c [Hl Hc]].
  pose proof (token_not_empty a b Ha) as Hne.
  set (tok := (a ++ fraction b)%string) in *.
  assert (E1 : rstrip_by is_percent (tok ++ w ++ "%") = (tok ++ w)%string).
  { rewrite <- append_assoc, rstrip_by_append by reflexivity.
    destruct (last_char None (tok ++ w)) as [d|] eqn:Ed.
    - apply (rstrip_by_keeps is_percent (tok ++ w) None d).
      + destruct tok; [contradiction|discriminate].
      + exact Ed.
      + rewrite last_char_append, Hl in Ed.
        destruct (last_char_all is_space w (Some c) d Hw Ed) as [H|H].
        * apply space_classes in H. tauto.
        * injection H as <-. apply digit_classes in Hc. tauto.
    - rewrite last_char_append, Hl in Ed.
      destruct w as [|d w]; [discriminate Ed|].
      exfalso. clear - Ed. cbn in Ed. revert d Ed.
      induction w as [|e w IH]; intros d Ed; [discriminate Ed|].
      apply (IH e). exact Ed. }
  rewrite E1. unfold strip. rewrite rstrip_by_append by exact Hw.
  rewrite (rstrip_by_keeps is_space tok None c Hne Hl)
    by (apply digit_classes in Hc; tauto).
  unfold tok. destruct (digits_inv a Ha) as [c0 [a' [-> [Hc0 _]]]].
  cbn. apply digit_classes in Hc0. destruct Hc0 as [-> _]. reflexivity.
Qed.

Lemma match_k_cat (r1 r2 : regex) (k : cont) (n : nat) (prev : option ascii)
    (s : string) :
  match_k (Cat r1 r2) k n prev s = match_k r1 (match_k r2 k) n prev s.
Proof. reflexivity. Qed.

Lemma match_k_wordb (k : cont) (n : nat) (prev : option ascii) (s : string) :
  match_k WordB k n prev s = if at_boundary prev s then k n prev s else None.
Proof. reflexivity. Qed.

Lemma match_k_star (p : ascii -> bool) (k : cont) (n : nat) (prev : option ascii)
    (s : string) :
  match_k (Star p) k n prev s = star_k p k n prev s.
Proof. reflexivity. Qed.

(** The digits of a number and what follows them. *)
Lemma match_digits (k : cont) (a rest : string) :
  forall (n : nat) (prev : option ascii) (e : nat),
    digits a = true ->
    match head rest with Some c => is_digit c = false | None => True end ->
    k (n + String.length a)%nat (last_char prev a) rest = Some e ->
    match_k (Plus is_digit) k n prev (a ++ rest) = Some e.
Proof.
  intros n prev e Ha Hr Hk.
  destruct (digits_inv a Ha) as [c [a' [-> [Hc Ha']]]].
  unfold Plus. cbn [match_k append]. rewrite Hc.
  apply star_k_greedy; [exact Ha'|exact Hr|].
  cbn in Hk. rewrite Nat.add_succ_r in Hk. exact Hk.
Qed.

(** The optional fraction of a number and what follows it. *)
Lemma match_fraction (k : cont) (b : option string) (rest : string) :
  forall (n : nat) (prev : option ascii) (e : nat),
    fraction_ok b = true ->
    match head rest with
    | Some c => is_digit c = false /\ is_dot c = false
    | None => True
    end ->
    k (n + String.length (fraction b))%nat (last_char prev (fraction b)) rest = Some e ->
    match_k (Opt (Cat (Cls is_dot) (Plus is_digit))) k n prev (fraction b ++ rest) = Some e.
Proof.
  intros n prev e Hb Hr Hk. destruct b as [b|].
  - cbn [fraction append] in *. cbn [match_k].
    change (is_dot ".") with true. cbv iota.
    rewrite (match_digits k b rest (S n) (Some "."%char) e); [reflexivity|exact Hb| |].
    + destruct (head rest); tauto.
    + cbn in Hk. rewrite Nat.add_succ_r in Hk. exact Hk.
  - cbn [fraction append] in *. cbn in Hk. rewrite Nat.add_0_r in Hk.
    cbn [match_k]. destruct rest as [|c rest].
    + exact Hk.
    + cbn in Hr. destruct Hr as [_ Hdot]. rewrite Hdot. exact Hk.
Qed.

Lemma tail_head (w post : string) :
  all_chars is_space w = true ->
  exists c,
    head (w ++ String "%" post) = Some c /\
    is_word c = false /\ is_digit c = false /\ is_dot c = false.
Proof.
  intros Hw. destruct w as [|c w].
  - exists "%"%char. repeat split.
  - cbn in Hw. apply andb_true_iff in Hw. destruct Hw as [Hc _].
    exists c. split; [reflexivity|]. split; [apply space_not_word, Hc|].
    apply space_classes in Hc. tauto.
Qed.

(** The number pattern matches a token that a percent sign follows. *)
Lemma match_number_token (prev : option ascii) (a : string) (b : option string)
    (w post : string) :
  word_opt prev = false ->
  digits a = true -> fraction_ok b = true -> all_chars is_space w = true ->
  match_at re_number prev (a ++ fraction b ++ w ++ String "%" post)
  = Some (String.length (a ++ fraction b)).
Proof.
  intros Hp Ha Hb Hw.
  destruct (tail_head w post Hw) as [t [Ht [Htw [Htd Htdot]]]].
  destruct (token_last a b prev Ha Hb) as [c [Hl Hc]].
  unfold match_at, re_number.
  assert (Hbd : at_boundary prev (a ++ fraction b ++ w ++ String "%" post) = true).
  { destruct (digits_inv a Ha) as [c0 [a' [-> [Hc0 _]]]].
    unfold at_boundary. cbn. rewrite Hp, (digit_is_word c0 Hc0). reflexivity. }
  rewrite match_k_cat, match_k_wordb, Hbd, match_k_cat.
  apply match_digits; [exact Ha| |].
  { destruct b as [b|]; [reflexivity|]. cbn [fraction append]. rewrite Ht. exact Htd. }
  rewrite match_k_cat. apply match_fraction; [exact Hb|rewrite Ht; tauto|].
  rewrite match_k_wordb. rewrite <- last_char_append, Hl.
  unfold at_boundary. rewrite Ht. cbn [word_opt].
  rewrite (digit_is_word c Hc), Htw. cbn [xorb].
  rewrite length_append. reflexivity.
Qed.

(** The percentage pattern matches the token, the spaces and the sign. *)
Lemma match_percent_token (prev : option ascii) (a : string) (b : option string)
    (w post : string) :
  word_opt prev = false ->
  digits a = true -> fraction_ok b = true -> all_chars is_space w = true ->
  match_at re_percent prev (a ++ fraction b ++ w ++ String "%" post)
  = Some (String.length ((a ++ fraction b) ++ w ++ "%")).
Proof.
  intros Hp Ha Hb Hw.
  destruct (tail_head w post Hw) as [t [Ht [Htw [Htd Htdot]]]].
  unfold match_at, re_percent.
  assert (Hbd : at_boundary prev (a ++ fraction b ++ w ++ String "%" post) = true).
  { destruct (digits_inv a Ha) as [c0 [a' [-> [Hc0 _]]]].
    unfold at_boundary. cbn. rewrite Hp, (digit_is_word c0 Hc0). reflexivity. }
  rewrite match_k_cat, match_k_wordb, Hbd, match_k_cat.
  apply match_digits; [exact Ha| |].
  { destruct b as [b|]; [reflexivity|]. cbn [fraction append]. rewrite Ht. exact Htd. }
  rewrite match_k_cat. apply match_fraction; [exact Hb|rewrite Ht; tauto|].
  rewrite match_k_cat, match_k_star. apply star_k_greedy; [exact Hw|reflexivity|].
  cbn [match_k]. change (is_percent "%") with true. cbv iota.
  rewrite !length_append. cbn [String.length]. f_equal. lia.
Qed.

Lemma scan_token (r : regex) (prev : option ascii) (tok rest : string) :
  tok <> EmptyString ->
  match_at r prev (tok ++ rest) = Some (String.length tok) ->
  exists l, scan r prev (tok ++ rest) 0 = tok :: l.
Proof.
  intros Hne Hm. destruct tok as [|c tok]; [contradiction|].
  cbn [append scan]. cbn [append] in Hm. rewrite Hm.
  change (String c (tok ++ rest)) with (String c tok ++ rest)%string.
  rewrite take_append. eexists. reflexivity.
Qed.

(** The conversions of the extractors get texts of the form they read:
    [int] a run of digits, [float] a text of the form digits or
    digits.digits. *)
Lemma legacy_tokens (text : string) :
  Forall (fun t => digits t = true) (findall re_integer text).
Proof.
  unfold findall. eapply Forall_impl; [|apply scan_sound].
  intros t [prev [rest M]]. exact (matches_integer prev t rest M).
Qed.

Lemma number_tokens (text : string) : Forall decimal (findall re_number text).
Proof.
  unfold findall. eapply Forall_impl; [|apply scan_sound].
  intros t [prev [rest M]]. exact (matches_number prev t rest M).
Qed.

Lemma percent_tokens (text : string) :
  Forall decimal
    (map (fun p => strip (rstrip_by is_percent p)) (findall re_percent text)).
Proof.
  apply Forall_map. unfold findall. eapply Forall_impl; [|apply scan_sound].
  intros t [prev [rest M]].
  destruct (matches_percent prev t rest M) as [a [b [w [-> [Ha [Hb Hw]]]]]].
  rewrite (strip_percent_token a b w Ha Hb Hw). exists a, b. tauto.
Qed.

(** Every percentage token is a number of the form digits or
    digits.digits, spaces if any and the percent sign, and what is left of
    it for [float] is that number. *)
Lemma percent_token_shape (text : string) :
  Forall
    (fun p =>
       exists a b w,
         p = ((a ++ fraction b) ++ w ++ "%")%string /\
         digits a = true /\ fraction_ok b = true /\ all_chars is_space w = true /\
         strip (rstrip_by is_percent p) = (a ++ fraction b)%string)
    (findall re_percent text).
Proof.
  unfold findall. eapply Forall_impl; [|apply scan_sound].
  intros p [prev [rest M]].
  destruct (matches_percent prev p rest M) as [a [b [w [-> [Ha [Hb Hw]]]]]].
  exists a, b, w. rewrite (strip_percent_token a b w Ha Hb Hw). tauto.
Qed.

(** C1, as stated, fails: the number of a percentage token is also among
    the extracted numbers. *)
Lemma C1_disjoint_counterexample :
  fst (_extract_numbers_and_percents "Tyrrell shot 60.9%") = [float_of "60.9"] /\
  snd (_extract_numbers_and_percents "Tyrrell shot 60.9%") = [float_of "60.9"].
Proof. split; vm_compute; reflexivity. Qed.

(** C1, amended. Every percentage value is the number of a token digits or
    digits.digits that a percent sign follows, after spaces if any; the
    extraction of numbers does not leave that token out: where such a
    token is the first number of the text and starts a word, its value is
    the first percentage and also the first number. *)
Theorem C1_percent_is_also_number :
  (forall text : string,
     snd (_extract_numbers_and_percents text)
     = map (fun p => float_of (strip (rstrip_by is_percent p)))
           (findall re_percent text) /\
     Forall
       (fun p =>
          exists a b w,
            p = ((a ++ fraction b) ++ w ++ "%")%string /\
            digits a = true /\ fraction_ok b = true /\
            all_chars is_space w = true /\
            strip (rstrip_by is_percent p) = (a ++ fraction b)%string)
       (findall re_percent text)) /\
  (forall (pre a : string) (b : option string) (w post : string),
     any_char is_digit pre = false ->
     no_word_before pre = true ->
     digits a = true -> fraction_ok b = true ->
     all_chars is_space w = true ->
     exists vals pcts,
       _extract_numbers_and_percents (pre ++ a ++ fraction b ++ w ++ "%" ++ post)
       = (float_of (a ++ fraction b) :: vals, float_of (a ++ fraction b) :: pcts)).
Proof.
  split; [intros text; split; [reflexivity|apply percent_token_shape]|].
  intros pre a b w post Hpre Hw0 Ha Hb Hw.
  unfold no_word_before in Hw0. apply negb_true_iff in Hw0.
  pose proof (token_not_empty a b Ha) as Hne.
  unfold _extract_numbers_and_percents, findall.
  rewrite (scan_skip_no_digit re_number) by auto with patterns.
  rewrite (scan_skip_no_digit re_percent) by auto with patterns.
  change ("%" ++ post)%string with (String "%" post).
  destruct (scan_token re_number (last_char None pre) (a ++ fraction b)
              (w ++ String "%" post) Hne) as [l1 H1].
  { rewrite append_assoc. apply match_number_token; assumption. }
  destruct (scan_token re_percent (last_char None pre) ((a ++ fraction b) ++ w ++ "%")
              post) as [l2 H2].
  { destruct (a ++ fraction b)%string; [contradiction|discriminate]. }
  { rewrite !append_assoc. cbn [append].
    rewrite <- (append_assoc a (fraction b) (w ++ "%")).
    apply match_percent_token; assumption. }
  rewrite append_assoc in H1. rewrite !append_assoc in H2. cbn [append] in H2.
  rewrite H1, H2. cbn [map].
  rewrite <- (append_assoc a (fraction b) (w ++ "%")).
  rewrite (strip_percent_token a b w Ha Hb Hw).
  eexists. eexists. reflexivity.
Qed.

Lemma C1_percent_is_also_number_witness :
  exists vals pcts,
    _extract_numbers_and_percents
      ("Tyrrell shot " ++ "60" ++ fraction (Some "9") ++ " " ++ "%" ++ " of her shots")
    = (float_of ("60" ++ fraction (Some "9")) :: vals,
       float_of ("60" ++ fraction (Some "9")) :: pcts).
Proof.
  apply (proj2 C1_percent_is_also_number
           "Tyrrell shot " "60" (Some "9") " " " of her shots");
    reflexivity.
Defined.

(** ** The order of the goals *)

Lemma insert_desc_perm (r : Row) (l : list Row) : Permutation (insert_desc r l) (r :: l).
Proof.
  induction l as [|x xs IH]; [apply Permutation_refl|].
  cbn [insert_desc]. destruct (Goals r <? Goals x)%Z; [|apply Permutation_refl].
  apply (Permutation_trans (perm_skip x IH)). apply perm_swap.
Qed.

Lemma stable_sort_perm (df : DataFrame) : Permutation (stable_sort_Goals_desc df) df.
Proof.
  induction df as [|r df IH]; [constructor|].
  cbn. apply (Permutation_trans (insert_desc_perm r _)). apply perm_skip, IH.
Qed.

Lemma insert_desc_sorted (r : Row) (l : list Row) :
  StronglySorted goals_desc l -> StronglySorted goals_desc (insert_desc r l).
Proof.
  induction l as [|x xs IH]; intros H.
  - repeat constructor.
  - inversion H as [|? ? Hs Hf]; subst.
    cbn [insert_desc]. destruct (Goals r <? Goals x)%Z eqn:E.
    + apply Z.ltb_lt in E. constructor; [apply IH, Hs|].
      apply (Permutation_Forall (Permutation_sym (insert_desc_perm r xs))).
      constructor; [unfold goals_desc; lia|exact Hf].
    + apply Z.ltb_ge in E. constructor; [exact H|].
      constructor; [exact E|].
      apply (Forall_impl _ (P := goals_desc x)); [|exact Hf].
      unfold goals_desc. intros a Ha. lia.
Qed.

Lemma stable_sort_sorted (df : DataFrame) :
  StronglySorted goals_desc (stable_sort_Goals_desc df).
Proof.
  induction df as [|r df IH]; [constructor|]. apply insert_desc_sorted, IH.
Qed.

(** The stable sort is one of the sorts that [sort_values] may be. *)
Lemma stable_values : SortValues.
Proof.
  exact {| sort_values_Goals_desc := stable_sort_Goals_desc;
           sort_values_perm := stable_sort_perm;
           sort_values_sorted := stable_sort_sorted |}.
Defined.

Lemma sorted_app (a b : list Row) :
  StronglySorted goals_desc (a ++ b) ->
  StronglySorted goals_desc a /\
  forall x y, In x a -> In y b -> (Goals y <= Goals x)%Z.
Proof.
  induction a as [|r a IH]; intros H.
  - split; [constructor|intros x y []].
  - cbn in H. inversion H as [|? ? Hs Hf]; subst.
    destruct (IH Hs) as [Ha Hab]. split.
    + constructor; [exact Ha|]. apply Forall_forall. intros x Hx.
      rewrite Forall_forall in Hf. apply Hf, in_or_app. left. exact Hx.
    + intros x y [<-|Hx] Hy.
      * rewrite Forall_forall in Hf. apply (Hf y), in_or_app. right. exact Hy.
      * apply Hab; assumption.
Qed.

(** Rows that lead the frame, each with more goals than all after it,
    are the first rows of the frame in the order of the goals, whatever
    the sort does with rows of equal goals. *)
Lemma sorted_prefix (top : list Row) :
  forall (rest s : list Row),
    Permutation s (top ++ rest) -> StronglySorted goals_desc s ->
    leads top rest = true ->
    firstn (List.length top) s = top.
Proof.
  induction top as [|a t IH]; intros rest s Hp Hs Hl; [reflexivity|].
  cbn [leads] in Hl. apply andb_true_iff in Hl. destruct Hl as [Ha Hl].
  rewrite forallb_forall in Ha.
  destruct s as [|x s'].
  { apply Permutation_nil in Hp. discriminate Hp. }
  inversion Hs as [|? ? Hs' Hx]; subst. rewrite Forall_forall in Hx.
  assert (Exa : x = a).
  { assert (Hin : In x (a :: t ++ rest))
      by (apply (Permutation_in _ Hp); left; reflexivity).
    destruct Hin as [E|Hin]; [symmetry; exact E|].
    apply Ha, Z.ltb_lt in Hin.
    assert (Hin' : In a (x :: s'))
      by (apply (Permutation_in _ (Permutation_sym Hp)); left; reflexivity).
    destruct Hin' as [E|Hin']; [exact E|].
    apply Hx in Hin'. unfold goals_desc in Hin'. lia. }
  subst x. cbn [List.length firstn]. f_equal.
  apply (IH rest s'); [|exact Hs'|exact Hl].
  apply (Permutation_cons_inv Hp).
Qed.

(** The first row in the order of the goals has the most goals. *)
Lemma sorted_head (x : Row) (s df : list Row) :
  Permutation (x :: s) df -> StronglySorted goals_desc (x :: s) ->
  In x df /\ forall y, In y df -> (Goals y <= Goals x)%Z.
Proof.
  intros Hp Hs. split; [apply (Permutation_in _ Hp); left; reflexivity|].
  intros y Hy. apply (Permutation_in _ (Permutation_sym Hp)) in Hy.
  inversion Hs as [|? ? _ Hx]; subst. rewrite Forall_forall in Hx.
  destruct Hy as [<-|Hy]; [lia|]. apply (Hx y Hy).
Qed.

(** ** The construction of the validator *)

(** The ground truth reads the sorted frame through its first three rows
    only. *)
Lemma ground_truth_top3 (p q : SortValues) (df : DataFrame) (ts : TeamStats) :
  firstn 3 (@sort_values_Goals_desc p df) = firstn 3 (@sort_values_Goals_desc q df) ->
  @_calculate_ground_truth p df ts = @_calculate_ground_truth q df ts.
Proof. intros H. unfold _calculate_ground_truth. rewrite H. reflexivity. Qed.

(** The three rows with the most goals are the first three of the frame:
    each has more goals than the next and than every row after them, so
    the order of rows of equal goals plays no part in the top three. *)
Lemma top3_of_frame `{SortValues} :
  let df := fst create_syracuse_2024_dataset in
  firstn 3 (sort_values_Goals_desc df) = firstn 3 df /\
  map Goals (firstn 3 df) = [70; 58; 44]%Z /\
  forallb (fun r => (Goals r <? 44)%Z) (skipn 3 df) = true.
Proof.
  cbv zeta. split; [|split; vm_compute; reflexivity].
  apply (sorted_prefix (firstn 3 (fst create_syracuse_2024_dataset))
           (skipn 3 (fst create_syracuse_2024_dataset))).
  - rewrite firstn_skipn. apply sort_values_perm.
  - apply sort_values_sorted.
  - vm_compute. reflexivity.
Qed.

Lemma init_syracuse `{SortValues} : __init__ = Ok syracuse.
Proof.
  unfold __init__.
  rewrite (surjective_pairing create_syracuse_2024_dataset).
  rewrite (ground_truth_top3 _ stable_values).
  - vm_compute. reflexivity.
  - rewrite (proj1 top3_of_frame).
    symmetry. apply (proj1 (@top3_of_frame stable_values)).
Qed.

(** ** The length that [int] reads *)

Lemma traverse_int_of (l : list string) :
  traverse int_of l
  = if forallb (fun t => (String.length t <=? max_str_digits)%nat) l
    then Ok (map digits_value l) else Raise ValueError.
Proof.
  induction l as [|t l IH]; [reflexivity|].
  cbn [traverse forallb map]. unfold int_of at 1.
  destruct (max_str_digits <? String.length t)%nat eqn:E.
  - apply Nat.ltb_lt in E.
    assert (E' : (String.length t <=? max_str_digits)%nat = false)
      by (apply Nat.leb_gt; exact E).
    rewrite E'. reflexivity.
  - apply Nat.ltb_ge in E.
    assert (E' : (String.length t <=? max_str_digits)%nat = true)
      by (apply Nat.leb_le; exact E).
    rewrite E'. cbn [bind andb]. rewrite IH.
    destruct (forallb _ l); reflexivity.
Qed.

(** The legacy extractor returns the integers of the runs of digits, and
    raises [ValueError] when a run has more digits than [int] reads. *)
Lemma legacy_cases (text : string) :
  _extract_numbers_legacy text
  = if short_ints text then Ok (legacy_values text) else Raise ValueError.
Proof. unfold _extract_numbers_legacy. apply traverse_int_of. Qed.


Lemma long_digits_refused :
  String.length long_digits = 4301%nat /\ int_of long_digits = Raise ValueError /\
  short_ints long_digits = false.
Proof. vm_compute. repeat split. Qed.

(** ** The integers of the first checks *)




Lemma truthy_int_in (x : Z) (l : list Z) : truthy l && int_in x l = int_in x l.
Proof. destruct l; reflexivity. Qed.

(** The policies of the integers, for a response that [int] reads. *)
Lemma validate_total_games (self : Self) (now text : string) :
  short_ints text = true ->
  exists r,
    validate_response self now text "total_games" = Ok r /\
    accuracy r = int_in (total_games (ground_truth self)) (legacy_values text).
Proof.
  intros Hs. unfold validate_response. rewrite legacy_cases, Hs. cbn [bind].
  change (String.eqb "total_games" "season_record") with false.
  change (String.eqb "total_games" "total_games") with true. cbv iota.
  rewrite truthy_int_in.
  destruct (int_in _ _); eexists; split; reflexivity.
Qed.






(** ** The policies *)

Lemma shooting_hits_no_candidates (expected : list (string * float)) (low : string) :
  shooting_hits expected low [] = 0%Z.
Proof.
  unfold shooting_hits. generalize 0%Z.
  induction expected as [|[name pct] l IH]; intros acc; [reflexivity|].
  cbn. destruct (str_in name low); apply IH.
Qed.




(** C6. A text without digits, the empty text among them, yields no
    number and no percentage, and the four policies that depend on numbers
    return, without raising, a result that is not accurate and names an
    error kind. *)
Theorem C6_no_digits_fail_closed :
  forall (self : Self) (now text : string),
    any_char is_digit text = false ->
    _extract_numbers_and_percents text = ([], []) /\
    _extract_numbers_legacy text = Ok [] /\
    forall qt,
      In qt ["total_games"; "team_goals"; "shooting_analysis"; "offensive_balance"] ->
      exists r,
        validate_response self now text qt = Ok r /\
        accuracy r = false /\ error_type r <> None.
Proof.
  intros self now text H.
  split; [apply extract_no_digit, H|].
  split; [apply legacy_no_digit, H|].
  intros qt Hqt. unfold validate_response.
  rewrite (legacy_no_digit text H), (extract_no_digit text H). cbn [bind].
  cbn in Hqt.
  destruct Hqt as [<-|[<-|[<-|[<-|[]]]]]; cbn.
  - eexists. split; [reflexivity|]. split; [reflexivity|discriminate].
  - eexists. split; [reflexivity|]. split; [reflexivity|discriminate].
  - rewrite shooting_hits_no_candidates. cbn.
    eexists. split; [reflexivity|]. split; [reflexivity|discriminate].
  - eexists. split; [reflexivity|]. split; [reflexivity|discriminate].
Qed.

Lemma C6_no_digits_fail_closed_witness :
  _extract_numbers_and_percents "" = ([], []) /\
  _extract_numbers_legacy "" = Ok [] /\
  forall qt,
    In qt ["total_games"; "team_goals"; "shooting_analysis"; "offensive_balance"] ->
    exists r,
      validate_response syracuse "2024-05-01T10:00:00" "" qt = Ok r /\
      accuracy r = false /\ error_type r <> None.
Proof.
  apply (C6_no_digits_fail_closed syracuse "2024-05-01T10:00:00" "").
  reflexivity.
Defined.

(** C7. Two calls with the same text, the same question type and the same
    ground truth return the same result in every field but the timestamp,
    and a call that raises does so whatever the time; the timestamp of a
    result is the time of its call. *)
Theorem C7_validate_deterministic :
  forall (self : Self) (now1 now2 text qt : string),
    erase_timestamp (validate_response self now1 text qt)
    = erase_timestamp (validate_response self now2 text qt)
    /\ match validate_response self now1 text qt with
       | Ok r => timestamp r = now1
       | Raise _ => True
       end.
Proof.
  intros self now1 now2 text qt.
  split; unfold validate_response;
    (destruct (_extract_numbers_legacy text) as [legacy_ints|e]; cbn [bind];
     [|first [reflexivity | exact I]]);
    destruct (_extract_numbers_and_percents text) as [vals pcts];
    repeat match goal with
           | |- context [String.eqb qt ?tag] => destruct (String.eqb qt tag)
           end;
    try match goal with
        | |- context [any_raising ?f ?l] => destruct (any_raising f l) as [[|]|]
        end;
    cbn [bind accuracy set_accuracy set_expected_answer append_note set_error_type negb];
    repeat match goal with
           | |- context [if ?b then _ else _] => destruct b
           end;
    first [reflexivity | exact I].
Qed.



(** ** The shooting analysis *)






(** ** The offensive balance *)

Lemma round_finite (x : float) : finite x = true -> exists i, round x = Ok i.
Proof.
  destruct x as [s|s| |s m e]; intros H; try discriminate H; eexists; reflexivity.
Qed.

Lemma any_raising_finite (count : Z) (vals : list float) :
  forallb finite vals = true ->
  any_raising (fun v => bind (round v) (fun i => Ok (i =? count)%Z)) vals
  = Ok (existsb (rounds_to count) vals).
Proof.
  induction vals as [|v vals IH]; intros H; [reflexivity|].
  cbn in H. apply andb_true_iff in H. destruct H as [Hv Hvals].
  cbn [any_raising existsb]. unfold rounds_to at 1.
  destruct (round_finite v Hv) as [i Hi]. rewrite Hi. cbn [bind].
  destruct (i =? count)%Z; [reflexivity|]. cbn [orb]. apply IH, Hvals.
Qed.

(** Where every extracted number is finite, the [offensive_balance]
    policy is accurate exactly when one of them rounds to the expected
    count. *)
Lemma offensive_balance_finite (self : Self) (now text : string) :
  short_ints text = true ->
  forallb finite (fst (_extract_numbers_and_percents text)) = true ->
  exists r,
    validate_response self now text "offensive_balance" = Ok r /\
    accuracy r
    = existsb (rounds_to (count_ge_10_goals (ground_truth self)))
        (fst (_extract_numbers_and_percents text)) /\
    error_type r = if accuracy r then None else Some "incorrect_offensive_depth".
Proof.
  intros Hs H. unfold validate_response. rewrite legacy_cases, Hs. cbn [bind].
  change (String.eqb "offensive_balance" "season_record") with false.
  change (String.eqb "offensive_balance" "total_games") with false.
  change (String.eqb "offensive_balance" "top_scorer") with false.
  change (String.eqb "offensive_balance" "team_goals") with false.
  change (String.eqb "offensive_balance" "top_assists") with false.
  change (String.eqb "offensive_balance" "shooting_analysis") with false.
  change (String.eqb "offensive_balance" "offensive_balance") with true.
  cbv iota.
  destruct (_extract_numbers_and_percents text) as [vals pcts].
  cbn [fst] in *. rewrite (any_raising_finite _ vals H). cbn [bind].
  destruct (existsb _ vals); cbn [negb];
    eexists; (split; [reflexivity|]); split; reflexivity.
Qed.

Lemma count_ge_10_of_frame `{SortValues} (df : DataFrame) (ts : TeamStats) (gt : GroundTruth) :
  _calculate_ground_truth df ts = Ok gt ->
  count_ge_10_goals gt
  = Z.of_nat (List.length (filter (fun r => (10 <=? Goals r)%Z) df)).
Proof.
  unfold _calculate_ground_truth. intros Hgt.
  destruct (idxmax Goals df); [|discriminate Hgt].
  destruct (idxmax Assists df); [|discriminate Hgt].
  cbn [bind] in Hgt. injection Hgt as <-. reflexivity.
Qed.

(** C4. The expected count is the number of rows with ten goals or more,
    9 on the data set. On a response that holds a number beyond the
    floats before the expected count, the first number is the float
    infinity, whose rounding raises [OverflowError]: the call returns no
    result, although the count stands in the response as an integer of
    its own. A response with the count before that number passes. *)
Theorem C4_offensive_balance_overflow :
  exists self,
    (forall platform : SortValues, __init__ = Ok self) /\
    count_ge_10_goals (ground_truth self)
    = Z.of_nat (List.length (filter (fun r => (10 <=? Goals r)%Z) (df self))) /\
    count_ge_10_goals (ground_truth self) = 9%Z /\
    fst (_extract_numbers_and_percents (huge ++ " 9"))
    = [S754_infinity false; float_of "9"] /\
    round (S754_infinity false) = Raise OverflowError /\
    round (float_of "9") = Ok 9%Z /\
    (forall now,
       validate_response self now (huge ++ " 9") "offensive_balance"
       = Raise OverflowError) /\
    (forall now, exists r,
       validate_response self now ("9 " ++ huge) "offensive_balance" = Ok r /\
       accuracy r = true).
Proof.
  exists syracuse. split; [intros platform; exact init_syracuse|].
  split; [reflexivity|]. split; [reflexivity|].
  split; [vm_compute; reflexivity|]. split; [reflexivity|].
  split; [reflexivity|].
  split; intros now; [vm_compute; reflexivity|].
  eexists. split; [vm_compute; reflexivity|reflexivity].
Qed.

(** ** The rubric *)

Lemma lower_char_digit (c : ascii) : is_digit (lower_char c) = is_digit c.
Proof. destruct c as [[] [] [] [] [] [] [] []]; vm_compute; reflexivity. Qed.

Lemma any_digit_lower (s : string) :
  any_char is_digit (lower s) = any_char is_digit s.
Proof.
  induction s as [|c s IH]; [reflexivity|].
  cbn. rewrite lower_char_digit, IH. reflexivity.
Qed.

Lemma count_in_filter (l : list string) (text : string) (acc : Z) :
  fold_left (fun acc n => if str_in n text then (acc + 1)%Z else acc) l acc
  = (acc + Z.of_nat (List.length (filter (fun n => str_in n text) l)))%Z.
Proof.
  revert acc. induction l as [|n l IH]; intros acc; cbn [fold_left filter].
  - cbn. lia.
  - rewrite IH. destruct (str_in n text); cbn [List.length]; lia.
Qed.

Lemma filter_map_length {A B : Type} (f : A -> B) (p : B -> bool) (l : list A) :
  List.length (filter p (map f l)) = List.length (filter (fun a => p (f a)) l).
Proof.
  induction l as [|a l IH]; [reflexivity|].
  cbn. destruct (p (f a)); cbn; rewrite IH; reflexivity.
Qed.

Lemma mentions_substring (self : Self) (text : string) :
  count_in (map lower (known_names self)) (lower text)
  = mentions_by str_in (known_names self) text.
Proof.
  unfold count_in, mentions_by. rewrite count_in_filter, filter_map_length.
  reflexivity.
Qed.

(** The claim of a whole-token match fails: "emma ward" and "sam swart"
    are in the text below as parts of longer words only, and the code
    counts both. *)
Lemma C3_whole_token_counterexample :
  specificity (_score_strategic_response syracuse "Emma Wardrobe and Sam Swarthy") = 2%Z /\
  specificity_whole_token syracuse "Emma Wardrobe and Sam Swarthy" = 1%Z.
Proof. split; vm_compute; reflexivity. Qed.

(** C3, amended. The specificity score is 1, plus 1 for every two names of
    the roster found in the text as substrings, whatever the case (at most
    4), plus 1 if the text has a digit, and 5 at most; the names of the
    data set are distinct. *)
Theorem C3_specificity_substring :
  (forall (self : Self) (text : string),
     specificity (_score_strategic_response self text)
     = specificity_substring self text) /\
  (exists self, (forall platform : SortValues, __init__ = Ok self) /\
     NoDup (known_names self) /\
     List.length (known_names self) = 34%nat).
Proof.
  split.
  - intros self text. unfold _score_strategic_response, specificity_substring,
      specificity_of. cbn [specificity].
    fold (known_names self). rewrite mentions_substring.
    unfold search_digit. rewrite any_digit_lower. reflexivity.
  - exists syracuse. split; [intros platform; exact init_syracuse|].
    split; [|reflexivity].
    assert (E : nodup string_dec (known_names syracuse) = known_names syracuse)
      by (vm_compute; reflexivity).
    rewrite <- E. apply NoDup_nodup.
Qed.

(** ** The summary *)

Lemma mem_In (k : string) (l : list string) : mem k l = true <-> In k l.
Proof.
  unfold mem. rewrite existsb_exists. split.
  - intros [x [Hx E]]. apply String.eqb_eq in E. subst x. exact Hx.
  - intros H. exists k. split; [exact H|apply String.eqb_refl].
Qed.

Lemma mem_cons (k a : string) (l : list string) :
  mem k (a :: l) = String.eqb k a || mem k l.
Proof. reflexivity. Qed.

Lemma mem_first_seen (k : string) (l seen : list string) :
  mem k (first_seen seen l) = negb (mem k seen) && mem k l.
Proof.
  revert seen. induction l as [|a l IH]; intros seen.
  - cbn. rewrite andb_false_r. reflexivity.
  - cbn [first_seen]. fold (mem a seen). rewrite (mem_cons k a l).
    destruct (mem a seen) eqn:Ea.
    + rewrite IH. destruct (String.eqb k a) eqn:E; [|reflexivity].
      apply String.eqb_eq in E. subst a. rewrite Ea. reflexivity.
    + rewrite mem_cons, IH, mem_cons.
      destruct (String.eqb k a) eqn:E; cbn [orb negb andb]; [|reflexivity].
      apply String.eqb_eq in E. subst a. rewrite Ea. reflexivity.
Qed.

Lemma first_seen_NoDup (l seen : list string) : NoDup (first_seen seen l).
Proof.
  revert seen. induction l as [|a l IH]; intros seen; cbn [first_seen].
  - constructor.
  - destruct (existsb (String.eqb a) seen); [apply IH|].
    constructor; [|apply IH].
    intros H. apply mem_In in H. rewrite mem_first_seen, mem_cons in H.
    rewrite String.eqb_refl in H. discriminate H.
Qed.

Lemma first_seen_snoc (l seen : list string) (k : string) :
  first_seen seen (l ++ [k])
  = first_seen seen l ++ (if mem k seen || mem k l then [] else [k]).
Proof.
  revert seen. induction l as [|a l IH]; intros seen.
  - cbn. fold (mem k seen). rewrite orb_false_r.
    destruct (mem k seen); reflexivity.
  - cbn [app first_seen]. fold (mem a seen). rewrite (mem_cons k a l).
    destruct (mem a seen) eqn:Ea.
    + rewrite IH. f_equal. destruct (String.eqb k a) eqn:E; [|reflexivity].
      apply String.eqb_eq in E. subst a. rewrite Ea. reflexivity.
    + rewrite IH, mem_cons. cbn [app]. f_equal. f_equal.
      destruct (String.eqb k a), (mem k seen); reflexivity.
Qed.

Lemma dict_mem_keys {V : Type} (k : string) (d : dict string V) :
  dict_mem String.eqb k d = mem k (map fst d).
Proof.
  induction d as [|[k' v] d IH]; [reflexivity|].
  cbn. rewrite IH. reflexivity.
Qed.

Lemma dict_set_keys {V : Type} (k : string) (v : V) (d : dict string V) :
  map fst (dict_set String.eqb k v d)
  = map fst d ++ (if dict_mem String.eqb k d then [] else [k]).
Proof.
  induction d as [|[k' v'] d IH]; [reflexivity|].
  cbn. destruct (String.eqb k k') eqn:E; cbn.
  - rewrite app_nil_r. reflexivity.
  - rewrite IH. reflexivity.
Qed.

Lemma dict_mem_set {V : Type} (k : string) (v : V) (d : dict string V) :
  dict_mem String.eqb k (dict_set String.eqb k v d) = true.
Proof.
  induction d as [|[k' v'] d IH]; cbn.
  - rewrite String.eqb_refl. reflexivity.
  - destruct (String.eqb k k') eqn:E; cbn; rewrite E; [reflexivity|exact IH].
Qed.

Lemma dict_get_set {V : Type} (k k' : string) (v default : V) (d : dict string V) :
  dict_get String.eqb k' default (dict_set String.eqb k v d)
  = if String.eqb k' k then v else dict_get String.eqb k' default d.
Proof.
  induction d as [|[k0 v0] d IH]; cbn.
  - reflexivity.
  - destruct (String.eqb k k0) eqn:E; cbn.
    + apply String.eqb_eq in E. subst k0.
      destruct (String.eqb k' k); reflexivity.
    + destruct (String.eqb k' k0) eqn:E0.
      * apply String.eqb_eq in E0. subst k0.
        rewrite String.eqb_sym, E. reflexivity.
      * exact IH.
Qed.

Lemma dict_get_In {V : Type} (k : string) (v default : V) (d : dict string V) :
  NoDup (map fst d) -> In (k, v) d -> dict_get String.eqb k default d = v.
Proof.
  induction d as [|[k0 v0] d IH]; intros Hnd Hin; [destruct Hin|].
  cbn in Hnd. inversion Hnd as [|? ? Hk0 Hnd']; subst.
  cbn. destruct Hin as [E|Hin].
  - injection E as -> ->. rewrite String.eqb_refl. reflexivity.
  - destruct (String.eqb k k0) eqn:E.
    + apply String.eqb_eq in E. subst k0. exfalso. apply Hk0.
      change k with (fst (k, v)). apply in_map, Hin.
    + apply IH; assumption.
Qed.

Lemma count_records_snoc (p : TestRecord -> bool) (k : string)
    (l : list TestRecord) (r : TestRecord) :
  count_records p k (l ++ [r])
  = (count_records p k l + (if String.eqb (prompt_type r) k && p r then 1 else 0))%Z.
Proof.
  unfold count_records. rewrite filter_app, length_app, Nat2Z.inj_add.
  cbn [filter]. destruct (String.eqb (prompt_type r) k && p r); reflexivity.
Qed.

Lemma count_records_pos (k : string) (l : list TestRecord) :
  In k (map prompt_type l) -> (0 < count_records (fun _ => true) k l)%Z.
Proof.
  unfold count_records. induction l as [|r l IH]; intros H; [destruct H|].
  cbn [map] in H. cbn [filter].
  destruct (String.eqb (prompt_type r) k) eqn:E; cbn [andb List.length].
  - lia.
  - destruct H as [H|H]; [|apply IH, H].
    subst k. rewrite String.eqb_refl in E. discriminate E.
Qed.

Lemma type_stats_inv (l : list TestRecord) :
  map fst (type_stats_of l) = first_seen [] (map prompt_type l) /\
  forall k, dict_get String.eqb k no_stats (type_stats_of l) = stats_of l k.
Proof.
  induction l as [|r l [IHk IHg]] using rev_ind.
  - split; [reflexivity|]. intros k. reflexivity.
  - unfold type_stats_of in *. rewrite fold_left_app. cbn [fold_left].
    set (d := fold_left type_stats_step l []) in *.
    unfold type_stats_step. set (k := prompt_type r).
    set (d1 := if negb (dict_mem String.eqb k d)
               then dict_set String.eqb k no_stats d else d).
    assert (Hmem1 : dict_mem String.eqb k d1 = true).
    { unfold d1. destruct (dict_mem String.eqb k d) eqn:E; cbn [negb];
        [exact E|apply dict_mem_set]. }
    assert (Hkeys1 : map fst d1 = first_seen [] (map prompt_type (l ++ [r]))).
    { rewrite map_app. cbn [map]. rewrite first_seen_snoc. cbn [mem existsb orb].
      fold k. unfold d1. rewrite <- IHk.
      fold (mem k (map prompt_type l)).
      assert (Em : dict_mem String.eqb k d = mem k (map prompt_type l)).
      { rewrite dict_mem_keys, IHk, mem_first_seen. reflexivity. }
      rewrite <- Em. destruct (dict_mem String.eqb k d) eqn:E; cbn [negb].
      - rewrite app_nil_r. reflexivity.
      - rewrite dict_set_keys, E. reflexivity. }
    assert (Hget1 : forall k', dict_get String.eqb k' no_stats d1 = stats_of l k').
    { intros k'. unfold d1. destruct (dict_mem String.eqb k d) eqn:E; cbn [negb];
        [apply IHg|].
      rewrite dict_get_set. destruct (String.eqb k' k) eqn:E'; [|apply IHg].
      apply String.eqb_eq in E'. subst k'. rewrite <- IHg.
      clear - E. induction d as [|[k0 v0] d IH]; [reflexivity|].
      cbn in E. apply orb_false_iff in E. destruct E as [E0 E].
      cbn. rewrite E0. apply IH, E. }
    set (d2 := dict_set String.eqb k
                 (incr_total (dict_get String.eqb k no_stats d1)) d1).
    assert (Hmem2 : dict_mem String.eqb k d2 = true) by apply dict_mem_set.
    assert (Hkeys2 : map fst d2 = map fst d1).
    { unfold d2. rewrite dict_set_keys, Hmem1, app_nil_r. reflexivity. }
    assert (Hget2 : forall k', dict_get String.eqb k' no_stats d2
                     = if String.eqb k' k then incr_total (stats_of l k)
                       else stats_of l k').
    { intros k'. unfold d2. rewrite dict_get_set, !Hget1. reflexivity. }
    split.
    + destruct (accuracy (validation r)).
      * rewrite dict_set_keys, Hmem2, app_nil_r, Hkeys2. exact Hkeys1.
      * rewrite Hkeys2. exact Hkeys1.
    + intros k'. unfold stats_of at 1. rewrite !count_records_snoc. fold k.
      rewrite (String.eqb_sym k k').
      destruct (accuracy (validation r)) eqn:Ea.
      * rewrite dict_get_set, !Hget2, String.eqb_refl.
        destruct (String.eqb k' k) eqn:E'; cbn [andb].
        -- apply String.eqb_eq in E'. subst k'.
           unfold incr_accurate, incr_total, stats_of. cbn [total accurate].
           reflexivity.
        -- unfold stats_of. f_equal; lia.
      * rewrite Hget2.
        destruct (String.eqb k' k) eqn:E'; cbn [andb].
        -- apply String.eqb_eq in E'. subst k'.
           unfold incr_total, stats_of. cbn [total accurate]. f_equal; lia.
        -- unfold stats_of. f_equal; lia.
Qed.

Lemma success_rate_ok (stats : Stats) :
  (0 <= accurate stats <= total stats)%Z -> (0 < total stats)%Z ->
  exists q,
    truediv (accurate stats) (total stats) = Ok q /\
    success_rate stats = Ok (fmul q (float_of_Z 100)).
Proof.
  intros Ha Ht.
  destruct (truediv_ok (accurate stats) (total stats) Ha Ht) as [q Hq].
  exists q. split; [exact Hq|].
  unfold success_rate.
  assert (E : (total stats =? 0)%Z = false) by (apply Z.eqb_neq; lia).
  rewrite E, Hq. reflexivity.
Qed.


Lemma count_records_le (p : TestRecord -> bool) (k : string) (l : list TestRecord) :
  (0 <= count_records p k l <= count_records (fun _ => true) k l)%Z.
Proof.
  unfold count_records. split; [lia|]. apply inj_le.
  induction l as [|r l IH]; [cbn; lia|].
  cbn [filter]. destruct (String.eqb (prompt_type r) k); cbn [andb];
    [destruct (p r)|]; cbn [List.length]; lia.
Qed.


Lemma type_stats_entry (results : list TestRecord) (ptype : string) (stats : Stats) :
  In (ptype, stats) (type_stats_of results) ->
  stats = stats_of results ptype /\
  (0 <= accurate stats <= total stats)%Z /\ (0 < total stats)%Z.
Proof.
  intros Hin. destruct (type_stats_inv results) as [Hk Hg].
  assert (E : stats = stats_of results ptype).
  { rewrite <- Hg. symmetry. apply dict_get_In; [|exact Hin].
    rewrite Hk. apply first_seen_NoDup. }
  split; [exact E|]. subst stats. cbn [stats_of total accurate].
  split; [apply count_records_le|].
  apply count_records_pos.
  assert (Hin' : In ptype (map fst (type_stats_of results))).
  { change ptype with (fst (ptype, stats_of results ptype)). apply in_map, Hin. }
  rewrite Hk in Hin'. apply mem_In in Hin'. rewrite mem_first_seen in Hin'.
  apply mem_In. apply andb_true_iff in Hin'. tauto.
Qed.

Lemma rate_lines_always (results : list TestRecord) :
  exists lines,
    rate_lines (type_stats_of results) = Ok lines /\
    map (fun l => (rl_ptype l, {| total := rl_total l; accurate := rl_accurate l |})) lines
    = type_stats_of results.
Proof.
  assert (Hpos : forall k st, In (k, st) (type_stats_of results) ->
                   (0 <= accurate st <= total st)%Z /\ (0 < total st)%Z).
  { intros k st Hin. destruct (type_stats_entry results k st Hin) as [_ H]. exact H. }
  revert Hpos. generalize (type_stats_of results). intros d.
  induction d as [|[k st] d IH]; intros H.
  - exists []. split; reflexivity.
  - destruct (H k st (or_introl eq_refl)) as [Ha Ht].
    destruct (success_rate_ok st Ha Ht) as [q [_ Hq]].
    destruct IH as [lines [Hl Hk]].
    { intros k' st' Hin. apply (H k' st'). right. exact Hin. }
    eexists. cbn [rate_lines]. rewrite Hq, Hl. cbn [bind].
    split; [reflexivity|]. cbn. rewrite Hk. destruct st; reflexivity.
Qed.

Lemma rate_lines_rates (d : dict string Stats) :
  forall lines,
    rate_lines d = Ok lines ->
    Forall (fun l => success_rate {| total := rl_total l; accurate := rl_accurate l |}
                     = Ok (rl_rate l)) lines.
Proof.
  induction d as [|[k st] d IH]; intros lines H; cbn [rate_lines] in H.
  - injection H as <-. constructor.
  - destruct (success_rate st) as [rate|e] eqn:Es; [|discriminate H].
    destruct (rate_lines d) as [rest|e]; [|discriminate H].
    cbn [bind] in H. injection H as <-.
    constructor; [|apply IH; reflexivity].
    cbn [rl_total rl_accurate rl_rate]. destruct st. exact Es.
Qed.




(** * More properties *)

(** ** What the extractors return *)

Lemma result_inv {A : Type} (P : A -> Prop) (m : result A) :
  match m with Ok a => P a | Raise _ => True end ->
  forall r, m = Ok r -> P r.
Proof. intros H r ->. exact H. Qed.

(** X1. The strings that the extractors hand to [float] and to [int] have
    the form these conversions read: a number token and a percentage
    token without its sign and spaces are of the form digits or
    digits.digits, and a token of the integer pattern is a run of digits.
    [float] reads each of its tokens; [int] reads a run of at most 4300
    digits, so the legacy extractor returns the values of the runs where
    none is longer and raises [ValueError] where one is, as on a run of
    4301 digits. *)
Theorem X1_tokens_wellformed :
  forall text : string,
    Forall decimal (findall re_number text) /\
    Forall decimal
      (map (fun p => strip (rstrip_by is_percent p)) (findall re_percent text)) /\
    Forall (fun t => digits t = true) (findall re_integer text) /\
    _extract_numbers_legacy text
    = (if forallb (fun t => (String.length t <=? 4300)%nat) (findall re_integer text)
       then Ok (map digits_value (findall re_integer text))
       else Raise ValueError) /\
    String.length long_digits = 4301%nat /\
    _extract_numbers_legacy long_digits = Raise ValueError /\
    int_of long_digits = Raise ValueError.
Proof.
  intros text. split; [apply number_tokens|].
  split; [apply percent_tokens|]. split; [apply legacy_tokens|].
  split; [apply legacy_cases|].
  split; [vm_compute; reflexivity|]. split; vm_compute; reflexivity.
Qed.









(** ** The integers of a text and the decimal text of an integer *)

Lemma uint_digits (d : Decimal.uint) :
  all_chars is_digit (NilEmpty.string_of_uint d) = true.
Proof. induction d; cbn; try rewrite IHd; reflexivity. Qed.

Lemma int_acc_uint (d : Decimal.uint) :
  forall acc : Z,
    int_acc acc (NilEmpty.string_of_uint d)
    = (Z.of_N (DecimalPos.Unsigned.of_lu (Decimal.rev d))
       + acc * 10 ^ Z.of_N (DecimalPos.Unsigned.usize d))%Z.
Proof.
  induction d; intros acc; [cbn [NilEmpty.string_of_uint int_acc]; cbn; lia|..];
    cbn [NilEmpty.string_of_uint int_acc DecimalPos.Unsigned.usize];
    rewrite IHd; unfold Decimal.rev; cbn [Decimal.revapp];
    rewrite !DecimalPos.Unsigned.of_lu_revapp;
    change (DecimalPos.Unsigned.of_lu Decimal.Nil) with 0%N;
    match goal with
    | |- context [DecimalPos.Unsigned.of_lu (?D Decimal.Nil)] =>
        let v := eval vm_compute in (DecimalPos.Unsigned.of_lu (D Decimal.Nil)) in
        change (DecimalPos.Unsigned.of_lu (D Decimal.Nil)) with v
    end;
    match goal with
    | |- context [digit_val ?c] =>
        let v := eval vm_compute in (digit_val c) in change (digit_val c) with v
    end;
    rewrite !N2Z.inj_add, !N2Z.inj_mul, !N2Z.inj_pow, N2Z.inj_succ;
    rewrite Z.pow_succ_r by apply N2Z.is_nonneg;
    change (Z.of_N 10) with 10%Z;
    generalize (10 ^ Z.of_N (DecimalPos.Unsigned.usize d))%Z;
    intros P; cbn [Z.of_N]; ring.
Qed.

(** The decimal text of an integer that is not negative is a run of
    digits, and [int] reads the integer back. *)
Lemma string_of_Z_digits (z : Z) : (0 <= z)%Z -> digits (string_of_Z z) = true.
Proof.
  intros H. destruct z as [|p|p]; [reflexivity| |lia].
  unfold string_of_Z, digits. cbn [Z.to_int NilEmpty.string_of_int].
  rewrite uint_digits, andb_true_r.
  pose proof (DecimalPos.Unsigned.to_uint_nonnil p) as Hn.
  destruct (Pos.to_uint p); [contradiction|..]; reflexivity.
Qed.

Lemma digits_value_string_of_Z (z : Z) :
  (0 <= z)%Z -> digits_value (string_of_Z z) = z.
Proof.
  intros H. destruct z as [|p|p]; [reflexivity| |lia].
  unfold string_of_Z, digits_value. cbn [Z.to_int NilEmpty.string_of_int].
  rewrite int_acc_uint, Z.mul_0_l, Z.add_0_r.
  rewrite <- DecimalPos.Unsigned.of_uint_alt, DecimalPos.Unsigned.of_to.
  reflexivity.
Qed.

Lemma scan_skip_all (r : regex) (s : string) :
  forall (prev : option ascii) (skip : nat),
    (String.length s <= skip)%nat -> scan r prev s skip = [].
Proof.
  induction s as [|c s IH]; intros prev skip H; [reflexivity|].
  cbn in H. destruct skip as [|skip]; [lia|]. cbn [scan]. apply IH. lia.
Qed.

Lemma scan_whole (r : regex) (prev : option ascii) (t : string) :
  t <> EmptyString ->
  match_at r prev t = Some (String.length t) ->
  scan r prev t 0 = [t].
Proof.
  intros Hne Hm. destruct t as [|c t]; [contradiction|].
  cbn [scan]. rewrite Hm. cbn [String.length Nat.sub].
  rewrite Nat.sub_0_r, scan_skip_all by lia.
  f_equal. cbn [take]. f_equal.
  rewrite <- (append_empty t) at 2. apply take_append.
Qed.

(** The integer pattern matches a run of digits between two ends of
    tokens. *)
Lemma match_integer_token (prev : option ascii) (d post : string) :
  word_opt prev = false -> digits d = true -> no_word_after post = true ->
  match_at re_integer prev (d ++ post) = Some (String.length d).
Proof.
  intros Hp Hd Hpost. unfold no_word_after in Hpost. apply negb_true_iff in Hpost.
  destruct (digits_last d prev Hd) as [c [Hl Hc]].
  unfold match_at, re_integer.
  assert (Hbd : at_boundary prev (d ++ post) = true).
  { destruct (digits_inv d Hd) as [c0 [d' [-> [Hc0 _]]]].
    unfold at_boundary. cbn. rewrite Hp, (digit_is_word c0 Hc0). reflexivity. }
  rewrite match_k_cat, match_k_wordb, Hbd, match_k_cat.
  apply match_digits; [exact Hd| |].
  - destruct post as [|p post]; [exact I|]. cbn in *.
    apply not_word_not_digit, Hpost.
  - rewrite match_k_wordb. unfold at_boundary. rewrite Hl, Hpost.
    cbn [word_opt]. rewrite (digit_is_word c Hc). reflexivity.
Qed.



Lemma findall_of_digits (d : string) :
  digits d = true -> findall re_integer d = [d].
Proof.
  intros Hd. unfold findall.
  rewrite (scan_whole re_integer None d); [reflexivity| |].
  - destruct (digits_inv d Hd) as [c [d' [-> _]]]. discriminate.
  - rewrite <- (append_empty d) at 1. apply match_integer_token; auto.
Qed.

Lemma legacy_of_digits (d : string) :
  digits d = true ->
  _extract_numbers_legacy d
  = if (String.length d <=? max_str_digits)%nat then Ok [digits_value d]
    else Raise ValueError.
Proof.
  intros Hd. rewrite legacy_cases. unfold short_ints, legacy_values.
  rewrite (findall_of_digits d Hd). cbn [forallb map]. rewrite andb_true_r.
  reflexivity.
Qed.




(** X4. The decimal text of an integer that is not negative and has at
    most 4300 digits is read back by the legacy extractor as that integer
    and nothing else; a response that is the text of the expected integer
    passes [total_games]. *)
Theorem X4_integer_round_trip :
  forall z : Z,
    (0 <= z)%Z ->
    (String.length (string_of_Z z) <= 4300)%nat ->
    _extract_numbers_legacy (string_of_Z z) = Ok [z] /\
    forall (self : Self) (now : string),
      total_games (ground_truth self) = z ->
      exists r,
        validate_response self now (string_of_Z z) "total_games" = Ok r /\
        accuracy r = true.
Proof.
  intros z Hz Hlen.
  assert (Hd : digits (string_of_Z z) = true) by apply (string_of_Z_digits z Hz).
  assert (Hl : (String.length (string_of_Z z) <=? max_str_digits)%nat = true)
    by (apply Nat.leb_le; exact Hlen).
  assert (Hs : short_ints (string_of_Z z) = true).
  { unfold short_ints. rewrite (findall_of_digits _ Hd). cbn [forallb].
    rewrite Hl. reflexivity. }
  assert (Hv : legacy_values (string_of_Z z) = [z]).
  { unfold legacy_values. rewrite (findall_of_digits _ Hd). cbn [map].
    rewrite digits_value_string_of_Z by exact Hz. reflexivity. }
  split.
  - rewrite legacy_cases, Hs, Hv. reflexivity.
  - intros self now Ht.
    destruct (validate_total_games self now (string_of_Z z) Hs) as [r [Hr Ha]].
    exists r. split; [exact Hr|]. rewrite Ha, Hv, Ht. cbn.
    rewrite Z.eqb_refl. reflexivity.
Qed.

Lemma X4_integer_round_trip_witness :
  _extract_numbers_legacy (string_of_Z 319) = Ok [319%Z] /\
  forall (self : Self) (now : string),
    total_games (ground_truth self) = 319%Z ->
    exists r,
      validate_response self now (string_of_Z 319) "total_games" = Ok r /\
      accuracy r = true.
Proof. apply (X4_integer_round_trip 319); [lia|vm_compute; lia]. Defined.

(** ** What a call of the validator returns *)






Lemma error_kind_known (self : Self) (now text qt : string) (r : Result) :
  In qt question_types ->
  validate_response self now text qt = Ok r ->
  error_type r = (if accuracy r then None else Some (error_kind_of qt)) /\
  expected_answer r <> ExpNone.
Proof.
  intros Hqt. revert r. apply result_inv.
  cbn in Hqt.
  destruct Hqt as [<-|[<-|[<-|[<-|[<-|[<-|[<-|[<-|[]]]]]]]]];
    unfold validate_response;
    (destruct (_extract_numbers_legacy text) as [legacy_ints|e0]; cbn [bind];
     [|exact I]);
    dispatch;
    destruct (_extract_numbers_and_percents text) as [vals pcts];
    try match goal with
        | |- context [any_raising ?f ?l] => destruct (any_raising f l) as [[|]|]
        end;
    branches;
    first [exact I | split; [reflexivity|intros H; discriminate H]].
Qed.

(** X7. For each of the eight question types a returned result names an
    error kind exactly when it is not accurate, the kind is the one of the
    question type, and the expected answer is filled in. *)
Theorem X7_error_kind_iff_not_accurate :
  forall (self : Self) (now text qt : string) (r : Result),
    In qt question_types ->
    validate_response self now text qt = Ok r ->
    error_type r = (if accuracy r then None else Some (error_kind_of qt)) /\
    expected_answer r <> ExpNone.
Proof. intros self now text qt r. apply error_kind_known. Qed.

Lemma X7_error_kind_iff_not_accurate_witness :
  error_type (example_result "top_scorer" "Olivia Adamson led the team with 58 goals")
  = (if accuracy (example_result "top_scorer" "Olivia Adamson led the team with 58 goals")
     then None else Some (error_kind_of "top_scorer")) /\
  expected_answer (example_result "top_scorer" "Olivia Adamson led the team with 58 goals")
  <> ExpNone.
Proof.
  apply (X7_error_kind_iff_not_accurate syracuse "2024-05-01T10:00:00"
           "Olivia Adamson led the team with 58 goals" "top_scorer").
  - cbn. tauto.
  - vm_compute. reflexivity.
Defined.

Lemma take_length (n : nat) (s : string) :
  (n <= String.length s)%nat -> String.length (take n s) = n.
Proof.
  revert s. induction n as [|n IH]; intros s H; [reflexivity|].
  destruct s as [|c s]; [cbn in H; lia|]. cbn. rewrite IH by (cbn in H; lia).
  reflexivity.
Qed.

(** X8. A returned result carries the question type and the time of the
    call; its copy of the response is the response itself when that has
    100 characters at most, and otherwise 103 characters that begin with
    the first 100 of the response. *)
Theorem X8_result_echoes_the_call :
  forall (self : Self) (now text qt : string),
    match validate_response self now text qt with
    | Raise _ => True
    | Ok r =>
        question_type r = qt /\ timestamp r = now /\
        if (String.length text <=? 100)%nat
        then llm_answer r = text
        else String.length (llm_answer r) = 103%nat /\
             take 100 (llm_answer r) = take 100 text
    end.
Proof.
  intros self now text qt.
  assert (Hans :
    if (String.length text <=? 100)%nat
    then (if (100 <? String.length text)%nat then take 100 text ++ "..." else text)%string
         = text
    else String.length
           (if (100 <? String.length text)%nat then take 100 text ++ "..." else text)%string
         = 103%nat /\
         take 100 (if (100 <? String.length text)%nat then take 100 text ++ "..."
                   else text)%string = take 100 text).
  { destruct (String.length text <=? 100)%nat eqn:E.
    - apply Nat.leb_le in E.
      assert (E' : (100 <? String.length text)%nat = false) by (apply Nat.ltb_ge; exact E).
      rewrite E'. reflexivity.
    - apply Nat.leb_gt in E.
      assert (E' : (100 <? String.length text)%nat = true) by (apply Nat.ltb_lt; exact E).
      rewrite E'. split.
      + rewrite length_append, take_length by lia. reflexivity.
      + rewrite <- (take_length 100 text) at 1 by lia. apply take_append. }
  unfold validate_response. revert Hans.
  generalize (if (100 <? String.length text)%nat then take 100 text ++ "..." else text)%string.
  intros answer.
  destruct (_extract_numbers_legacy text) as [legacy_ints|e0]; cbn [bind];
    [|intros _; exact I].
  destruct (_extract_numbers_and_percents text) as [vals pcts].
  repeat match goal with
         | |- context [String.eqb qt ?tag] => destruct (String.eqb qt tag) eqn:?
         end;
    try match goal with
        | |- context [any_raising ?f ?l] => destruct (any_raising f l) as [[|]|]
        end;
    branches; intros Hans;
    first [exact I | split; [reflexivity|split; [reflexivity|exact Hans]]].
Qed.

(** ** The case of the letters *)

Lemma lower_char_classes (c : ascii) :
  is_word (lower_char c) = is_word c /\ is_space (lower_char c) = is_space c /\
  is_dot (lower_char c) = is_dot c /\ is_percent (lower_char c) = is_percent c /\
  lower_char (lower_char c) = lower_char c.
Proof.
  destruct c as [[] [] [] [] [] [] [] []]; vm_compute; repeat split.
Qed.

Lemma lower_append (x y : string) : lower (x ++ y) = (lower x ++ lower y)%string.
Proof. induction x as [|c x IH]; [reflexivity|]. cbn. rewrite IH. reflexivity. Qed.

Lemma lower_idem (s : string) : lower (lower s) = lower s.
Proof.
  induction s as [|c s IH]; [reflexivity|]. cbn. rewrite IH.
  destruct (lower_char_classes c) as [_ [_ [_ [_ ->]]]]. reflexivity.
Qed.

Lemma take_lower (n : nat) (s : string) : take n (lower s) = lower (take n s).
Proof.
  revert s. induction n as [|n IH]; intros [|c s]; try reflexivity.
  cbn. rewrite IH. reflexivity.
Qed.

Lemma at_boundary_lower (prev : option ascii) (s : string) :
  at_boundary (option_map lower_char prev) (lower s) = at_boundary prev s.
Proof.
  unfold at_boundary. f_equal.
  - destruct prev as [c|]; [|reflexivity]. cbn. apply lower_char_classes.
  - destruct s as [|c s]; [reflexivity|]. cbn. apply lower_char_classes.
Qed.

Lemma star_k_lower (p : ascii -> bool) (k1 k2 : cont) :
  (forall c, p (lower_char c) = p c) ->
  (forall n prev s, k1 n (option_map lower_char prev) (lower s) = k2 n prev s) ->
  forall s n prev,
    star_k p k1 n (option_map lower_char prev) (lower s) = star_k p k2 n prev s.
Proof.
  intros Hp Hk s. induction s as [|c s IH]; intros n prev.
  - cbn. apply (Hk n prev EmptyString).
  - cbn [lower star_k]. rewrite Hp.
    change (Some (lower_char c)) with (option_map lower_char (Some c)).
    change (String (lower_char c) (lower s)) with (lower (String c s)).
    rewrite (IH (S n) (Some c)). rewrite (Hk n prev (String c s)). reflexivity.
Qed.

Lemma match_k_lower (r : regex) :
  case_blind r ->
  forall k1 k2 : cont,
    (forall n prev s, k1 n (option_map lower_char prev) (lower s) = k2 n prev s) ->
    forall n prev s,
      match_k r k1 n (option_map lower_char prev) (lower s) = match_k r k2 n prev s.
Proof.
  induction r as [p| |r1 IH1 r2 IH2|r IH|p]; intros Hr k1 k2 Hk n prev s; cbn [match_k].
  - destruct s as [|c s]; [reflexivity|]. cbn [lower]. cbn in Hr. rewrite Hr.
    change (Some (lower_char c)) with (option_map lower_char (Some c)).
    rewrite (Hk (S n) (Some c) s). reflexivity.
  - rewrite at_boundary_lower, Hk. reflexivity.
  - destruct Hr as [H1 H2]. apply (IH1 H1). intros n' prev' s'.
    apply (IH2 H2). exact Hk.
  - rewrite (IH Hr k1 k2 Hk), Hk. reflexivity.
  - apply star_k_lower; assumption.
Qed.

Lemma scan_lower (r : regex) :
  case_blind r ->
  forall s prev skip,
    scan r (option_map lower_char prev) (lower s) skip = map lower (scan r prev s skip).
Proof.
  intros Hr s. induction s as [|c s IH]; intros prev skip; [reflexivity|].
  cbn [lower scan]. destruct skip as [|skip]; [|apply (IH (Some c))].
  change (String (lower_char c) (lower s)) with (lower (String c s)).
  unfold match_at. rewrite (match_k_lower r Hr _ (fun n _ _ => Some n)) by reflexivity.
  fold (match_at r prev (String c s)).
  destruct (match_at r prev (String c s)) as [n|]; [|apply (IH (Some c))].
  cbn [map]. rewrite take_lower, (IH (Some c)). reflexivity.
Qed.

Lemma patterns_case_blind :
  case_blind re_number /\ case_blind re_percent /\ case_blind re_integer.
Proof.
  unfold re_number, re_percent, re_integer, Plus. cbn [case_blind].
  repeat split; try exact lower_char_digit; intros c; apply lower_char_classes.
Qed.

Lemma lower_fixed (t : string) :
  all_chars (fun c => negb (is_upper c)) t = true -> lower t = t.
Proof.
  induction t as [|c t IH]; intros H; [reflexivity|].
  cbn in H. apply andb_true_iff in H. destruct H as [Hc Ht].
  cbn. rewrite (IH Ht). unfold lower_char.
  apply negb_true_iff in Hc. rewrite Hc. reflexivity.
Qed.

Lemma not_upper_classes (c : ascii) :
  is_digit c || is_space c || is_dot c || is_percent c = true -> negb (is_upper c) = true.
Proof.
  destruct c as [[] [] [] [] [] [] [] []]; vm_compute; intros H;
    try discriminate H; reflexivity.
Qed.

Lemma all_chars_impl (p q : ascii -> bool) (t : string) :
  (forall c, p c = true -> q c = true) -> all_chars p t = true -> all_chars q t = true.
Proof.
  intros H. induction t as [|c t IH]; [reflexivity|].
  cbn. intros Ht. apply andb_true_iff in Ht. destruct Ht as [Hc Ht].
  rewrite (H c Hc), (IH Ht). reflexivity.
Qed.

Lemma all_chars_app (p : ascii -> bool) (x y : string) :
  all_chars p (x ++ y) = all_chars p x && all_chars p y.
Proof.
  induction x as [|c x IH]; [reflexivity|].
  cbn. rewrite IH, andb_assoc. reflexivity.
Qed.

(** A token of the extractors holds no capital letter. *)
Lemma token_chars (prev : option ascii) (t rest : string) :
  matches re_number prev t rest \/ matches re_percent prev t rest
  \/ matches re_integer prev t rest ->
  lower t = t.
Proof.
  intros H. apply lower_fixed.
  assert (Hd : forall d, digits d = true ->
                         all_chars (fun c => negb (is_upper c)) d = true).
  { intros d Hd. unfold digits in Hd. apply andb_true_iff in Hd.
    apply (all_chars_impl is_digit); [|tauto].
    intros c Hc. apply not_upper_classes. rewrite Hc. reflexivity. }
  assert (Hf : forall b, fraction_ok b = true ->
                         all_chars (fun c => negb (is_upper c)) (fraction b) = true).
  { intros [b|] Hb; [|reflexivity]. cbn. apply Hd, Hb. }
  destruct H as [M|[M|M]].
  - destruct (matches_number prev t rest M) as [a [b [-> [Ha Hb]]]].
    rewrite all_chars_app, (Hd a Ha), (Hf b Hb). reflexivity.
  - destruct (matches_percent prev t rest M) as [a [b [w [-> [Ha [Hb Hw]]]]]].
    rewrite !all_chars_app, (Hd a Ha), (Hf b Hb). cbn.
    rewrite andb_true_r. apply (all_chars_impl is_space); [|exact Hw].
    intros c Hc. apply not_upper_classes. rewrite Hc, !orb_true_r. reflexivity.
  - apply Hd. exact (matches_integer prev t rest M).
Qed.

Lemma findall_lower (r : regex) (s : string) :
  case_blind r ->
  (forall prev t rest, matches r prev t rest -> lower t = t) ->
  findall r (lower s) = findall r s.
Proof.
  intros Hr Ht. unfold findall.
  change (@None ascii) with (option_map lower_char None).
  rewrite (scan_lower r Hr). cbn [option_map].
  pose proof (scan_sound r s None 0) as Hs.
  induction Hs as [|t l [prev [rest M]] _ IH]; [reflexivity|].
  cbn. rewrite (Ht prev t rest M), IH. reflexivity.
Qed.

(** The extractors do not see the case of the letters. *)
Lemma extract_lower (s : string) :
  _extract_numbers_and_percents (lower s) = _extract_numbers_and_percents s /\
  _extract_numbers_legacy (lower s) = _extract_numbers_legacy s.
Proof.
  destruct patterns_case_blind as [Hn [Hp Hi]].
  unfold _extract_numbers_and_percents, _extract_numbers_legacy.
  rewrite (findall_lower re_number s Hn), (findall_lower re_percent s Hp),
    (findall_lower re_integer s Hi).
  - split; reflexivity.
  - intros prev t rest M. apply (token_chars prev t rest). tauto.
  - intros prev t rest M. apply (token_chars prev t rest). tauto.
  - intros prev t rest M. apply (token_chars prev t rest). tauto.
Qed.

Lemma score_lower (self : Self) (t1 t2 : string) :
  lower t1 = lower t2 ->
  _score_strategic_response self t1 = _score_strategic_response self t2.
Proof. intros H. unfold _score_strategic_response. rewrite H. reflexivity. Qed.

(** X9. Under every question type but [season_record], two responses that
    differ only in the case of their letters get the same result, the copy
    of the response apart: the same accuracy, error kind, notes and
    expected answer, or the same exception. *)
Theorem X9_case_of_letters_is_ignored :
  forall (self : Self) (now t1 t2 qt : string),
    lower t1 = lower t2 ->
    String.eqb qt "season_record" = false ->
    erase_answer (validate_response self now t1 qt)
    = erase_answer (validate_response self now t2 qt).
Proof.
  intros self now t1 t2 qt H Hq.
  assert (He : _extract_numbers_and_percents t1 = _extract_numbers_and_percents t2).
  { rewrite <- (proj1 (extract_lower t1)), <- (proj1 (extract_lower t2)), H. reflexivity. }
  assert (Hl : _extract_numbers_legacy t1 = _extract_numbers_legacy t2).
  { rewrite <- (proj2 (extract_lower t1)), <- (proj2 (extract_lower t2)), H. reflexivity. }
  unfold validate_response.
  rewrite Hq, (score_lower self t1 t2 H), He, Hl, H.
  generalize (if (100 <? String.length t1)%nat then take 100 t1 ++ "..." else t1)%string.
  generalize (if (100 <? String.length t2)%nat then take 100 t2 ++ "..." else t2)%string.
  intros a2 a1.
  destruct (_extract_numbers_legacy t2) as [legacy_ints|e0]; cbn [bind];
    [|reflexivity].
  destruct (_extract_numbers_and_percents t2) as [vals pcts].
  repeat match goal with
         | |- context [String.eqb qt ?tag] => destruct (String.eqb qt tag)
         end;
    try match goal with
        | |- context [any_raising ?f ?l] => destruct (any_raising f l) as [[|]|]
        end;
    branches; reflexivity.
Qed.

Lemma X9_case_of_letters_is_ignored_witness :
  erase_answer (validate_response syracuse "2024-05-01T10:00:00"
                  "MEAGHAN TYRRELL shot 60.9%" "shooting_analysis")
  = erase_answer (validate_response syracuse "2024-05-01T10:00:00"
                    "meaghan tyrrell SHOT 60.9%" "shooting_analysis").
Proof.
  apply (X9_case_of_letters_is_ignored syracuse "2024-05-01T10:00:00"
           "MEAGHAN TYRRELL shot 60.9%" "meaghan tyrrell SHOT 60.9%" "shooting_analysis");
    reflexivity.
Defined.

(** ** Responses with more text around them *)

Lemma startswith_append (n t post : string) :
  startswith n t = true -> startswith n (t ++ post) = true.
Proof.
  revert t. induction n as [|a n IH]; intros t H; [reflexivity|].
  destruct t as [|b t]; [discriminate H|].
  cbn in *. apply andb_true_iff in H. destruct H as [Hab Hn].
  rewrite Hab, (IH t Hn). reflexivity.
Qed.

Lemma str_in_append_r (n t post : string) :
  str_in n t = true -> str_in n (t ++ post) = true.
Proof.
  induction t as [|c t IH]; intros H.
  - cbn in H. rewrite orb_false_r in H.
    destruct n as [|a n]; [|discriminate H]. destruct post; reflexivity.
  - cbn [str_in] in H. apply orb_true_iff in H. cbn [append str_in].
    apply orb_true_iff. destruct H as [H|H].
    + left. apply (startswith_append n (String c t) post H).
    + right. apply IH, H.
Qed.

Lemma str_in_append_l (n pre t : string) :
  str_in n t = true -> str_in n (pre ++ t) = true.
Proof.
  intros H. induction pre as [|c pre IH]; [exact H|].
  cbn [append str_in]. rewrite IH. apply orb_true_r.
Qed.

Lemma str_in_middle (n pre t post : string) :
  str_in n t = true -> str_in n (pre ++ t ++ post) = true.
Proof. intros H. apply str_in_append_l, str_in_append_r, H. Qed.






(** ** The three axes of the rubric *)

Lemma count_in_length (l : list string) (text : string) :
  count_in l text = Z.of_nat (List.length (filter (fun n => str_in n text) l)).
Proof. unfold count_in. rewrite count_in_filter. lia. Qed.

Lemma filter_length_mono {A : Type} (p q : A -> bool) (l : list A) :
  (forall a, p a = true -> q a = true) ->
  (List.length (filter p l) <= List.length (filter q l))%nat.
Proof.
  intros H. induction l as [|a l IH]; [apply Nat.le_refl|].
  cbn. destruct (p a) eqn:Ep.
  - rewrite (H a Ep). cbn. lia.
  - destruct (q a); cbn; lia.
Qed.

Lemma count_in_more_text (l : list string) (pre text post : string) :
  (count_in l (lower text) <= count_in l (lower (pre ++ text ++ post)))%Z.
Proof.
  rewrite !count_in_length. apply inj_le, filter_length_mono.
  intros n H. rewrite !lower_append. apply str_in_middle, H.
Qed.

Lemma any_char_append (p : ascii -> bool) (x y : string) :
  any_char p (x ++ y) = any_char p x || any_char p y.
Proof.
  induction x as [|c x IH]; [reflexivity|].
  cbn. rewrite IH, orb_assoc. reflexivity.
Qed.


(** X11. The scores of the rubric: specificity and actionability lie
    between 1 and 5, plausibility is 2 or 5; and text added before and
    after a response lowers neither its specificity nor its
    actionability. *)
Theorem X11_rubric_scores :
  forall (self : Self) (pre text post : string),
    let s := _score_strategic_response self text in
    let s' := _score_strategic_response self (pre ++ text ++ post) in
    (1 <= specificity s <= 5)%Z /\ (1 <= actionability s <= 5)%Z /\
    (plausibility s = 2 \/ plausibility s = 5)%Z /\
    (specificity s <= specificity s')%Z /\
    (actionability s <= actionability s')%Z.
Proof.
  intros self pre text post. cbv zeta.
  assert (Hm : forall t, (0 <= count_in
                (map lower (filter (fun n => negb (String.eqb (strip n) ""))
                                   (map Player (df self)))) (lower t))%Z).
  { intros t. rewrite count_in_length. lia. }
  assert (Ha : forall t, (0 <= count_in action_terms (lower t))%Z).
  { intros t. rewrite count_in_length. lia. }
  pose proof (count_in_more_text
                (map lower (filter (fun n => negb (String.eqb (strip n) ""))
                                   (map Player (df self)))) pre text post) as Mm.
  pose proof (count_in_more_text action_terms pre text post) as Ma.
  assert (Hd : any_char is_digit (lower text) = true ->
               any_char is_digit (lower (pre ++ text ++ post)) = true).
  { rewrite !lower_append, !any_char_append. intros ->.
    rewrite orb_true_r. reflexivity. }
  unfold _score_strategic_response. cbn [specificity actionability plausibility].
  unfold search_digit.
  specialize (Hm text). specialize (Ha text).
  set (m := count_in _ (lower text)) in *.
  set (m' := count_in _ (lower (pre ++ text ++ post))) in *.
  set (a := count_in action_terms (lower text)) in *.
  set (a' := count_in action_terms (lower (pre ++ text ++ post))) in *.
  assert (Hq : (0 <= m / 2 <= m' / 2)%Z).
  { split; [apply Z.div_pos; lia|apply Z.div_le_mono; lia]. }
  destruct (any_char is_digit (lower text)) eqn:Ed.
  - rewrite (Hd eq_refl).
    repeat split; try lia;
      match goal with |- _ \/ _ => idtac end.
    destruct (_ && _); [left|right]; reflexivity.
  - repeat split; try lia;
      try (destruct (any_char is_digit (lower (pre ++ text ++ post))); lia).
    destruct (_ && _); [left|right]; reflexivity.
Qed.


(** ** The tables of the summary *)

Section DictFacts.
Context {K V : Type}.
Variable eqb : K -> K -> bool.
Hypothesis eqb_eq : forall a b, eqb a b = true <-> a = b.

Lemma eqb_refl' (a : K) : eqb a a = true.
Proof. apply eqb_eq. reflexivity. Qed.

Lemma eqb_trans' (a b c : K) : eqb a b = true -> eqb c b = eqb c a.
Proof. intros H. apply eqb_eq in H. subst b. reflexivity. Qed.

Lemma gdict_get_set (k k' : K) (v default : V) (d : dict K V) :
  dict_get eqb k' default (dict_set eqb k v d)
  = if eqb k' k then v else dict_get eqb k' default d.
Proof.
  induction d as [|[k0 v0] d IH]; cbn.
  - reflexivity.
  - destruct (eqb k k0) eqn:E; cbn.
    + rewrite (eqb_trans' k k0 k' E). destruct (eqb k' k); reflexivity.
    + destruct (eqb k' k0) eqn:E0; [|exact IH].
      destruct (eqb k' k) eqn:E1; [|reflexivity].
      apply eqb_eq in E0, E1. subst k0 k'. rewrite eqb_refl' in E. discriminate E.
Qed.

Lemma gdict_mem_set (k k' : K) (v : V) (d : dict K V) :
  dict_mem eqb k' (dict_set eqb k v d) = eqb k' k || dict_mem eqb k' d.
Proof.
  induction d as [|[k0 v0] d IH]; cbn.
  - reflexivity.
  - destruct (eqb k k0) eqn:E; cbn.
    + rewrite (eqb_trans' k k0 k' E). destruct (eqb k' k); reflexivity.
    + rewrite IH. destruct (eqb k' k0), (eqb k' k); reflexivity.
Qed.

Lemma gdict_mem_In (k : K) (d : dict K V) :
  dict_mem eqb k d = true <-> In k (map fst d).
Proof.
  induction d as [|[k0 v0] d IH]; cbn.
  - split; [discriminate|tauto].
  - rewrite orb_true_iff, IH, eqb_eq. split; intros [H|H]; auto.
Qed.

Lemma gdict_set_keys (k : K) (v : V) (d : dict K V) :
  map fst (dict_set eqb k v d)
  = map fst d ++ (if dict_mem eqb k d then [] else [k]).
Proof.
  induction d as [|[k' v'] d IH]; [reflexivity|].
  cbn. destruct (eqb k k') eqn:E; cbn.
  - rewrite app_nil_r. reflexivity.
  - rewrite IH. reflexivity.
Qed.

Lemma gdict_set_NoDup (k : K) (v : V) (d : dict K V) :
  NoDup (map fst d) -> NoDup (map fst (dict_set eqb k v d)).
Proof.
  intros H. rewrite gdict_set_keys.
  destruct (dict_mem eqb k d) eqn:E; [rewrite app_nil_r; exact H|].
  apply NoDup_app; [exact H|constructor; [intros []|constructor]|].
  intros a Ha [<-|[]]. apply gdict_mem_In in Ha. rewrite E in Ha. discriminate Ha.
Qed.

Lemma gdict_get_In (k : K) (v default : V) (d : dict K V) :
  NoDup (map fst d) -> In (k, v) d -> dict_get eqb k default d = v.
Proof.
  induction d as [|[k0 v0] d IH]; intros Hnd Hin; [destruct Hin|].
  cbn in Hnd. inversion Hnd as [|? ? Hk0 Hnd']; subst.
  cbn. destruct Hin as [E|Hin].
  - injection E as -> ->. rewrite eqb_refl'. reflexivity.
  - destruct (eqb k k0) eqn:E.
    + apply eqb_eq in E. subst k0. exfalso. apply Hk0.
      change k with (fst (k, v)). apply in_map, Hin.
    + apply IH; assumption.
Qed.

Lemma gdict_sum_set (f : V -> Z) (k : K) (v default : V) (d : dict K V) :
  f default = 0%Z ->
  sum_by f (dict_set eqb k v d)
  = (sum_by f d + f v - f (dict_get eqb k default d))%Z.
Proof.
  intros H0. induction d as [|[k0 v0] d IH]; cbn.
  - lia.
  - destruct (eqb k k0); cbn; [lia|]. fold (sum_by f (dict_set eqb k v d)).
    fold (sum_by f d). rewrite IH. lia.
Qed.

End DictFacts.

Lemma option_string_eqb_eq (a b : option string) :
  option_string_eqb a b = true <-> a = b.
Proof.
  destruct a as [a|], b as [b|]; cbn; try (split; [discriminate|discriminate]);
    [|tauto].
  rewrite String.eqb_eq. split; [intros ->; reflexivity|intros E; injection E; tauto].
Qed.

Lemma error_types_snoc (l : list TestRecord) (r : TestRecord) :
  error_types_of (l ++ [r])
  = dict_set option_string_eqb (error_type (validation r))
      (dict_get option_string_eqb (error_type (validation r)) 0%Z (error_types_of l) + 1)%Z
      (error_types_of l).
Proof. unfold error_types_of. rewrite fold_left_app. reflexivity. Qed.

(** The table of the error kinds: its keys are distinct, a key is in it
    when a record has it, its count is the number of the records that have
    it, and the counts add up to the number of the records. *)
Lemma error_types_inv (l : list TestRecord) :
  NoDup (map fst (error_types_of l)) /\
  (forall k, dict_get option_string_eqb k 0%Z (error_types_of l)
             = Z.of_nat (List.length
                 (filter (fun r => option_string_eqb (error_type (validation r)) k) l))) /\
  (forall k, dict_mem option_string_eqb k (error_types_of l)
             = existsb (fun r => option_string_eqb (error_type (validation r)) k) l) /\
  sum_by (fun c : Z => c) (error_types_of l) = Z.of_nat (List.length l).
Proof.
  induction l as [|r l [IHn [IHg [IHm IHs]]]] using rev_ind.
  - repeat split; try reflexivity. constructor.
  - rewrite error_types_snoc. set (k := error_type (validation r)).
    split; [apply (gdict_set_NoDup _ option_string_eqb_eq), IHn|].
    split; [|split].
    + intros k'. rewrite (gdict_get_set _ option_string_eqb_eq), !IHg.
      rewrite filter_app, length_app. cbn [filter]. fold k.
      destruct (option_string_eqb k' k) eqn:E.
      * apply option_string_eqb_eq in E. subst k'.
        rewrite (eqb_refl' _ option_string_eqb_eq). cbn [List.length]. lia.
      * assert (E' : option_string_eqb k k' = false).
        { destruct (option_string_eqb k k') eqn:E'; [|reflexivity].
          apply option_string_eqb_eq in E'. subst k'.
          rewrite (eqb_refl' _ option_string_eqb_eq) in E. discriminate E. }
        rewrite E'. cbn [List.length]. lia.
    + intros k'. rewrite (gdict_mem_set _ option_string_eqb_eq), IHm.
      rewrite existsb_app. cbn [existsb]. fold k. rewrite orb_false_r.
      assert (E : option_string_eqb k' k = option_string_eqb k k').
      { destruct (option_string_eqb k' k) eqn:E1, (option_string_eqb k k') eqn:E2;
          try reflexivity.
        - apply option_string_eqb_eq in E1. subst k'.
          rewrite (eqb_refl' _ option_string_eqb_eq) in E2. discriminate E2.
        - apply option_string_eqb_eq in E2. subst k'.
          rewrite (eqb_refl' _ option_string_eqb_eq) in E1. discriminate E1. }
      rewrite E. apply orb_comm.
    + rewrite (gdict_sum_set option_string_eqb (fun c : Z => c) k _ 0%Z)
        by reflexivity.
      rewrite IHs, length_app. cbn [List.length]. lia.
Qed.

(** The lines of the errors are the entries of the table when no key is
    [None], and [AttributeError] is raised when one is. *)
Lemma error_lines_spec (d : dict (option string) Z) :
  match error_lines d with
  | Ok lines =>
      d = map (fun l => (Some (fst l), snd l)) lines /\
      dict_mem option_string_eqb None d = false
  | Raise e => e = AttributeError /\ dict_mem option_string_eqb None d = true
  end.
Proof.
  induction d as [|[[error|] count] d IH]; cbn [error_lines].
  - split; reflexivity.
  - destruct (error_lines d) as [lines|e]; cbn [bind].
    + destruct IH as [-> IH]. split; [reflexivity|exact IH].
    + exact IH.
  - split; reflexivity.
Qed.

Lemma existsb_filter {A : Type} (p q : A -> bool) (l : list A) :
  existsb q (filter p l) = existsb (fun a => p a && q a) l.
Proof.
  induction l as [|a l IH]; [reflexivity|].
  cbn. destruct (p a); cbn; rewrite IH; reflexivity.
Qed.

Lemma unexplained_failures (results : list TestRecord) :
  dict_mem option_string_eqb None (error_types_of (failures results))
  = existsb unexplained results.
Proof.
  destruct (error_types_inv (failures results)) as [_ [_ [Hm _]]].
  rewrite Hm. unfold failures. rewrite existsb_filter. clear Hm.
  induction results as [|r l IH]; [reflexivity|].
  cbn [existsb]. rewrite IH. reflexivity.
Qed.

Lemma truthy_nil {A : Type} (l : list A) : truthy l = false <-> l = [].
Proof. destruct l; cbn; split; intros H; try reflexivity; discriminate H. Qed.

Lemma existsb_false_filter {A : Type} (p q : A -> bool) (l : list A) :
  filter p l = [] -> existsb (fun a => p a && q a) l = false.
Proof.
  induction l as [|a l IH]; [reflexivity|].
  cbn. destruct (p a); [discriminate|]. exact IH.
Qed.

Lemma summary_cases (results : list TestRecord) :
  match generate_summary_report results with
  | Ok NoResults => results = []
  | Ok (Summary total_tests rates successful_patterns common_errors) =>
      results <> [] /\ existsb unexplained results = false /\
      total_tests = Z.of_nat (List.length results) /\
      successful_patterns = map question (firstn 3 (successes_of results))
  | Raise e =>
      results <> [] /\ existsb unexplained results = true /\ e = AttributeError
  end.
Proof.
  unfold generate_summary_report.
  destruct results as [|r0 results]; [reflexivity|].
  set (l := r0 :: results). cbn [truthy negb].
  destruct (rate_lines_always l) as [lines [-> _]]. cbn [bind].
  fold (failures l). fold (successes_of l).
  destruct (truthy (failures l)) eqn:Ef.
  - pose proof (error_lines_spec (error_types_of (failures l))) as Hs.
    rewrite unexplained_failures in Hs.
    destruct (error_lines (error_types_of (failures l))) as [errors|e]; cbn [bind].
    + split; [discriminate|]. split; [tauto|]. split; reflexivity.
    + split; [discriminate|]. tauto.
  - cbn [bind]. split; [discriminate|]. split; [|split; reflexivity].
    apply truthy_nil in Ef. unfold failures in Ef.
    unfold unexplained. apply (existsb_false_filter _ _ l Ef).
Qed.

(** X13. The outcome of [generate_summary_report]: it returns "No results
    to analyze." exactly when there is no record; it raises exactly when a
    failed record has no error kind, and then [AttributeError]; otherwise
    it returns a report with the number of the records and the questions of
    the first three accurate records. *)
Theorem X13_summary_outcome :
  forall results : list TestRecord,
    match generate_summary_report results with
    | Ok NoResults => results = []
    | Ok (Summary total_tests rates successful_patterns common_errors) =>
        results <> [] /\ existsb unexplained results = false /\
        total_tests = Z.of_nat (List.length results) /\
        successful_patterns = map question (firstn 3 (successes_of results))
    | Raise e =>
        results <> [] /\ existsb unexplained results = true /\ e = AttributeError
    end.
Proof. exact summary_cases. Qed.

Lemma sum_by_map {A K V : Type} (f : V -> Z) (g : A -> K * V) (l : list A) :
  sum_by f (map g l) = sumZ (map (fun a => f (snd (g a))) l).
Proof.
  unfold sum_by, sumZ. induction l as [|a l IH]; [reflexivity|].
  cbn [map fold_right]. rewrite IH. reflexivity.
Qed.

(** X14. The common errors of a report: every error kind of a failure has
    one line, in no line twice; the count of a line is the number of the
    failures of its kind, which is not zero; and the counts add up to the
    number of the failures. *)
Theorem X14_common_errors :
  forall results : list TestRecord,
    match generate_summary_report results with
    | Ok (Summary total_tests rates successful_patterns common_errors) =>
        NoDup (map fst common_errors) /\
        (forall r, In r (failures results) ->
                   exists e, error_type (validation r) = Some e /\
                             In e (map fst common_errors)) /\
        (forall e c, In (e, c) common_errors ->
                     c = failures_of_kind (Some e) results /\ (0 < c)%Z) /\
        sumZ (map snd common_errors) = Z.of_nat (List.length (failures results))
    | _ => True
    end.
Proof.
  intros results. unfold generate_summary_report.
  destruct (truthy results); cbn [negb]; [|exact I].
  destruct (rate_lines_always results) as [lines [-> _]]. cbn [bind].
  fold (failures results).
  destruct (error_types_inv (failures results)) as [Hn [Hg [Hm Hs]]].
  destruct (truthy (failures results)) eqn:Ef.
  - pose proof (error_lines_spec (error_types_of (failures results))) as Hl.
    destruct (error_lines (error_types_of (failures results))) as [errors|e];
      cbn [bind]; [|exact I].
    destruct Hl as [Hd Hnone].
    assert (Hin : forall e c, In (e, c) errors ->
                              In (Some e, c) (error_types_of (failures results))).
    { intros e c H. rewrite Hd.
      change (Some e, c) with ((fun l : string * Z => (Some (fst l), snd l)) (e, c)).
      apply in_map, H. }
    split; [|split; [|split]].
    + rewrite Hd, map_map in Hn. cbn [fst] in Hn.
      rewrite <- (map_map fst Some) in Hn.
      apply (NoDup_map_inv Some), Hn.
    + intros r Hr.
      assert (Hk : dict_mem option_string_eqb (error_type (validation r))
                     (error_types_of (failures results)) = true).
      { rewrite Hm. apply existsb_exists. exists r. split; [exact Hr|].
        apply option_string_eqb_eq. reflexivity. }
      destruct (error_type (validation r)) as [e|];
        [|rewrite Hnone in Hk; discriminate Hk].
      exists e. split; [reflexivity|].
      apply (gdict_mem_In _ option_string_eqb_eq) in Hk.
      rewrite Hd, map_map in Hk. cbn [fst] in Hk.
      rewrite <- (map_map fst Some) in Hk. apply in_map_iff in Hk.
      destruct Hk as [e' [E He']]. injection E as ->. exact He'.
    + intros e c H. apply Hin in H.
      assert (Ec : c = failures_of_kind (Some e) results).
      { unfold failures_of_kind. rewrite <- Hg. symmetry.
        apply (gdict_get_In _ option_string_eqb_eq); assumption. }
      split; [exact Ec|].
      assert (Hk : dict_mem option_string_eqb (Some e)
                     (error_types_of (failures results)) = true).
      { apply (gdict_mem_In _ option_string_eqb_eq).
        change (Some e) with (fst (Some e, c)). apply in_map, H. }
      rewrite Hm in Hk. apply existsb_exists in Hk. destruct Hk as [r [Hr Er]].
      subst c. unfold failures_of_kind.
      assert (Hf : In r (filter (fun r => option_string_eqb (error_type (validation r))
                                            (Some e)) (failures results))).
      { apply filter_In. split; assumption. }
      destruct (filter _ (failures results)); [destruct Hf|cbn; lia].
    + rewrite <- Hs, Hd.
      rewrite (sum_by_map (fun c : Z => c)). cbn [snd]. reflexivity.
  - cbn [bind]. apply truthy_nil in Ef. rewrite Ef.
    split; [constructor|]. split; [intros r []|]. split; [intros e c []|reflexivity].
Qed.

Lemma dict_get_absent {V : Type} (k : string) (default : V) (d : dict string V) :
  dict_mem String.eqb k d = false -> dict_get String.eqb k default d = default.
Proof.
  induction d as [|[k0 v0] d IH]; [reflexivity|].
  cbn. destruct (String.eqb k k0); [discriminate|]. exact IH.
Qed.

Lemma type_stats_snoc (l : list TestRecord) (r : TestRecord) :
  type_stats_of (l ++ [r]) = type_stats_step (type_stats_of l) r.
Proof. unfold type_stats_of. rewrite fold_left_app. reflexivity. Qed.

(** The totals of the categories add up to the number of the records and
    their accurate counts to the number of the accurate records. *)
Lemma type_stats_sums (l : list TestRecord) :
  sum_by total (type_stats_of l) = Z.of_nat (List.length l) /\
  sum_by accurate (type_stats_of l) = Z.of_nat (List.length (successes_of l)).
Proof.
  induction l as [|r l [IHt IHa]] using rev_ind; [split; reflexivity|].
  rewrite type_stats_snoc. unfold successes_of in *.
  rewrite filter_app, !length_app. cbn [filter].
  set (d := type_stats_of l) in *. unfold type_stats_step.
  set (k := prompt_type r).
  set (d1 := if negb (dict_mem String.eqb k d)
             then dict_set String.eqb k no_stats d else d).
  assert (H1 : sum_by total d1 = sum_by total d /\ sum_by accurate d1 = sum_by accurate d).
  { unfold d1. destruct (dict_mem String.eqb k d) eqn:E; cbn [negb]; [split; reflexivity|].
    rewrite (gdict_sum_set String.eqb total k no_stats no_stats) by reflexivity.
    rewrite (gdict_sum_set String.eqb accurate k no_stats no_stats) by reflexivity.
    rewrite (dict_get_absent k no_stats d E). cbn. lia. }
  destruct H1 as [H1t H1a].
  set (d2 := dict_set String.eqb k (incr_total (dict_get String.eqb k no_stats d1)) d1).
  assert (H2 : sum_by total d2 = (sum_by total d1 + 1)%Z /\
               sum_by accurate d2 = sum_by accurate d1).
  { unfold d2.
    rewrite (gdict_sum_set String.eqb total k _ no_stats) by reflexivity.
    rewrite (gdict_sum_set String.eqb accurate k _ no_stats) by reflexivity.
    cbn [incr_total total accurate]. lia. }
  destruct H2 as [H2t H2a].
  destruct (accuracy (validation r)); cbn [List.length].
  - rewrite (gdict_sum_set String.eqb total k _ no_stats) by reflexivity.
    rewrite (gdict_sum_set String.eqb accurate k _ no_stats) by reflexivity.
    cbn [incr_accurate total accurate]. lia.
  - lia.
Qed.

(** X15. The lines of the success rates of a report: the totals of the
    lines add up to the number of the records, the accurate counts to the
    number of the accurate records, and in every line the accurate count
    lies between zero and the total, which is not zero. *)
Theorem X15_rate_lines_add_up :
  forall results : list TestRecord,
    match generate_summary_report results with
    | Ok (Summary total_tests rates successful_patterns common_errors) =>
        sumZ (map rl_total rates) = total_tests /\
        sumZ (map rl_accurate rates) = Z.of_nat (List.length (successes_of results)) /\
        Forall (fun l => (0 <= rl_accurate l <= rl_total l)%Z /\ (0 < rl_total l)%Z) rates
    | _ => True
    end.
Proof.
  intros results. unfold generate_summary_report.
  destruct (truthy results); cbn [negb]; [|exact I].
  destruct (rate_lines_always results) as [lines [-> Hd]]. cbn [bind].
  destruct (type_stats_sums results) as [Ht Ha].
  assert (Hpos : forall k st, In (k, st) (type_stats_of results) ->
                   (0 <= accurate st <= total st)%Z /\ (0 < total st)%Z).
  { intros k st Hin. destruct (type_stats_entry results k st Hin) as [_ H]. exact H. }
  rewrite <- Hd in Ht, Ha, Hpos.
  rewrite (sum_by_map total) in Ht. rewrite (sum_by_map accurate) in Ha.
  cbn [snd total accurate] in Ht, Ha.
  assert (Hall : Forall (fun l => (0 <= rl_accurate l <= rl_total l)%Z
                                  /\ (0 < rl_total l)%Z) lines).
  { apply Forall_forall. intros l Hl.
    apply (Hpos (rl_ptype l) {| total := rl_total l; accurate := rl_accurate l |}).
    apply (in_map (fun l => (rl_ptype l, {| total := rl_total l;
                                            accurate := rl_accurate l |}))), Hl. }
  destruct (if truthy (filter _ results) then _ else _) as [errors|e]; cbn [bind];
    [|exact I].
  repeat split; assumption.
Qed.

(** ** A validation and then the summary *)

Lemma unknown_type_unexplained (self : Self) (now text qt : string) (r : Result) :
  ~ In qt question_types ->
  validate_response self now text qt = Ok r ->
  accuracy r = false /\ error_type r = None.
Proof.
  intros H.
  assert (Hne : forall tag, In tag question_types -> String.eqb qt tag = false).
  { intros tag Htag. apply String.eqb_neq. intros ->. exact (H Htag). }
  unfold validate_response.
  destruct (_extract_numbers_legacy text) as [legacy_ints|e0]; cbn [bind];
    [|intros Hr; discriminate Hr].
  rewrite !Hne by (cbn; tauto).
  intros Hr. injection Hr as <-. split; reflexivity.
Qed.

(** X16. [validate_llm_response] adds one record: its category and its
    question are the question type that was typed, stripped, and its
    validation is the result for the stripped response. When the earlier
    failures all have an error kind, the summary of the records then
    returns a report if the question type is one of the eight, and raises
    [AttributeError] if it is not. *)
Theorem X16_validate_then_summarise :
  forall (validator : Self) (analyzer analyzer' : list TestRecord)
         (now_validate now_add input_type input_response : string),
    existsb unexplained analyzer = false ->
    validate_llm_response validator analyzer now_validate now_add
      input_type input_response = Ok analyzer' ->
    (exists r,
       analyzer' = analyzer ++ [r] /\
       prompt_type r = strip input_type /\ question r = strip input_type /\
       llm_response r = strip input_response /\ tr_timestamp r = now_add /\
       validate_response validator now_validate (strip input_response)
         (strip input_type) = Ok (validation r)) /\
    match generate_summary_report analyzer' with
    | Ok report =>
        In (strip input_type) question_types /\
        exists rates successful_patterns common_errors,
          report = Summary (Z.of_nat (List.length analyzer) + 1) rates
                     successful_patterns common_errors
    | Raise e => ~ In (strip input_type) question_types /\ e = AttributeError
    end.
Proof.
  intros validator analyzer analyzer' now_validate now_add input_type input_response
         Hold Hv.
  unfold validate_llm_response in Hv.
  destruct (validate_response validator now_validate (strip input_response)
              (strip input_type)) as [res|e] eqn:Er; [|discriminate Hv].
  cbn [bind] in Hv. injection Hv as <-. unfold add_result.
  split.
  { eexists. split; [reflexivity|]. cbn. repeat split. }
  set (r := {| tr_timestamp := now_add; prompt_type := strip input_type;
               question := strip input_type; llm_response := strip input_response;
               validation := res |}).
  assert (Hu : existsb unexplained (analyzer ++ [r])
               = negb (accuracy res)
                 && match error_type res with None => true | Some _ => false end).
  { rewrite existsb_app, Hold. cbn. rewrite orb_false_r. reflexivity. }
  pose proof (summary_cases (analyzer ++ [r])) as Hs.
  destruct (in_dec string_dec (strip input_type) question_types) as [Hin|Hout].
  - destruct (error_kind_known validator now_validate (strip input_response)
                (strip input_type) res Hin Er) as [Hk _].
    rewrite Hk in Hu.
    assert (Hu' : existsb unexplained (analyzer ++ [r]) = false)
      by (rewrite Hu; destruct (accuracy res); reflexivity).
    destruct (generate_summary_report (analyzer ++ [r])) as [[|n rates s errs]|e].
    + destruct analyzer; discriminate Hs.
    + destruct Hs as [_ [_ [-> _]]]. split; [exact Hin|].
      exists rates, s, errs. rewrite length_app. cbn [List.length].
      f_equal. lia.
    + destruct Hs as [_ [Hs _]]. rewrite Hu' in Hs. discriminate Hs.
  - destruct (unknown_type_unexplained validator now_validate (strip input_response)
                (strip input_type) res Hout Er) as [Ha He].
    rewrite Ha, He in Hu. cbn in Hu.
    destruct (generate_summary_report (analyzer ++ [r])) as [[|n rates s errs]|e].
    + destruct analyzer; discriminate Hs.
    + destruct Hs as [_ [Hs _]]. rewrite Hu in Hs. discriminate Hs.
    + destruct Hs as [_ [_ ->]]. split; [exact Hout|reflexivity].
Qed.

(** ** The ground truth of a frame *)

(** [idxmax] picks the first row that holds the maximum. *)
Lemma idxmax_from_spec (f : Row -> Z) (l : list Row) :
  forall best,
    exists l1 l2,
      best :: l = l1 ++ idxmax_from f best l :: l2 /\
      Forall (fun x => (f x < f (idxmax_from f best l))%Z) l1 /\
      Forall (fun x => (f x <= f (idxmax_from f best l))%Z) l2.
Proof.
  induction l as [|a l IH]; intros best.
  - exists [], []. repeat split; constructor.
  - cbn [idxmax_from]. destruct (f best <? f a)%Z eqn:E.
    + apply Z.ltb_lt in E.
      destruct (IH a) as [l1 [l2 [Hd [H1 H2]]]].
      remember (idxmax_from f a l) as r eqn:Er. clear Er.
      assert (Ha : (f a <= f r)%Z).
      { assert (Hin : In a (l1 ++ r :: l2)) by (rewrite <- Hd; left; reflexivity).
        apply in_app_or in Hin. destruct Hin as [Hin|[Hr|Hin]].
        - rewrite Forall_forall in H1. specialize (H1 a Hin). lia.
        - rewrite Hr. lia.
        - rewrite Forall_forall in H2. apply (H2 a Hin). }
      exists (best :: l1), l2. rewrite Hd. split; [reflexivity|].
      split; [constructor; [lia|exact H1]|exact H2].
    + apply Z.ltb_ge in E.
      destruct (IH best) as [l1 [l2 [Hd [H1 H2]]]].
      remember (idxmax_from f best l) as r eqn:Er. clear Er.
      destruct l1 as [|b l1].
      * cbn in Hd. injection Hd as Hb Hl. exists [], (a :: l2).
        rewrite <- Hb, Hl. split; [reflexivity|].
        split; [constructor|]. constructor; [lia|]. rewrite Hb. exact H2.
      * cbn in Hd. injection Hd as Hb Hl. subst b.
        exists (best :: a :: l1), l2. rewrite Hl. split; [reflexivity|].
        inversion H1 as [|? ? Hbest H1']; subst.
        split; [|exact H2]. constructor; [exact Hbest|].
        constructor; [lia|exact H1'].
Qed.

Lemma col_sum_sumZ (f : Row -> Z) (df : DataFrame) :
  col_sum f df = wrap64 (sumZ (map f df)).
Proof.
  unfold col_sum, sumZ.
  assert (H : forall acc, fold_left (fun acc r => (acc + f r)%Z) df acc
                          = (acc + fold_right Z.add 0%Z (map f df))%Z).
  { induction df as [|r df IH]; intros acc; cbn; [lia|]. rewrite IH. lia. }
  rewrite H. f_equal.
Qed.

Lemma wrap64_int64 (z : Z) : int64 z -> wrap64 z = z.
Proof.
  unfold int64, wrap64. intros H.
  rewrite Z.mod_small by lia. lia.
Qed.

Lemma wrap64_range (z : Z) : int64 (wrap64 z).
Proof.
  unfold int64, wrap64.
  pose proof (Z.mod_pos_bound (z + 2 ^ 63) (2 ^ 64) ltac:(lia)). lia.
Qed.

Lemma syracuse_cells : int64_frame (df syracuse) /\ exact_frame (df syracuse).
Proof.
  split; apply Forall_forall; intros r Hr; cbn in Hr;
    repeat (destruct Hr as [<-|Hr]; [unfold int64; cbn; lia|]); destruct Hr.
Qed.

(** X17. The ground truth of a frame of int64 cells:
    [_calculate_ground_truth] raises exactly for a frame without rows, and
    then [ValueError]; otherwise the top scorer is the first row with the
    most goals and the leader in assists the first row with the most
    assists, and the total of the goals is the sum of the column as an
    int64, which wraps around: it is the sum where the sum is an int64. *)
Theorem X17_ground_truth_leaders :
  forall (platform : SortValues) (df : DataFrame) (ts : TeamStats),
    int64_frame df ->
    match _calculate_ground_truth df ts with
    | Raise e => df = [] /\ e = ValueError
    | Ok gt =>
        (exists l1 r l2,
           df = l1 ++ r :: l2 /\
           top_scorer gt = Player r /\ top_scorer_goals gt = Goals r /\
           Forall (fun x => (Goals x < Goals r)%Z) l1 /\
           Forall (fun x => (Goals x <= Goals r)%Z) l2) /\
        (exists l1 r l2,
           df = l1 ++ r :: l2 /\
           top_assist gt = Player r /\ top_assist_count gt = Assists r /\
           Forall (fun x => (Assists x < Assists r)%Z) l1 /\
           Forall (fun x => (Assists x <= Assists r)%Z) l2) /\
        total_goals gt = wrap64 (sumZ (map Goals df)) /\
        int64 (total_goals gt) /\
        (int64 (sumZ (map Goals df)) -> total_goals gt = sumZ (map Goals df))
    end.
Proof.
  intros platform df ts _. unfold _calculate_ground_truth.
  destruct df as [|r0 l]; [split; reflexivity|].
  cbn [idxmax bind top_scorer top_scorer_goals top_assist top_assist_count total_goals].
  split; [|split; [|split; [|split]]].
  - destruct (idxmax_from_spec Goals l r0) as [l1 [l2 [Hd [H1 H2]]]].
    exists l1, (idxmax_from Goals r0 l), l2. tauto.
  - destruct (idxmax_from_spec Assists l r0) as [l1 [l2 [Hd [H1 H2]]]].
    exists l1, (idxmax_from Assists r0 l), l2. tauto.
  - apply col_sum_sumZ.
  - rewrite col_sum_sumZ. apply wrap64_range.
  - intros Hs. rewrite col_sum_sumZ. apply wrap64_int64, Hs.
Qed.

Lemma X17_ground_truth_leaders_witness :
  match @_calculate_ground_truth stable_values (df syracuse) (team_stats syracuse) with
  | Raise e => df syracuse = [] /\ e = ValueError
  | Ok gt =>
      (exists l1 r l2,
         df syracuse = l1 ++ r :: l2 /\
         top_scorer gt = Player r /\ top_scorer_goals gt = Goals r /\
         Forall (fun x => (Goals x < Goals r)%Z) l1 /\
         Forall (fun x => (Goals x <= Goals r)%Z) l2) /\
      (exists l1 r l2,
         df syracuse = l1 ++ r :: l2 /\
         top_assist gt = Player r /\ top_assist_count gt = Assists r /\
         Forall (fun x => (Assists x < Assists r)%Z) l1 /\
         Forall (fun x => (Assists x <= Assists r)%Z) l2) /\
      total_goals gt = wrap64 (sumZ (map Goals (df syracuse))) /\
      int64 (total_goals gt) /\
      (int64 (sumZ (map Goals (df syracuse)))
       -> total_goals gt = sumZ (map Goals (df syracuse)))
  end.
Proof.
  apply (X17_ground_truth_leaders stable_values (df syracuse) (team_stats syracuse)).
  exact (proj1 syracuse_cells).
Defined.

Lemma top3_split `{SortValues} (df : DataFrame) :
  exists top rest,
    firstn 3 (sort_values_Goals_desc df) = top /\
    Permutation df (top ++ rest) /\
    List.length top = Nat.min 3 (List.length df) /\
    StronglySorted goals_desc top /\
    (forall a b, In a top -> In b rest -> (Goals b <= Goals a)%Z).
Proof.
  exists (firstn 3 (sort_values_Goals_desc df)), (skipn 3 (sort_values_Goals_desc df)).
  split; [reflexivity|]. rewrite firstn_skipn.
  split; [apply Permutation_sym, sort_values_perm|].
  split.
  - rewrite length_firstn, (Permutation_length (sort_values_perm df)). reflexivity.
  - apply sorted_app. rewrite firstn_skipn. apply sort_values_sorted.
Qed.

(** The first row of the frame in the order of the goals has the goals of
    the row that [idxmax] picks. *)
Lemma sort_values_head `{SortValues} (r : Row) (l : list Row) :
  exists x s,
    sort_values_Goals_desc (r :: l) = x :: s /\
    Goals x = Goals (idxmax_from Goals r l).
Proof.
  pose proof (sort_values_perm (r :: l)) as Hp.
  pose proof (sort_values_sorted (r :: l)) as Hs.
  destruct (sort_values_Goals_desc (r :: l)) as [|x s].
  { apply Permutation_nil in Hp. discriminate Hp. }
  exists x, s. split; [reflexivity|].
  destruct (sorted_head x s (r :: l) Hp Hs) as [Hin Hmax].
  destruct (idxmax_from_spec Goals l r) as [l1 [l2 [Hd [H1 H2]]]].
  remember (idxmax_from Goals r l) as m eqn:Em. clear Em.
  assert (Hm : In m (r :: l)).
  { rewrite Hd. apply in_or_app. right. left. reflexivity. }
  specialize (Hmax m Hm).
  rewrite Hd in Hin. apply in_app_or in Hin.
  rewrite Forall_forall in H1, H2.
  destruct Hin as [Hin|[E|Hin]].
  - specialize (H1 x Hin). lia.
  - subst x. reflexivity.
  - specialize (H2 x Hin). lia.
Qed.

(** X18. The top three of the ground truth are rows of the frame, three
    of them or all the rows of a shorter frame, in the order of their
    goals; no row left out has more goals than one of them; the first of
    them has the goals of the top scorer; and at most as many players as
    the frame has rows have ten goals. *)
Theorem X18_top3_of_ground_truth :
  forall (platform : SortValues) (df : DataFrame) (ts : TeamStats) (gt : GroundTruth),
    _calculate_ground_truth df ts = Ok gt ->
    (exists top rest,
       Permutation df (top ++ rest) /\
       top3_shooting gt = map shooting_of top /\
       List.length top = Nat.min 3 (List.length df) /\
       StronglySorted goals_desc top /\
       (forall a b, In a top -> In b rest -> (Goals b <= Goals a)%Z) /\
       exists r, hd_error top = Some r /\ Goals r = top_scorer_goals gt) /\
    (0 <= count_ge_10_goals gt <= Z.of_nat (List.length df))%Z.
Proof.
  intros platform df ts gt. unfold _calculate_ground_truth.
  destruct df as [|r0 l]; [intros Hgt; discriminate Hgt|].
  cbn [idxmax bind]. intros Hgt. injection Hgt as <-.
  cbn [top3_shooting top_scorer_goals count_ge_10_goals]. split.
  - destruct (top3_split (r0 :: l)) as [top [rest [Ht [Hp [Hl [Hs Hd]]]]]].
    exists top, rest. split; [exact Hp|]. split; [rewrite <- Ht; reflexivity|].
    split; [exact Hl|]. split; [exact Hs|]. split; [exact Hd|].
    destruct (sort_values_head r0 l) as [x [s [Hx Hg]]].
    exists x. split; [|exact Hg].
    rewrite <- Ht, Hx. reflexivity.
  - split; [lia|]. apply inj_le.
    apply (filter_length_le (fun r => (10 <=? Goals r)%Z) (r0 :: l)).
Qed.

Lemma X18_top3_of_ground_truth_witness :
  (exists top rest,
     Permutation (df syracuse) (top ++ rest) /\
     top3_shooting (ground_truth syracuse) = map shooting_of top /\
     List.length top = Nat.min 3 (List.length (df syracuse)) /\
     StronglySorted goals_desc top /\
     (forall a b, In a top -> In b rest -> (Goals b <= Goals a)%Z) /\
     exists r, hd_error top = Some r /\ Goals r = top_scorer_goals (ground_truth syracuse)) /\
  (0 <= count_ge_10_goals (ground_truth syracuse)
   <= Z.of_nat (List.length (df syracuse)))%Z.
Proof.
  apply (X18_top3_of_ground_truth stable_values (df syracuse) (team_stats syracuse)
           (ground_truth syracuse)).
  vm_compute. reflexivity.
Defined.

(** The percentage of the data set is the one that the ground truth and
    the context compute again. *)
Lemma shooting_pct_columns (r : Row) : Shooting_Pct r = Shooting_Pct_calc r.
Proof.
  unfold Shooting_Pct, Shooting_Pct_calc.
  assert (E : float_of_Z 100 = float_of_decimal 1000 1) by (vm_compute; reflexivity).
  rewrite E. reflexivity.
Qed.

(** X19. The entries of the ground truth that are only shown, for a frame
    of int64 cells: a best shooter is set exactly when a row has ten shots
    or more, and is such a row with its shooting percentage of the data
    set, which is the percentage that the top three compute again; the
    players with ten goals are among the active scorers, who are players
    of the frame; and the totals of the assists and of the points are the
    sums of the columns as int64 values, which wrap around: they are the
    sums where the sums are int64 values. *)
Theorem X19_best_shooter_and_active_scorers :
  forall (platform : SortValues) (df : DataFrame) (ts : TeamStats)
         (gt : GroundTruth) (more : MoreTruth),
    int64_frame df ->
    _calculate_ground_truth df ts = Ok gt ->
    _calculate_ground_truth_rest df = Ok more ->
    match best_shooter more with
    | None => Forall (fun r => (Shots r < 10)%Z) df
    | Some (name, pct) =>
        exists r, In r df /\ (10 <= Shots r)%Z /\
                  name = Player r /\ pct = Shooting_Pct r /\
                  pct = Shooting_Pct_calc r
    end /\
    (count_ge_10_goals gt <= active_scorers more <= Z.of_nat (List.length df))%Z /\
    total_assists more = wrap64 (sumZ (map Assists df)) /\
    total_points more = wrap64 (sumZ (map Points df)) /\
    (int64 (sumZ (map Assists df)) -> total_assists more = sumZ (map Assists df)) /\
    (int64 (sumZ (map Points df)) -> total_points more = sumZ (map Points df)).
Proof.
  intros platform df ts gt more _.
  unfold _calculate_ground_truth, _calculate_ground_truth_rest.
  destruct df as [|r0 l]; [intros Hgt; discriminate Hgt|].
  cbn [idxmax bind]. intros Hgt Hmore. injection Hgt as <-. injection Hmore as <-.
  cbn [best_shooter count_ge_10_goals active_scorers total_assists total_points].
  set (df := r0 :: l).
  change (if (10 <=? Shots r0)%Z
          then r0 :: filter (fun r => (10 <=? Shots r)%Z) l
          else filter (fun r => (10 <=? Shots r)%Z) l)
    with (filter (fun r => (10 <=? Shots r)%Z) df).
  split; [|split; [|split; [apply col_sum_sumZ|split; [apply col_sum_sumZ|split]]]].
  - destruct (filter (fun r => (10 <=? Shots r)%Z) df) as [|r q] eqn:Eq.
    + apply Forall_forall. intros r Hr.
      destruct (10 <=? Shots r)%Z eqn:E; [|apply Z.leb_gt, E].
      assert (Hin : In r (filter (fun r => (10 <=? Shots r)%Z) df))
        by (apply filter_In; tauto).
      rewrite Eq in Hin. destruct Hin.
    + assert (Hq : forall x, In x (r :: q) -> In x df /\ (10 <= Shots x)%Z).
      { intros x Hx. rewrite <- Eq in Hx. apply filter_In in Hx.
        rewrite Z.leb_le in Hx. exact Hx. }
      assert (Hm : In (fidxmax_from Shooting_Pct r q) (r :: q)).
      { clear Eq Hq. revert r. induction q as [|a q IH]; intros r; [left; reflexivity|].
        cbn [fidxmax_from]. destruct (SFltb _ _).
        - right. apply IH.
        - destruct (IH r) as [Hr|Hr]; [left; exact Hr|right; right; exact Hr]. }
      destruct (Hq _ Hm) as [Hin Hs].
      exists (fidxmax_from Shooting_Pct r q).
      repeat split; try assumption; apply shooting_pct_columns.
  - split; [|apply inj_le; apply (filter_length_le (fun r => (5 <=? Goals r)%Z) df)].
    apply inj_le.
    apply (filter_length_mono (fun r => (10 <=? Goals r)%Z)
             (fun r => (5 <=? Goals r)%Z) df).
    intros a Ha.
    apply Z.leb_le in Ha. apply Z.leb_le. lia.
  - intros Hs. rewrite col_sum_sumZ. apply wrap64_int64, Hs.
  - intros Hs. rewrite col_sum_sumZ. apply wrap64_int64, Hs.
Qed.

(** ** What the context prints and what the extractors read *)

Lemma div_half_even_nonneg (m d : Z) : (0 <= m)%Z -> (0 < d)%Z -> (0 <= div_half_even m d)%Z.
Proof.
  intros Hm Hd. unfold div_half_even.
  assert (0 <= m / d)%Z by (apply Z.div_pos; lia).
  destruct (2 * (m mod d) ?= d)%Z; [destruct (Z.even (m / d))|..]; lia.
Qed.

Lemma scaled_half_even_nonneg (m e : Z) (k : nat) :
  (0 <= m)%Z -> (0 <= scaled_half_even m e k)%Z.
Proof.
  intros Hm. unfold scaled_half_even.
  assert (0 < 10 ^ Z.of_nat k)%Z by (apply Z.pow_pos_nonneg; lia).
  destruct (0 <=? e)%Z eqn:E.
  - apply Z.leb_le in E. assert (0 < 2 ^ e)%Z by (apply Z.pow_pos_nonneg; lia). nia.
  - apply Z.leb_gt in E. apply div_half_even_nonneg; [nia|].
    apply Z.pow_pos_nonneg; lia.
Qed.

Lemma split_dot_digits (a b : string) :
  all_chars is_digit a = true -> split_dot (a ++ String "." b) = (a, Some b).
Proof.
  induction a as [|c a IH]; intros H; [reflexivity|].
  cbn in H. apply andb_true_iff in H. destruct H as [Hc Ha].
  cbn [append split_dot]. rewrite (IH Ha).
  destruct (digit_classes c Hc) as [_ [_ Hdot]].
  rewrite Hdot. reflexivity.
Qed.

Lemma int_acc_append (a b : string) (acc : Z) :
  int_acc acc (a ++ b) = int_acc (int_acc acc a) b.
Proof. revert acc. induction a as [|c a IH]; intros acc; [reflexivity|]. apply IH. Qed.

Lemma one_digit (d : Z) :
  (0 <= d < 10)%Z ->
  String.length (string_of_Z d) = 1%nat /\
  forall acc, int_acc acc (string_of_Z d) = (10 * acc + d)%Z.
Proof.
  intros H.
  assert (E : (d = 0 \/ d = 1 \/ d = 2 \/ d = 3 \/ d = 4 \/ d = 5 \/ d = 6 \/ d = 7
               \/ d = 8 \/ d = 9)%Z) by lia.
  repeat (destruct E as [->|E];
          [split; [reflexivity|intros acc; cbn [int_acc]; reflexivity]|]).
  subst d. split; [reflexivity|intros acc; cbn [int_acc]; reflexivity].
Qed.

(** The text of a number with one digit after the point is read back as
    the float of that number. *)
Lemma float_of_one_decimal (n : Z) :
  (0 <= n)%Z ->
  float_of (string_of_Z (n / 10) ++ "." ++ string_of_Z (n mod 10)) = float_of_decimal n 1.
Proof.
  intros Hn.
  assert (Hq : (0 <= n / 10)%Z) by (apply Z.div_pos; lia).
  assert (Hr : (0 <= n mod 10 < 10)%Z) by (apply Z.mod_pos_bound; lia).
  pose proof (string_of_Z_digits (n / 10) Hq) as Hd.
  unfold digits in Hd. apply andb_true_iff in Hd. destruct Hd as [_ Hd].
  destruct (one_digit (n mod 10) Hr) as [Hl Hi].
  unfold float_of. cbn [append]. rewrite (split_dot_digits _ _ Hd), Hl.
  unfold digits_value. rewrite int_acc_append, Hi.
  fold (digits_value (string_of_Z (n / 10))). rewrite (digits_value_string_of_Z _ Hq).
  f_equal. pose proof (Z.div_mod n 10). lia.
Qed.

(** The text of [{x:.1f}] is digits, a point and one digit, and [float]
    reads it back as [round(x, 1)]. *)
Lemma format_shape (x : float) :
  unsigned_float x = true -> finite x = true ->
  exists a b,
    format_1f x = (a ++ String "." b)%string /\
    digits a = true /\ digits b = true /\
    float_of (a ++ String "." b) = round1 x.
Proof.
  intros Hu Hf. destruct x as [[|]|[|]| |[|] m e]; try discriminate Hu;
    try discriminate Hf.
  - exists "0"%string, "0"%string. repeat split.
  - assert (Hn : (0 <= scaled_half_even (Z.pos m) e 1)%Z)
      by (apply scaled_half_even_nonneg; lia).
    exists (string_of_Z (scaled_half_even (Z.pos m) e 1 / 10)),
           (string_of_Z (scaled_half_even (Z.pos m) e 1 mod 10)).
    split; [reflexivity|].
    split; [apply string_of_Z_digits, Z.div_pos; lia|].
    split; [apply string_of_Z_digits, Z.mod_pos_bound; lia|].
    apply (float_of_one_decimal _ Hn).
Qed.

(** X20. The text that [{x:.1f}] gives for a float that is zero or a
    positive number is read back by [float] as [round(x, 1)]: a percentage
    as the context prints it is the percentage as the ground truth rounds
    it. *)
Theorem X20_format_then_float_is_round :
  forall x : float,
    unsigned_float x = true -> finite x = true ->
    float_of (format_1f x) = round1 x.
Proof.
  intros x Hu Hf. destruct (format_shape x Hu Hf) as [a [b [-> [_ [_ H]]]]]. exact H.
Qed.

Lemma X20_format_then_float_is_round_witness :
  float_of (format_1f (Shooting_Pct_calc
     {| Player := "Meaghan Tyrrell"; Jersey := 18; Goals := 70; Assists := 32;
        Points := 102; Shots := 115; Games_Played := 21 |}))
  = round1 (Shooting_Pct_calc
     {| Player := "Meaghan Tyrrell"; Jersey := 18; Goals := 70; Assists := 32;
        Points := 102; Shots := 115; Games_Played := 21 |}).
Proof.
  apply X20_format_then_float_is_round; vm_compute; reflexivity.
Defined.

(** ** A response that quotes the context *)




Lemma context_lines (l : list Row) (context : string) :
  fold_left
    (fun context player =>
       if (0 <? Goals player)%Z then (context ++ player_line player)%string
       else context) l context
  = (context ++ player_lines (filter (fun p => (0 <? Goals p)%Z) l))%string.
Proof.
  revert context. induction l as [|p l IH]; intros context.
  - cbn. rewrite append_empty. reflexivity.
  - cbn [fold_left filter]. rewrite IH. destruct (0 <? Goals p)%Z; [|reflexivity].
    cbn [player_lines fold_right]. rewrite append_assoc. reflexivity.
Qed.







(** The rows of [nlargest] are the first ten of the frame in an order of
    the goals. *)
Lemma nlargest_spec `{SortValues} (df : DataFrame) :
  exists s,
    nlargest_10_Goals df = firstn 10 s /\
    Permutation s df /\ StronglySorted goals_desc s.
Proof.
  unfold nlargest_10_Goals. destruct (List.length df <=? 10)%nat.
  - exists (sort_values_Goals_desc df). split; [reflexivity|].
    split; [apply sort_values_perm|apply sort_values_sorted].
  - exists (stable_sort_Goals_desc df). split; [reflexivity|].
    split; [apply stable_sort_perm|apply stable_sort_sorted].
Qed.






(** ** The percentages of a quoted context *)





(** *** The signs of the percentages *)









(** *** The lines of the players *)











(** ** The prompts as responses *)




(** X24. For the validator that the program builds, each of the eight
    prompts, given back as the response, passes the check of its own
    question type. *)
Theorem X24_every_prompt_passes_for_the_data :
  forall (platform : SortValues) (now : string),
    match __init__ with
    | Ok self =>
        List.length (generate_syracuse_test_prompts self) = 8%nat /\
        Forall
          (fun p =>
             exists r,
               validate_response self now (p_prompt p) (p_question_type p) = Ok r /\
               accuracy r = true)
          (generate_syracuse_test_prompts self)
    | Raise _ => False
    end.
Proof.
  intros platform now. rewrite init_syracuse. split; [reflexivity|].
  unfold generate_syracuse_test_prompts. cbv zeta.
  repeat constructor; cbn [p_prompt p_question_type];
    eexists; (split; [vm_compute; reflexivity|reflexivity]).
Qed.

(** ** The lines of the context *)

Lemma sorted_filter (p : Row -> bool) (l : list Row) :
  StronglySorted goals_desc l -> StronglySorted goals_desc (filter p l).
Proof.
  induction 1 as [|a l Hs IH Hf]; [constructor|].
  cbn. destruct (p a); [|exact IH].
  constructor; [exact IH|]. apply Forall_forall. intros x Hx.
  apply filter_In in Hx. rewrite Forall_forall in Hf. apply Hf. tauto.
Qed.

(** X25. For a frame of cells that a float holds exactly and a number
    of games that is an int64, the context lists at most ten players,
    each a row of the frame with a goal, in the order of their goals; a
    row that is not listed has no goal or no more goals than each listed
    row; and the totals at the end are the sums of the goals and of the
    assists of the whole frame as int64 values, which wrap around. *)
Theorem X25_context_lists_the_scorers :
  forall (platform : SortValues) (self : Self),
    exact_frame (df self) ->
    int64 (ts_total_games (team_stats self)) ->
    exists lines,
      get_testing_context self
      = (context_head (team_stats self) ++ player_lines lines ++ nl
         ++ "TEAM TOTALS: "
         ++ string_of_Z (wrap64 (sumZ (map Goals (df self)))) ++ " Goals, "
         ++ string_of_Z (wrap64 (sumZ (map Assists (df self)))) ++ " Assists")%string /\
      (List.length lines <= 10)%nat /\
      Forall (fun r => In r (df self) /\ (0 < Goals r)%Z) lines /\
      StronglySorted goals_desc lines /\
      (forall r x, In r (df self) -> ~ In r lines -> In x lines ->
                   (Goals r <= 0 \/ Goals r <= Goals x)%Z).
Proof.
  intros platform self _ _.
  exists (filter (fun p => (0 <? Goals p)%Z) (nlargest_10_Goals (df self))).
  split.
  { unfold get_testing_context. rewrite context_lines, <- !col_sum_sumZ.
    rewrite !append_assoc. reflexivity. }
  destruct (nlargest_spec (df self)) as [s [-> [Hp Hs]]].
  rewrite <- (firstn_skipn 10 s) in Hs.
  destruct (sorted_app _ _ Hs) as [Hs1 Hs2].
  split; [|split; [|split]].
  - apply (Nat.le_trans _ _ _ (filter_length_le _ _)).
    rewrite length_firstn. lia.
  - apply Forall_forall. intros r Hr. apply filter_In in Hr. destruct Hr as [Hr Hg].
    split; [|apply Z.ltb_lt, Hg].
    apply (Permutation_in _ Hp).
    rewrite <- (firstn_skipn 10). apply in_or_app. left. exact Hr.
  - apply sorted_filter. exact Hs1.
  - intros r x Hr Hnot Hx.
    apply (Permutation_in _ (Permutation_sym Hp)) in Hr.
    rewrite <- (firstn_skipn 10) in Hr. apply in_app_or in Hr.
    apply filter_In in Hx. destruct Hx as [Hx _].
    destruct Hr as [Hr|Hr].
    + left. destruct (0 <? Goals r)%Z eqn:E; [|apply Z.ltb_ge, E].
      exfalso. apply Hnot. apply filter_In. split; [exact Hr|exact E].
    + right. apply (Hs2 x r Hx Hr).
Qed.

Lemma X25_context_lists_the_scorers_witness :
  exists lines,
    @get_testing_context stable_values syracuse
    = (context_head (team_stats syracuse) ++ player_lines lines ++ nl
       ++ "TEAM TOTALS: "
       ++ string_of_Z (wrap64 (sumZ (map Goals (df syracuse)))) ++ " Goals, "
       ++ string_of_Z (wrap64 (sumZ (map Assists (df syracuse)))) ++ " Assists")%string /\
    (List.length lines <= 10)%nat /\
    Forall (fun r => In r (df syracuse) /\ (0 < Goals r)%Z) lines /\
    StronglySorted goals_desc lines /\
    (forall r x, In r (df syracuse) -> ~ In r lines -> In x lines ->
                 (Goals r <= 0 \/ Goals r <= Goals x)%Z).
Proof.
  apply (X25_context_lists_the_scorers stable_values syracuse).
  - exact (proj2 syracuse_cells).
  - vm_compute. split; [discriminate|reflexivity].
Defined.

(** ** Examples *)

Lemma X16_validate_then_summarise_witness :
  (exists r,
     add_result example_records "2024-05-01T10:00:02" "top_assists" "top_assists"
       "Emma Ward" (example_result "top_assists" "Emma Ward")
     = example_records ++ [r] /\
     prompt_type r = strip " top_assists " /\ question r = strip " top_assists " /\
     llm_response r = strip "Emma Ward  " /\ tr_timestamp r = "2024-05-01T10:00:02" /\
     validate_response syracuse "2024-05-01T10:00:00" (strip "Emma Ward  ")
       (strip " top_assists ") = Ok (validation r)) /\
  match generate_summary_report
          (add_result example_records "2024-05-01T10:00:02" "top_assists" "top_assists"
             "Emma Ward" (example_result "top_assists" "Emma Ward")) with
  | Ok report =>
      In (strip " top_assists ") question_types /\
      exists rates successful_patterns common_errors,
        report = Summary (Z.of_nat (List.length example_records) + 1) rates
                   successful_patterns common_errors
  | Raise e => ~ In (strip " top_assists ") question_types /\ e = AttributeError
  end.
Proof.
  apply (X16_validate_then_summarise syracuse example_records
           (add_result example_records "2024-05-01T10:00:02" "top_assists" "top_assists"
              "Emma Ward" (example_result "top_assists" "Emma Ward"))
           "2024-05-01T10:00:00" "2024-05-01T10:00:02" " top_assists " "Emma Ward  ").
  - vm_compute. reflexivity.
  - vm_compute. reflexivity.
Defined.

Lemma X19_best_shooter_and_active_scorers_witness :
  match best_shooter syracuse_more with
  | None => Forall (fun r => (Shots r < 10)%Z) (df syracuse)
  | Some (name, pct) =>
      exists r, In r (df syracuse) /\ (10 <= Shots r)%Z /\
                name = Player r /\ pct = Shooting_Pct r /\
                pct = Shooting_Pct_calc r
  end /\
  (count_ge_10_goals (ground_truth syracuse) <= active_scorers syracuse_more
   <= Z.of_nat (List.length (df syracuse)))%Z /\
  total_assists syracuse_more = wrap64 (sumZ (map Assists (df syracuse))) /\
  total_points syracuse_more = wrap64 (sumZ (map Points (df syracuse))) /\
  (int64 (sumZ (map Assists (df syracuse)))
   -> total_assists syracuse_more = sumZ (map Assists (df syracuse))) /\
  (int64 (sumZ (map Points (df syracuse)))
   -> total_points syracuse_more = sumZ (map Points (df syracuse))).
Proof.
  apply (X19_best_shooter_and_active_scorers stable_values (df syracuse)
           (team_stats syracuse) (ground_truth syracuse) syracuse_more).
  - exact (proj1 syracuse_cells).
  - vm_compute. reflexivity.
  - vm_compute. reflexivity.
Defined.



(** ** The rates at the two ends *)

Lemma iter_shr_1_zero (p : positive) :
  iter_pos shr_1 p {| shr_m := 0; shr_r := false; shr_s := false |}
  = {| shr_m := 0; shr_r := false; shr_s := false |}.
Proof.
  induction p as [p IH|p IH|]; cbn [iter_pos shr_1 orb]; rewrite ?IH; reflexivity.
Qed.

Lemma shr_fexp_zero (e : Z) :
  shr_m (fst (shr_fexp prec emax 0 e loc_Exact)) = 0%Z /\
  loc_of_shr_record (fst (shr_fexp prec emax 0 e loc_Exact)) = loc_Exact.
Proof.
  unfold shr_fexp, shr. cbn [shr_record_of_loc].
  destruct (fexp prec emax (Zdigits2 0 + e) - e)%Z as [|p|p];
    cbn [fst]; rewrite ?iter_shr_1_zero; split; reflexivity.
Qed.

Lemma binary_round_aux_zero (sx : bool) (e : Z) :
  binary_round_aux prec emax sx 0 e loc_Exact = S754_zero sx.
Proof.
  unfold binary_round_aux.
  destruct (shr_fexp_zero e) as [Hm Hl].
  destruct (shr_fexp prec emax 0 e loc_Exact) as [mrs1 e1]. cbn [fst] in Hm, Hl.
  rewrite Hm, Hl. cbn [round_nearest_even].
  destruct (shr_fexp_zero e1) as [Hm2 _].
  destruct (shr_fexp prec emax 0 e1 loc_Exact) as [mrs2 e2]. cbn [fst] in Hm2.
  rewrite Hm2. reflexivity.
Qed.

Lemma new_location_zero (n : Z) : new_location n 0 = loc_Exact.
Proof.
  unfold new_location, new_location_even, new_location_odd.
  destruct (Z.even n); reflexivity.
Qed.

Lemma div_eucl_div_mod (a b q r : Z) :
  Z.div_eucl a b = (q, r) -> q = (a / b)%Z /\ r = (a mod b)%Z.
Proof. intros E. unfold Z.div, Z.modulo. rewrite E. split; reflexivity. Qed.

(** No record of a category accurate: the quotient is zero. *)
Lemma truediv_zero (n : Z) : (0 < n)%Z -> truediv 0 n = Ok (S754_zero false).
Proof.
  intros H. unfold truediv.
  assert (E : (n =? 0)%Z = false) by (apply Z.eqb_neq; lia). rewrite E.
  rewrite (Z.abs_eq n) by lia. cbn [Z.abs]. unfold SFdiv_core_binary.
  set (e' := Z.min _ _).
  assert (Em : match (0 - 0 - e')%Z with
               | Z0 => 0%Z
               | Z.pos _ => Z.shiftl 0 (0 - 0 - e')
               | Z.neg _ => 0%Z
               end = 0%Z).
  { destruct (0 - 0 - e')%Z; try reflexivity. apply Z.shiftl_0_l. }
  rewrite Em. cbn [Z.div_eucl]. rewrite new_location_zero, binary_round_aux_zero.
  assert (En : (n <? 0)%Z = false) by (apply Z.ltb_ge; lia).
  rewrite En. reflexivity.
Qed.

(** Every record of a category accurate: the quotient is one. *)
Lemma truediv_same (n : Z) : (0 < n)%Z -> truediv n n = Ok (float_of_Z 1).
Proof.
  intros H. unfold truediv.
  assert (E : (n =? 0)%Z = false) by (apply Z.eqb_neq; lia). rewrite E.
  rewrite (Z.abs_eq n) by lia. unfold SFdiv_core_binary.
  assert (E0 : (Zdigits2 n + 0 - (Zdigits2 n + 0) = 0)%Z) by lia. rewrite E0.
  change (Z.min (fexp prec emax 0) (0 - 0)) with (-53)%Z.
  change (0 - 0 - -53)%Z with 53%Z. cbv iota.
  rewrite Z.shiftl_mul_pow2 by lia.
  destruct (Z.div_eucl (n * 2 ^ 53) n) as [q r] eqn:Ed.
  destruct (div_eucl_div_mod _ _ _ _ Ed) as [-> ->].
  rewrite (Z.mul_comm n), Z.div_mul, Z.mod_mul by lia.
  rewrite new_location_zero, xorb_nilpotent.
  vm_compute. reflexivity.
Qed.

(** X26. The rates of a report at the two ends: a category all of whose
    records are accurate has the rate 100.0 exactly and is shown as 100.0,
    and a category none of whose records is accurate has the rate 0.0 and
    is shown as 0.0, whatever the number of its records. *)
Theorem X26_rates_at_the_ends :
  forall results : list TestRecord,
    match generate_summary_report results with
    | Ok (Summary total_tests rates successful_patterns common_errors) =>
        Forall
          (fun l =>
             (rl_accurate l = rl_total l ->
              rl_rate l = float_of_Z 100 /\ format_1f (rl_rate l) = "100.0"%string) /\
             (rl_accurate l = 0%Z ->
              rl_rate l = S754_zero false /\ format_1f (rl_rate l) = "0.0"%string))
          rates
    | _ => True
    end.
Proof.
  intros results. unfold generate_summary_report.
  destruct (truthy results); cbn [negb]; [|exact I].
  destruct (rate_lines_always results) as [lines [Hl Hd]]. rewrite Hl. cbn [bind].
  pose proof (rate_lines_rates _ _ Hl) as Hr.
  assert (Hpos : Forall (fun l => (0 < rl_total l)%Z) lines).
  { apply Forall_forall. intros l Hin.
    destruct (type_stats_entry results (rl_ptype l)
                {| total := rl_total l; accurate := rl_accurate l |}) as [_ [_ H]].
    - rewrite <- Hd.
      apply (in_map (fun l => (rl_ptype l, {| total := rl_total l;
                                              accurate := rl_accurate l |}))), Hin.
    - exact H. }
  destruct (if truthy (filter _ results) then _ else _) as [errors|e]; cbn [bind];
    [|exact I].
  clear Hl Hd. induction lines as [|l lines IH]; [constructor|].
  inversion Hr as [|? ? Hr1 Hr2]; subst. inversion Hpos as [|? ? Hp1 Hp2]; subst.
  constructor; [|apply IH; assumption].
  unfold success_rate in Hr1. cbn [total accurate] in Hr1.
  assert (E : (rl_total l =? 0)%Z = false) by (apply Z.eqb_neq; lia).
  rewrite E in Hr1. cbn [negb] in Hr1.
  split; intros Ha; rewrite Ha in Hr1.
  - rewrite (truediv_same _ Hp1) in Hr1. cbn [bind] in Hr1.
    injection Hr1 as <-. split; vm_compute; reflexivity.
  - rewrite (truediv_zero _ Hp1) in Hr1. cbn [bind] in Hr1.
    injection Hr1 as <-. split; vm_compute; reflexivity.
Qed.
